(** * Fetchr: the client-side session and data model of the API client

    A shallow embedding of the Pinia store [stores/app.ts] (tab manager,
    collection tree builder, write-then-reload CRUD protocol, send path and
    cURL generator) and of the draft edits of [RequestBuilder.vue], with the
    properties of the specification stated and settled over it.

    Conventions.
    - JS strings are [string]; [===] on strings is [String.eqb].
    - [string | null] (and optional fields) are [option string]; JS
      truthiness is written out ([truthy], [truthy_opt]).
    - JS numbers that index arrays are [Z] (they may be negative).
    - [Map<string, Request[]>] is [gmap string (list Request)].
    - [KeyValue] objects are shared between arrays, so they live in an object
      heap and arrays hold their addresses.
    - [await invoke(cmd, args)] is a call to the backend collaborator; every
      call is recorded in a trace, may change the backend state, and either
      resolves with a reply or rejects. *)

From Stdlib Require Import ZArith Ascii String List.
From stdpp Require Import base option list strings pretty gmap.

Open Scope string_scope.
Open Scope Z_scope.
Open Scope list_scope.

(** ** JavaScript values *)

Definition truthy (s : string) : bool := negb (String.eqb s "").

Definition truthy_opt (o : option string) : bool :=
  match o with Some s => truthy s | None => false end.

(** [a || b] on strings. *)
Definition or_else (a b : string) : string := if truthy a then a else b.

(** [o || b] on optional strings. *)
Definition opt_or_else (o : option string) (b : string) : string :=
  match o with Some a => or_else a b | None => b end.

(** [o || null] on optional strings as the store's getters write it: a falsy
    value (the empty string) is read as [null]. *)
Definition or_null (o : option string) : option string :=
  if truthy_opt o then o else None.

(** A value inside a template literal: [undefined] prints as its name. *)
Definition tpl (o : option string) : string :=
  match o with Some s => s | None => "undefined" end.

(** [a === b] where both sides are [string | null]. *)
Definition opt_eqb (a b : option string) : bool :=
  match a, b with
  | Some x, Some y => String.eqb x y
  | None, None => true
  | _, _ => false
  end.

Definition lower_ascii (c : ascii) : ascii :=
  let n := nat_of_ascii c in
  if (Nat.leb 65 n && Nat.leb n 90)%bool then ascii_of_nat (n + 32)%nat else c.

(** [s.toLowerCase()], on the ASCII range. No character outside that range
    lowercases to a letter of [content-type], which is the only string the
    store compares a lowered string with. *)
Fixpoint toLowerCase (s : string) : string :=
  match s with
  | EmptyString => EmptyString
  | String c r => String (lower_ascii c) (toLowerCase r)
  end.

Definition squote : ascii := "'"%char.
Definition newline : string := String (ascii_of_nat 10) EmptyString.

(** [body.replace(/'/g, "'\\''")]. *)
Fixpoint escape_quotes (s : string) : string :=
  match s with
  | EmptyString => EmptyString
  | String c r =>
      if Ascii.eqb c squote then "'\''" +:+ escape_quotes r
      else String c (escape_quotes r)
  end.

(** [parts.join(sep)]. *)
Fixpoint join (sep : string) (parts : list string) : string :=
  match parts with
  | [] => ""
  | [p] => p
  | p :: rest => p +:+ sep +:+ join sep rest
  end.

(** ** Data model ([types/index.ts]) *)

Record KeyValue := mkKeyValue {
  kv_key : string;
  kv_value : string;
  kv_enabled : bool
}.

Record FormDataField := mkFormDataField {
  fd_key : string;
  fd_value : string;
  fd_type : string;
  fd_enabled : bool;
  fd_file_path : option string
}.

Record AuthData := mkAuthData {
  username : option string;
  password : option string;
  token : option string;
  key : option string;
  value_field : option string
}.

Definition empty_auth : AuthData := mkAuthData None None None None None.

(** [HttpRequest]. In the store the [headers] array holds references to
    [KeyValue] objects ([H := loc]); what is handed to the backend is the
    serialised value ([H := KeyValue]). *)
Record HttpRequestOf (H : Type) := mkHttpRequest {
  method : string;
  url : string;
  headers : list H;
  body : string;
  body_type : string;
  auth_type : string;
  auth_data : AuthData;
  form_data : option (list FormDataField)
}.
Arguments mkHttpRequest {H}.
Arguments method {H}.
Arguments url {H}.
Arguments headers {H}.
Arguments body {H}.
Arguments body_type {H}.
Arguments auth_type {H}.
Arguments auth_data {H}.
Arguments form_data {H}.

(** Addresses of [KeyValue] objects in the object heap. *)
Abbreviation loc := nat (only parsing).
Definition HttpRequest := HttpRequestOf loc.
Definition WireRequest := HttpRequestOf KeyValue.

Record Cookie := mkCookie {
  cookie_name : string;
  cookie_value : string;
  cookie_domain : option string;
  cookie_path : option string
}.

Record HttpResponse := mkHttpResponse {
  status : Z;
  status_text : string;
  resp_headers : list (string * string);
  resp_body : string;
  response_time : Z;
  size : Z;
  cookies : list Cookie
}.

Record Collection := mkCollection {
  col_id : string;
  col_name : string;
  parent_id : option string;
  is_folder : bool;
  col_created_at : string
}.

Record Request := mkRequest {
  req_id : string;
  collection_id : string;
  req_name : string;
  req_method : string;
  req_url : string;
  req_headers : string;
  req_body : string;
  req_body_type : string;
  req_auth_type : string;
  req_auth_data : string;
  req_created_at : string;
  req_updated_at : string
}.

Record Environment := mkEnvironment {
  env_id : string;
  env_name : string;
  variables : string;
  is_active : bool;
  env_created_at : string
}.

Record EnvironmentVariable := mkEnvironmentVariable {
  var_key : string;
  var_value : string
}.

Record History := mkHistory {
  h_id : string;
  h_method : string;
  h_url : string;
  h_status : Z;
  h_response_time : Z;
  h_created_at : string
}.

Inductive NodeData :=
| DataCollection (c : Collection)
| DataRequest (r : Request).

Inductive NodeType := folder | request.

#[warnings="-register-all"]
Inductive TreeNode :=
| mkTreeNode (node_key node_label : string) (node_data : NodeData)
    (node_icon : option string) (node_children : option (list TreeNode))
    (node_type : NodeType).

Definition node_key (n : TreeNode) : string :=
  match n with mkTreeNode k _ _ _ _ _ => k end.
Definition node_label (n : TreeNode) : string :=
  match n with mkTreeNode _ l _ _ _ _ => l end.
Definition node_icon (n : TreeNode) : option string :=
  match n with mkTreeNode _ _ _ i _ _ => i end.
Definition node_type (n : TreeNode) : NodeType :=
  match n with mkTreeNode _ _ _ _ _ t => t end.
Definition node_data (n : TreeNode) : NodeData :=
  match n with mkTreeNode _ _ d _ _ _ => d end.
Definition node_children (n : TreeNode) : option (list TreeNode) :=
  match n with mkTreeNode _ _ _ _ ch _ => ch end.

(** ** Store state *)

Record RequestTab := mkRequestTab {
  tab_id : string;
  tab_name : string;
  tab_request : HttpRequest;
  tab_response : option HttpResponse;
  tab_requestId : option string;
  tab_isLoading : bool;
  tab_isDirty : bool
}.

Record Store := mkStore {
  collections : list Collection;
  requests : gmap string (list Request);
  environments : list Environment;
  activeEnvironment : option Environment;
  history : list History;
  openTabs : list RequestTab;
  activeTabIndex : Z;
  heap : list KeyValue
}.

(** The request literal that the store writes in four places. *)
Definition defaultRequest : HttpRequest :=
  mkHttpRequest "GET" "" [] "" "none" "none" empty_auth (Some []).

Definition set_request (v : HttpRequest) (t : RequestTab) : RequestTab :=
  mkRequestTab (tab_id t) (tab_name t) v (tab_response t) (tab_requestId t)
    (tab_isLoading t) (tab_isDirty t).
Definition set_response (v : option HttpResponse) (t : RequestTab) : RequestTab :=
  mkRequestTab (tab_id t) (tab_name t) (tab_request t) v (tab_requestId t)
    (tab_isLoading t) (tab_isDirty t).
Definition set_requestId (v : option string) (t : RequestTab) : RequestTab :=
  mkRequestTab (tab_id t) (tab_name t) (tab_request t) (tab_response t) v
    (tab_isLoading t) (tab_isDirty t).
Definition set_name (v : string) (t : RequestTab) : RequestTab :=
  mkRequestTab (tab_id t) v (tab_request t) (tab_response t) (tab_requestId t)
    (tab_isLoading t) (tab_isDirty t).
Definition set_isLoading (v : bool) (t : RequestTab) : RequestTab :=
  mkRequestTab (tab_id t) (tab_name t) (tab_request t) (tab_response t)
    (tab_requestId t) v (tab_isDirty t).
Definition set_isDirty (v : bool) (t : RequestTab) : RequestTab :=
  mkRequestTab (tab_id t) (tab_name t) (tab_request t) (tab_response t)
    (tab_requestId t) (tab_isLoading t) v.

Definition set_openTabs (v : list RequestTab) (s : Store) : Store :=
  mkStore (collections s) (requests s) (environments s) (activeEnvironment s)
    (history s) v (activeTabIndex s) (heap s).
Definition set_activeTabIndex (v : Z) (s : Store) : Store :=
  mkStore (collections s) (requests s) (environments s) (activeEnvironment s)
    (history s) (openTabs s) v (heap s).
Definition set_heap (v : list KeyValue) (s : Store) : Store :=
  mkStore (collections s) (requests s) (environments s) (activeEnvironment s)
    (history s) (openTabs s) (activeTabIndex s) v.
Definition set_collections (v : list Collection) (s : Store) : Store :=
  mkStore v (requests s) (environments s) (activeEnvironment s)
    (history s) (openTabs s) (activeTabIndex s) (heap s).
Definition set_requests (v : gmap string (list Request)) (s : Store) : Store :=
  mkStore (collections s) v (environments s) (activeEnvironment s)
    (history s) (openTabs s) (activeTabIndex s) (heap s).
Definition set_environments (v : list Environment) (s : Store) : Store :=
  mkStore (collections s) (requests s) v (activeEnvironment s)
    (history s) (openTabs s) (activeTabIndex s) (heap s).
Definition set_activeEnvironment (v : option Environment) (s : Store) : Store :=
  mkStore (collections s) (requests s) (environments s) v
    (history s) (openTabs s) (activeTabIndex s) (heap s).
Definition set_history (v : list History) (s : Store) : Store :=
  mkStore (collections s) (requests s) (environments s) (activeEnvironment s)
    v (openTabs s) (activeTabIndex s) (heap s).

(** [arr[i]] for a numeric index: [undefined] when out of range. *)
Definition at_index {A} (l : list A) (i : Z) : option A :=
  if i <? 0 then None else l !! Z.to_nat i.

(** [arr[i].field = v], guarded by [if (arr[i])] as the store's setters are. *)
Definition update_at {A} (f : A -> A) (i : Z) (l : list A) : list A :=
  if i <? 0 then l else alter f (Z.to_nat i) l.

(** [openTabs.value[activeTabIndex.value]]. *)
Definition activeTab (s : Store) : option RequestTab :=
  at_index (openTabs s) (activeTabIndex s).

Definition update_activeTab (f : RequestTab -> RequestTab) (s : Store) : Store :=
  set_openTabs (update_at f (activeTabIndex s) (openTabs s)) s.

(** *** The computed properties of the active tab *)

Definition currentRequest (s : Store) : HttpRequest :=
  match activeTab s with Some t => tab_request t | None => defaultRequest end.

Definition set_currentRequest (v : HttpRequest) (s : Store) : Store :=
  update_activeTab (fun t => set_isDirty true (set_request v t)) s.

Definition currentResponse (s : Store) : option HttpResponse :=
  match activeTab s with Some t => tab_response t | None => None end.

Definition set_currentResponse (v : option HttpResponse) (s : Store) : Store :=
  update_activeTab (set_response v) s.

Definition selectedRequestId (s : Store) : option string :=
  match activeTab s with Some t => or_null (tab_requestId t) | None => None end.

Definition set_selectedRequestId (v : option string) (s : Store) : Store :=
  update_activeTab (set_requestId v) s.

Definition isLoading (s : Store) : bool :=
  match activeTab s with Some t => tab_isLoading t | None => false end.

Definition set_isLoadingCurrent (v : bool) (s : Store) : Store :=
  update_activeTab (set_isLoading v) s.

(** Dereferencing a [headers] array through the object heap. *)
Definition deref (h : list KeyValue) (ls : list loc) : list KeyValue :=
  omap (fun l => h !! l) ls.

Definition currentHeaders (s : Store) : list KeyValue :=
  deref (heap s) (headers (currentRequest s)).

(** ** Tab management *)

Definition resetCurrentRequest (s : Store) : Store :=
  set_selectedRequestId None
    (set_currentResponse None
      (set_currentRequest defaultRequest s)).

(** [arr.splice(index, 1)]: a negative start counts from the end, a start
    past the end removes nothing. *)
Definition splice1 {A} (index : Z) (l : list A) : list A :=
  let len := Z.of_nat (length l) in
  let start := if index <? 0 then Z.max (len + index) 0 else Z.min index len in
  delete (Z.to_nat start) l.

Definition closeTab (index : Z) (s : Store) : Store :=
  if (length (openTabs s) =? 1)%nat then
    let s1 := resetCurrentRequest s in
    set_openTabs
      (update_at (set_isDirty false) 0
        (update_at (set_name "New Request") 0 (openTabs s1))) s1
  else
    let s1 := set_openTabs (splice1 index (openTabs s)) s in
    let len := Z.of_nat (length (openTabs s1)) in
    if activeTabIndex s1 >=? len then set_activeTabIndex (len - 1) s1
    else if activeTabIndex s1 >? index then
      set_activeTabIndex (activeTabIndex s1 - 1) s1
    else s1.

Definition switchTab (index : Z) (s : Store) : Store :=
  if ((index >=? 0) && (index <? Z.of_nat (length (openTabs s))))%bool
  then set_activeTabIndex index s else s.

Definition updateTabName (index : Z) (name : string) (s : Store) : Store :=
  set_openTabs (update_at (set_name name) index (openTabs s)) s.

(** ** Collection tree builder ([collectionTree]) *)

(** [c.parent_id === parentId || (!c.parent_id && !parentId)]. *)
Definition parent_matches (c : Collection) (parentId : option string) : bool :=
  (opt_eqb (parent_id c) parentId
   || (negb (truthy_opt (parent_id c)) && negb (truthy_opt parentId)))%bool.

Definition requestNode (req : Request) : TreeNode :=
  mkTreeNode (req_id req) (req_name req) (DataRequest req)
    (Some "pi pi-file") None request.

Definition folderNode (c : Collection) (children : list TreeNode) : TreeNode :=
  mkTreeNode (col_id c) (col_name c) (DataCollection c)
    (Some "pi pi-folder") (Some children) folder.

(** [requests.value.get(id) || []]. *)
Definition requestsOf (reqs : gmap string (list Request)) (id : string)
  : list Request :=
  default [] (reqs !! id).

(** [list.forEach(x => target.push(f x))]. *)
Definition push_each {A B} (f : A -> B) (l : list A) (target : list B) : list B :=
  foldl (fun acc x => acc ++ [f x]) target l.

(** [buildTree(parentId)]. The recursion follows [parent_id] links and does
    not end on a cyclic collections list, so the embedding carries fuel:
    [None] is "the call stack ran out". *)
Fixpoint buildTree (fuel : nat) (cols : list Collection)
    (reqs : gmap string (list Request)) (parentId : option string)
  : option (list TreeNode) :=
  match fuel with
  | O => None
  | S n =>
      let folders :=
        List.filter (fun c => is_folder c && parent_matches c parentId)%bool cols in
      let items :=
        foldl (fun acc fld =>
                 match acc with
                 | None => None
                 | Some items =>
                     match buildTree n cols reqs (Some (col_id fld)) with
                     | None => None
                     | Some children =>
                         let children :=
                           push_each requestNode (requestsOf reqs (col_id fld))
                             children in
                         Some (items ++ [folderNode fld children])
                     end
                 end)
              (Some []) folders in
      let rootRequests :=
        List.filter (fun c => negb (is_folder c) && parent_matches c parentId)%bool
          cols in
      match items with
      | None => None
      | Some items =>
          Some (foldl (fun items c =>
                         push_each requestNode (requestsOf reqs (col_id c)) items)
                  items rootRequests)
      end
  end.

Definition collectionTree (fuel : nat) (s : Store) : option (list TreeNode) :=
  buildTree fuel (collections s) (requests s) None.

(** What the tree component is handed for a request: a node without a
    [children] field, of type [request], whose key, label and data are the
    request's id, its name and the request itself. *)
Definition is_request_leaf (req : Request) (n : TreeNode) : Prop :=
  node_key n = req_id req /\ node_label n = req_name req /\
  node_data n = DataRequest req /\ node_icon n = Some "pi pi-file" /\
  node_children n = None /\ node_type n = request.

(** And for a folder: a node of type [folder] whose key, label and data are
    the folder's id, its name and the folder itself, with [children]. *)
Definition is_folder_node (c : Collection) (children : list TreeNode)
    (n : TreeNode) : Prop :=
  node_key n = col_id c /\ node_label n = col_name c /\
  node_data n = DataCollection c /\ node_icon n = Some "pi pi-folder" /\
  node_children n = Some children /\ node_type n = folder.

(** The tree as the specification words it: at a level, the folders of the
    level in list order, each with its sub-tree followed by its own requests
    as leaves, then the requests of the level's non-folder collections as
    leaves. *)
Inductive TreeAt (cols : list Collection) (reqs : gmap string (list Request))
  : option string -> list TreeNode -> Prop :=
| TreeAt_level parentId folderNodes leaves :
    FoldersAt cols reqs
      (List.filter (fun c => is_folder c && parent_matches c parentId)%bool cols)
      folderNodes ->
    Forall2 is_request_leaf
      (flat_map (fun c => requestsOf reqs (col_id c))
         (List.filter (fun c => negb (is_folder c) && parent_matches c parentId)%bool
            cols))
      leaves ->
    TreeAt cols reqs parentId (folderNodes ++ leaves)
with FoldersAt (cols : list Collection) (reqs : gmap string (list Request))
  : list Collection -> list TreeNode -> Prop :=
| FoldersAt_nil : FoldersAt cols reqs [] []
| FoldersAt_cons fld rest sub leaves node nodes :
    TreeAt cols reqs (Some (col_id fld)) sub ->
    Forall2 is_request_leaf (requestsOf reqs (col_id fld)) leaves ->
    is_folder_node fld (sub ++ leaves) node ->
    FoldersAt cols reqs rest nodes ->
    FoldersAt cols reqs (fld :: rest) (node :: nodes).

(** The parent ids that the recursion started at [root] gets to: [root], and
    the id of every folder listed under a parent id it gets to. *)
Inductive reachable (cols : list Collection) (root : option string)
  : option string -> Prop :=
| reachable_root : reachable cols root root
| reachable_child p c :
    reachable cols root p -> In c cols -> is_folder c = true ->
    parent_matches c p = true ->
    reachable cols root (Some (col_id c)).

(** A level assignment under which every folder that the recursion from
    [root] gets to sits strictly below the parent it is listed under: the
    folders below [root] form a forest. Folders out of reach (a cycle that
    hangs on no root folder) are not constrained. *)
Definition ranked (cols : list Collection) (root : option string)
    (rank : option string -> nat) : Prop :=
  forall c p, reachable cols root p ->
    In c cols -> is_folder c = true -> parent_matches c p = true ->
    (rank (Some (col_id c)) < rank p)%nat.

(** Every container node of a tree is a folder collection. *)
Fixpoint containers_are_folders (n : TreeNode) : bool :=
  match n with
  | mkTreeNode _ _ d _ ch t =>
      match t with
      | folder =>
          match d with
          | DataCollection c => is_folder c
          | DataRequest _ => false
          end
      | request =>
          match d, ch with
          | DataRequest _, None => true
          | _, _ => false
          end
      end
      && match ch with
         | None => true
         | Some l => forallb containers_are_folders l
         end
  end%bool.

(** ** cURL generator *)

Definition content_type_flag : string := "-H 'Content-Type: application/json'".

Definition enabledHeaders (hs : list KeyValue) : list KeyValue :=
  List.filter (fun h => kv_enabled h && truthy (kv_key h))%bool hs.

Definition hasContentType (hs : list KeyValue) : bool :=
  existsb (fun h => String.eqb (toLowerCase (kv_key h)) "content-type") hs.

Definition curl_method (r : HttpRequest) : list string :=
  if String.eqb (method r) "GET" then [] else ["-X " +:+ method r].

Definition curl_headers (hs : list KeyValue) : list string :=
  map (fun h => "-H '" +:+ kv_key h +:+ ": " +:+ kv_value h +:+ "'")
    (enabledHeaders hs).

Definition curl_auth (r : HttpRequest) : list string :=
  let a := auth_data r in
  if (String.eqb (auth_type r) "basic" && truthy_opt (username a))%bool then
    ["-u '" +:+ tpl (username a) +:+ ":" +:+ opt_or_else (password a) "" +:+ "'"]
  else if (String.eqb (auth_type r) "bearer" && truthy_opt (token a))%bool then
    ["-H 'Authorization: Bearer " +:+ tpl (token a) +:+ "'"]
  else if (String.eqb (auth_type r) "apikey" && truthy_opt (key a))%bool then
    ["-H '" +:+ tpl (key a) +:+ ": " +:+ tpl (value_field a) +:+ "'"]
  else [].

Definition curl_body (r : HttpRequest) (hs : list KeyValue) : list string :=
  if (truthy (body r) && negb (String.eqb (body_type r) "none"))%bool then
    ["-d '" +:+ escape_quotes (body r) +:+ "'"]
    ++ (if (negb (hasContentType (enabledHeaders hs))
            && String.eqb (body_type r) "json")%bool
        then [content_type_flag] else [])
  else [].

(** The [parts] array of [generateCurl], in push order. *)
Definition generateCurl_parts (s : Store) : list string :=
  let r := currentRequest s in
  let hs := currentHeaders s in
  ["curl"] ++ curl_method r ++ curl_headers hs ++ curl_auth r ++ curl_body r hs
  ++ ["'" +:+ url r +:+ "'"].

Definition generateCurl (s : Store) : string :=
  join (" \" +:+ newline +:+ "  ") (generateCurl_parts s).

(** ** Draft edits of the request builder ([RequestBuilder.vue])

    The form controls are bound with [v-model] to properties of
    [store.currentRequest], the object the getter returns: the write goes to
    that object, the computed setter is not involved. The embedding covers
    the stores with an active tab ([tabs_ok]), where that object is the draft
    of the tab. Without an active tab the getter hands out a default object
    that belongs to no tab: the embedding leaves the store as it is, while
    the running application keeps the write in that object for as long as
    the computed value is cached. *)

Definition edit_request (f : HttpRequest -> HttpRequest) (s : Store) : Store :=
  update_activeTab (fun t => set_request (f (tab_request t)) t) s.

Definition with_method (v : string) (r : HttpRequest) : HttpRequest :=
  mkHttpRequest v (url r) (headers r) (body r) (body_type r) (auth_type r)
    (auth_data r) (form_data r).
Definition with_url (v : string) (r : HttpRequest) : HttpRequest :=
  mkHttpRequest (method r) v (headers r) (body r) (body_type r) (auth_type r)
    (auth_data r) (form_data r).
Definition with_headers (v : list loc) (r : HttpRequest) : HttpRequest :=
  mkHttpRequest (method r) (url r) v (body r) (body_type r) (auth_type r)
    (auth_data r) (form_data r).
Definition with_body (v : string) (r : HttpRequest) : HttpRequest :=
  mkHttpRequest (method r) (url r) (headers r) v (body_type r) (auth_type r)
    (auth_data r) (form_data r).

(** [v-model="store.currentRequest.method"]. *)
Definition editMethod (v : string) : Store -> Store := edit_request (with_method v).
(** [v-model="store.currentRequest.url"]. *)
Definition editUrl (v : string) : Store -> Store := edit_request (with_url v).
(** [v-model="store.currentRequest.body"]. *)
Definition editBody (v : string) : Store -> Store := edit_request (with_body v).

(** [v-model="data.value"] on a row of the headers table. *)
Definition editHeaderValue (i : nat) (v : string) (s : Store) : Store :=
  match headers (currentRequest s) !! i with
  | Some l =>
      set_heap (alter (fun h => mkKeyValue (kv_key h) v (kv_enabled h)) l (heap s)) s
  | None => s
  end.

(** [addHeader()], [newHeader] being the row under edit. *)
Definition addHeader (newHeader : KeyValue) (s : Store) : Store :=
  if truthy (kv_key newHeader) then
    let l := length (heap s) in
    edit_request (fun r => with_headers (headers r ++ [l]) r)
      (set_heap (heap s ++ [newHeader]) s)
  else s.

(** [removeHeader(index)]. *)
Definition removeHeader (index : Z) : Store -> Store :=
  edit_request (fun r => with_headers (splice1 index (headers r)) r).

(** ** The backend collaborator and the host platform *)

Inductive result (A : Type) :=
| Ok (a : A)
| Rejected (error : string).
Arguments Ok {A}.
Arguments Rejected {A}.

(** The Tauri commands the store invokes, indexed by the type of the reply. *)
Inductive Cmd : Type -> Type :=
| get_all_collections : Cmd (list Collection)
| create_collection (collection : Collection) : Cmd unit
| delete_collection (id : string) : Cmd unit
| get_requests_by_collection (collectionId : string) : Cmd (list Request)
| save_request (req : Request) : Cmd unit
| get_request (id : string) : Cmd (option Request)
| delete_request (id : string) : Cmd unit
| interpolate_variables (text : string) : Cmd string
| send_http_request (req : WireRequest) : Cmd HttpResponse
| get_all_environments : Cmd (list Environment)
| save_environment (env : Environment) : Cmd unit
| delete_environment (id : string) : Cmd unit
| get_history (limit : Z) : Cmd (list History)
| add_history (entry : History) : Cmd unit
| clear_history : Cmd unit.

Definition Call : Type := sigT Cmd.
Definition call {R} (c : Cmd R) : Call := existT R c.

(** What the store takes from the platform: the JSON codec on the shapes it
    serialises, [crypto.randomUUID()] and [new Date().toISOString()] (both
    read off a counter of the world). *)
Record Host := mkHost {
  JSON_parse_headers : string -> option (list KeyValue);
  JSON_parse_auth : string -> option AuthData;
  JSON_stringify_headers : list KeyValue -> string;
  JSON_stringify_auth : AuthData -> string;
  JSON_stringify_variables : list EnvironmentVariable -> string;
  randomUUID_at : nat -> string;
  toISOString_at : nat -> string
}.

Section StoreActions.

Context {DB : Type}.
Variable backend : forall R, Cmd R -> DB -> DB * result R.
Variable host : Host.

Record World := mkWorld {
  store : Store;
  db : DB;
  trace : list Call;
  ticks : nat;
  console : list string
}.

(** An [async] action: it runs from a world to a world and either returns or
    throws; what it did before throwing stays done. *)
Definition M (A : Type) : Type := World -> World * result A.

#[local] Instance M_ret : MRet M := fun A a w => (w, Ok a).
#[local] Instance M_bind : MBind M := fun A B k m w =>
  match m w with
  | (w1, Ok a) => k a w1
  | (w1, Rejected e) => (w1, Rejected e)
  end.

Definition throw {A} (e : string) : M A := fun w => (w, Rejected e).

(** [try { m } catch (error) { handler error }]. *)
Definition try_catch {A} (m : M A) (handler : string -> M A) : M A := fun w =>
  match m w with
  | (w1, Ok a) => (w1, Ok a)
  | (w1, Rejected e) => handler e w1
  end.

(** [try { m } finally { cleanup }], for a cleanup that does not throw. *)
Definition try_finally {A} (m : M A) (cleanup : World -> World) : M A := fun w =>
  let '(w1, r) := m w in (cleanup w1, r).

Definition on_store (f : Store -> Store) (w : World) : World :=
  mkWorld (f (store w)) (db w) (trace w) (ticks w) (console w).

Definition gets {A} (f : Store -> A) : M A := fun w => (w, Ok (f (store w))).
Definition modify (f : Store -> Store) : M unit := fun w => (on_store f w, Ok tt).

Definition console_error (msg : string) : M unit := fun w =>
  (mkWorld (store w) (db w) (trace w) (ticks w) (console w ++ [msg]), Ok tt).

Definition tick : M nat := fun w =>
  (mkWorld (store w) (db w) (trace w) (S (ticks w)) (console w), Ok (ticks w)).

Definition randomUUID : M string := n ← tick; mret (randomUUID_at host n).
Definition now : M string := n ← tick; mret (toISOString_at host n).

(** [await invoke(cmd, args)]. *)
Definition invoke {R} (c : Cmd R) : M R := fun w =>
  let '(db1, r) := backend R c (db w) in
  (mkWorld (store w) db1 (trace w ++ [call c]) (ticks w) (console w), r).

(** [JSON.parse] throws on malformed input. *)
Definition parse {A} (p : string -> option A) (text : string) : M A :=
  match p text with
  | Some v => mret v
  | None => throw "SyntaxError"
  end.

(** Fresh objects for the entries of a parsed headers array. *)
Definition alloc (kvs : list KeyValue) : M (list loc) := fun w =>
  let h := heap (store w) in
  (on_store (set_heap (h ++ kvs)) w, Ok (seq (length h) (length kvs))).

(** [for (const x of l) { await f(x) }]. *)
Fixpoint for_each {A} (f : A -> M unit) (l : list A) : M unit :=
  match l with
  | [] => mret tt
  | x :: rest => f x;; for_each f rest
  end.

(** *** Collections and requests *)

Definition loadRequestsByCollection (collectionId : string) : M unit :=
  try_catch
    (result ← invoke (get_requests_by_collection collectionId);
     modify (fun s => set_requests (<[collectionId := result]> (requests s)) s))
    (fun _ => console_error "Failed to load requests:").

Definition loadCollections : M unit :=
  try_catch
    (result ← invoke get_all_collections;
     modify (set_collections result);;
     for_each (fun c => loadRequestsByCollection (col_id c)) result)
    (fun _ => console_error "Failed to load collections:").

Definition createCollection (name : string) (parentId : option string)
    (isFolder : bool) : M unit :=
  try_catch
    (id ← randomUUID;
     created_at ← now;
     invoke (create_collection (mkCollection id name parentId isFolder created_at));;
     loadCollections)
    (fun _ => console_error "Failed to create collection:").

Definition deleteCollection (id : string) : M unit :=
  try_catch
    (invoke (delete_collection id);;
     loadCollections)
    (fun _ => console_error "Failed to delete collection:").

Definition saveCurrentRequest (name collectionId : string) : M unit :=
  try_catch
    (stamp ← now;
     selected ← gets selectedRequestId;
     id ← match selected with Some id => mret id | None => randomUUID end;
     cur ← gets currentRequest;
     hs ← gets currentHeaders;
     let req :=
       mkRequest id collectionId name (method cur) (url cur)
         (JSON_stringify_headers host hs) (body cur) (body_type cur)
         (auth_type cur) (JSON_stringify_auth host (auth_data cur)) stamp stamp in
     invoke (save_request req);;
     loadRequestsByCollection collectionId;;
     modify (set_selectedRequestId (Some id));;
     modify (update_activeTab (fun t => set_isDirty false (set_name name t))))
    (fun _ => console_error "Failed to save request:").

(** The draft of a persisted request, as [loadRequest] and [createNewTab]
    both build it; the two [JSON.parse] calls may throw. *)
Definition hydrate (r : Request) : M HttpRequest :=
  kvs ← parse (JSON_parse_headers host) (or_else (req_headers r) "[]");
  ls ← alloc kvs;
  auth ← parse (JSON_parse_auth host) (or_else (req_auth_data r) "{}");
  mret (mkHttpRequest (req_method r) (req_url r) ls (req_body r)
          (req_body_type r) (req_auth_type r) auth (Some [])).

(** [createNewTab(name = 'New Request', request?)]; the tab bar calls it
    without arguments. *)
Definition createNewTab (name : string) (req : option Request) : M unit :=
  id ← randomUUID;
  let name := match req with Some r => or_else (req_name r) name | None => name end in
  draft ← match req with Some r => hydrate r | None => mret defaultRequest end;
  let requestId :=
    match req with Some r => or_null (Some (req_id r)) | None => None end in
  let newTab := mkRequestTab id name draft None requestId false false in
  modify (fun s => set_openTabs (openTabs s ++ [newTab]) s);;
  modify (fun s => set_activeTabIndex (Z.of_nat (length (openTabs s)) - 1) s).

(** [openTabs.value.findIndex(tab => tab.requestId === id)]. *)
Fixpoint findIndex {A} (p : A -> bool) (l : list A) : option nat :=
  match l with
  | [] => None
  | x :: rest => if p x then Some O else S <$> findIndex p rest
  end.

Definition bound_to (id : string) (t : RequestTab) : bool :=
  opt_eqb (tab_requestId t) (Some id).

(** [loadRequest(id, openInNewTab = false)]; the collection tree calls it
    with the id alone. *)
Definition loadRequest (id : string) (openInNewTab : bool) : M unit :=
  try_catch
    (reply ← invoke (get_request id);
     match reply with
     | None => mret tt
     | Some r =>
         tabs ← gets openTabs;
         match findIndex (bound_to id) tabs with
         | Some existingTabIndex =>
             modify (set_activeTabIndex (Z.of_nat existingTabIndex))
         | None =>
             active ← gets activeTab;
             if (openInNewTab
                 || match active with
                    | Some t => truthy_opt (tab_requestId t) || tab_isDirty t
                    | None => false
                    end)%bool
             then createNewTab (req_name r) (Some r)
             else
               modify (set_selectedRequestId (Some id));;
               draft ← hydrate r;
               modify (set_currentRequest draft);;
               modify (update_activeTab
                         (fun t => set_isDirty false (set_name (req_name r) t)))
         end
     end)
    (fun _ => console_error "Failed to load request:").

Definition deleteRequest (id collectionId : string) : M unit :=
  try_catch
    (invoke (delete_request id);;
     loadRequestsByCollection collectionId;;
     selected ← gets selectedRequestId;
     if opt_eqb selected (Some id)
     then modify (set_selectedRequestId None);; modify resetCurrentRequest
     else mret tt)
    (fun _ => console_error "Failed to delete request:").

(** *** Environments *)

Definition loadEnvironments : M unit :=
  try_catch
    (result ← invoke get_all_environments;
     modify (set_environments result);;
     modify (set_activeEnvironment (List.find is_active result)))
    (fun _ => console_error "Failed to load environments:").

Definition saveEnvironment (name : string) (vars : list EnvironmentVariable)
    (isActive : bool) : M unit :=
  try_catch
    (id ← randomUUID;
     created_at ← now;
     invoke (save_environment
               (mkEnvironment id name (JSON_stringify_variables host vars)
                  isActive created_at));;
     loadEnvironments)
    (fun _ => console_error "Failed to save environment:").

Definition find_environment (id : string) (s : Store) : option Environment :=
  List.find (fun e => String.eqb (env_id e) id) (environments s).

Definition updateEnvironment (id name : string)
    (vars : list EnvironmentVariable) : M unit :=
  try_catch
    (found ← gets (find_environment id);
     match found with
     | Some env =>
         invoke (save_environment
                   (mkEnvironment (env_id env) name
                      (JSON_stringify_variables host vars) (is_active env)
                      (env_created_at env)));;
         loadEnvironments
     | None => mret tt
     end)
    (fun _ => console_error "Failed to update environment:").

Definition setActiveEnvironment (id : string) : M unit :=
  try_catch
    (found ← gets (find_environment id);
     match found with
     | Some env =>
         invoke (save_environment
                   (mkEnvironment (env_id env) (env_name env) (variables env)
                      true (env_created_at env)));;
         loadEnvironments
     | None => mret tt
     end)
    (fun _ => console_error "Failed to set active environment:").

Definition deleteEnvironment (id : string) : M unit :=
  try_catch
    (invoke (delete_environment id);;
     loadEnvironments)
    (fun _ => console_error "Failed to delete environment:").

(** *** History *)

Definition loadHistory (limit : Z) : M unit :=
  try_catch
    (result ← invoke (get_history limit);
     modify (set_history result))
    (fun _ => console_error "Failed to load history:").

Definition addHistory (historyItem : History) : M unit :=
  try_catch
    (invoke (add_history historyItem);;
     loadHistory 50)
    (fun _ => console_error "Failed to add history:").

Definition clearHistory : M unit :=
  try_catch
    (invoke clear_history;;
     modify (set_history []))
    (fun _ => console_error "Failed to clear history:").

(** *** Sending *)

Definition with_value (v : string) (h : KeyValue) : KeyValue :=
  mkKeyValue (kv_key h) v (kv_enabled h).

(** One turn of the headers loop:
    [headers[i].value = await invoke('interpolate_variables', ...)] writes to
    the object that [headers[i]] refers to. An address always refers to an
    object; the [None] branch is there for totality. *)
Definition interpolate_header (l : loc) : M unit :=
  env ← gets activeEnvironment;
  match env with
  | Some _ =>
      h ← gets heap;
      match h !! l with
      | Some kv =>
          v ← invoke (interpolate_variables (kv_value kv));
          modify (fun s => set_heap (alter (with_value v) l (heap s)) s)
      | None => mret tt
      end
  | None => mret tt
  end.

Definition sendRequest : M unit :=
  try_finally
    (try_catch
       (modify (set_isLoadingCurrent true);;
        modify (set_currentResponse None);;
        url0 ← gets (fun s => url (currentRequest s));
        env ← gets activeEnvironment;
        url1 ← match env with
               | Some _ => invoke (interpolate_variables url0)
               | None => mret url0
               end;
        (* const headers = [...currentRequest.value.headers]: a new array
           holding the same objects *)
        hdrs ← gets (fun s => headers (currentRequest s));
        for_each interpolate_header hdrs;;
        body0 ← gets (fun s => body (currentRequest s));
        env ← gets activeEnvironment;
        body1 ← match env with
                | Some _ =>
                    if truthy body0 then invoke (interpolate_variables body0)
                    else mret body0
                | None => mret body0
                end;
        cur ← gets currentRequest;
        h ← gets heap;
        let requestToSend : WireRequest :=
          mkHttpRequest (method cur) url1 (deref h hdrs) body1 (body_type cur)
            (auth_type cur) (auth_data cur) (form_data cur) in
        response ← invoke (send_http_request requestToSend);
        modify (set_currentResponse (Some response));;
        id ← randomUUID;
        m ← gets (fun s => method (currentRequest s));
        u ← gets (fun s => url (currentRequest s));
        created_at ← now;
        addHistory
          (mkHistory id m u (status response) (response_time response) created_at))
       (fun e => console_error "Request failed:";; throw e))
    (on_store (set_isLoadingCurrent false)).

End StoreActions.

#[global] Existing Instances M_ret M_bind.

Arguments mkWorld {DB}.
Arguments store {DB}.
Arguments db {DB}.
Arguments trace {DB}.
Arguments ticks {DB}.
Arguments console {DB}.

(** ** The initial store *)

(** The store as it is set up: one empty tab, which is the active one. *)
Definition initialStore (id : string) : Store :=
  mkStore [] ∅ [] None []
    [mkRequestTab id "New Request" defaultRequest None None false false] 0 [].

(** ** A reference backend and host

    The backend (the Tauri commands over SQLite) and the JSON codec are not
    part of the client; the properties below hold for every backend and host.
    This instance is used to run the store on concrete scenarios. *)
Module Reference.

(** [s.trim()], on spaces. *)
Fixpoint trim_left (s : string) : string :=
  match s with
  | String c r => if Ascii.eqb c " "%char then trim_left r else s
  | EmptyString => EmptyString
  end.

Fixpoint rev_string (s : string) (acc : string) : string :=
  match s with
  | EmptyString => acc
  | String c r => rev_string r (String c acc)
  end.

Definition trim (s : string) : string :=
  rev_string (trim_left (rev_string (trim_left s) "")) "".

(** Position of the first occurrence of [pat] in [s]. *)
Fixpoint index_of (pat s : string) : option nat :=
  if String.prefix pat s then Some O
  else match s with
       | EmptyString => None
       | String _ r => S <$> index_of pat r
       end.

Definition drop_string (n : nat) (s : string) : string :=
  String.substring n (String.length s - n) s.

(** Modelled from the spec: the resolver behind the [interpolate_variables]
    command, whose code is on the backend side. It takes the text between
    the first [{{] and the [}}] that follows it, trimmed, as a name, looks
    the name up in the variables by exact key (first match wins) and
    replaces the token by the value; without a token, or with an unknown
    name, the text is returned as it is. *)
Definition interpolate (text : string) (vars : list EnvironmentVariable) : string :=
  match index_of "{{" text with
  | None => text
  | Some i =>
      let rest := drop_string (i + 2) text in
      match index_of "}}" rest with
      | None => text
      | Some j =>
          let name := trim (String.substring 0 j rest) in
          match List.find (fun v => String.eqb (var_key v) name) vars with
          | Some v =>
              String.substring 0 i text +:+ var_value v +:+ drop_string (j + 2) rest
          | None => text
          end
      end
  end.

(** [s.split(sep)] for a one-character separator. *)
Fixpoint split_on (sep : ascii) (s : string) : list string :=
  match s with
  | EmptyString => [EmptyString]
  | String c r =>
      if Ascii.eqb c sep then EmptyString :: split_on sep r
      else match split_on sep r with
           | h :: t => String c h :: t
           | [] => [String c EmptyString]
           end
  end.

(** A line codec standing in for JSON on variable lists: [k=v;k=v]. *)
Definition stringify_variables (vars : list EnvironmentVariable) : string :=
  join ";" (map (fun v => var_key v +:+ "=" +:+ var_value v) vars).

Definition parse_variables (text : string) : list EnvironmentVariable :=
  omap (fun entry =>
          match split_on "="%char entry with
          | [k; v] => Some (mkEnvironmentVariable k v)
          | _ => None
          end)
       (split_on ";"%char text).

(** The same codec on header lists ([k=v;k=v], every entry enabled), with
    [[]] for the empty array; [{}] is the only auth object it reads. *)
Definition stringify_headers (hs : list KeyValue) : string :=
  match hs with
  | [] => "[]"
  | _ => join ";" (map (fun h => kv_key h +:+ "=" +:+ kv_value h) hs)
  end.

Definition parse_headers (text : string) : option (list KeyValue) :=
  if String.eqb text "[]" then Some []
  else
    mapM (fun entry =>
            match split_on "="%char entry with
            | [k; v] => Some (mkKeyValue k v true)
            | _ => None
            end)
         (split_on ";"%char text).

Definition parse_auth (text : string) : option AuthData :=
  if String.eqb text "{}" then Some empty_auth else None.

Definition host : Host :=
  mkHost parse_headers parse_auth stringify_headers (fun _ => "{}")
    stringify_variables
    (fun n => "uuid-" +:+ pretty n)
    (fun n => "t" +:+ pretty n).

Record DB := mkDB {
  db_collections : list Collection;
  db_requests : list Request;
  db_environments : list Environment;
  db_history : list History
}.

Definition empty_db : DB := mkDB [] [] [] [].

Definition active_variables (d : DB) : list EnvironmentVariable :=
  match List.find is_active (db_environments d) with
  | Some e => parse_variables (variables e)
  | None => []
  end.

Definition has_id {A} (id_of : A -> string) (id : string) (x : A) : bool :=
  String.eqb (id_of x) id.

(** Insert or replace by id. *)
Definition upsert {A} (id_of : A -> string) (x : A) (l : list A) : list A :=
  if existsb (has_id id_of (id_of x)) l
  then map (fun y => if has_id id_of (id_of x) y then x else y) l
  else l ++ [x].

Definition deactivate (e : Environment) : Environment :=
  mkEnvironment (env_id e) (env_name e) (variables e) false (env_created_at e).

Definition canned_response (req : WireRequest) : HttpResponse :=
  mkHttpResponse 200 "OK" [] (url req) 12 (Z.of_nat (String.length (url req))) [].

(** The commands. A write is refused when it breaks a constraint of the
    tables (a duplicate collection id, a request for a collection that does
    not exist); the transport refuses an empty URL. *)
Definition backend (R : Type) (c : Cmd R) (d : DB) : DB * result R :=
  match c in Cmd R return DB * result R with
  | get_all_collections => (d, Ok (db_collections d))
  | create_collection col =>
      if existsb (has_id col_id (col_id col)) (db_collections d)
      then (d, Rejected "UNIQUE constraint failed: collections.id")
      else (mkDB (db_collections d ++ [col]) (db_requests d) (db_environments d)
              (db_history d), Ok tt)
  | delete_collection id =>
      (mkDB (List.filter (fun x => negb (has_id col_id id x)) (db_collections d))
         (List.filter (fun r => negb (String.eqb (collection_id r) id))
            (db_requests d))
         (db_environments d) (db_history d), Ok tt)
  | get_requests_by_collection cid =>
      (d, Ok (List.filter (fun r => String.eqb (collection_id r) cid)
                (db_requests d)))
  | save_request r =>
      if existsb (has_id col_id (collection_id r)) (db_collections d)
      then (mkDB (db_collections d) (upsert req_id r (db_requests d))
              (db_environments d) (db_history d), Ok tt)
      else (d, Rejected "FOREIGN KEY constraint failed")
  | get_request id => (d, Ok (List.find (has_id req_id id) (db_requests d)))
  | delete_request id =>
      (mkDB (db_collections d)
         (List.filter (fun r => negb (has_id req_id id r)) (db_requests d))
         (db_environments d) (db_history d), Ok tt)
  | interpolate_variables text => (d, Ok (interpolate text (active_variables d)))
  | send_http_request req =>
      if truthy (url req) then (d, Ok (canned_response req))
      else (d, Rejected "builder error: empty URL")
  | get_all_environments => (d, Ok (db_environments d))
  | save_environment e =>
      let others :=
        if is_active e then map deactivate (db_environments d)
        else db_environments d in
      (mkDB (db_collections d) (db_requests d) (upsert env_id e others)
         (db_history d), Ok tt)
  | delete_environment id =>
      (mkDB (db_collections d) (db_requests d)
         (List.filter (fun e => negb (has_id env_id id e)) (db_environments d))
         (db_history d), Ok tt)
  | get_history limit =>
      (d, Ok (take (Z.to_nat limit) (rev (db_history d))))
  | add_history h =>
      (mkDB (db_collections d) (db_requests d) (db_environments d)
         (db_history d ++ [h]), Ok tt)
  | clear_history =>
      (mkDB (db_collections d) (db_requests d) (db_environments d) [], Ok tt)
  end.

Definition world (s : Store) (d : DB) : World :=
  mkWorld s d [] O [].

End Reference.


(** ** Presentation helpers of the components *)

(** [s.includes(pat)]. *)
Fixpoint includes (pat s : string) : bool :=
  (String.prefix pat s
   || match s with
      | EmptyString => false
      | String _ r => includes pat r
      end)%bool.

(** The white space and line terminators that [trim] strips, as the bytes of
    their UTF-8 encodings: tab, line feed, vertical tab, form feed, carriage
    return, space, U+00A0, U+1680, U+2000 to U+200A, U+2028, U+2029, U+202F,
    U+205F, U+3000 and U+FEFF. *)
Definition white_space : list string :=
  map (fun bytes => string_of_list_ascii (map ascii_of_nat bytes))
    ([[9]; [10]; [11]; [12]; [13]; [32]; [194; 160]; [225; 154; 128]]
     ++ map (fun b => [226; 128; b]) (seq 128 11)
     ++ [[226; 128; 168]; [226; 128; 169]; [226; 128; 175]; [226; 129; 159];
         [227; 128; 128]; [239; 187; 191]])%nat.

Fixpoint drop_chars (n : nat) (s : string) : string :=
  match n, s with
  | S n', String _ r => drop_chars n' r
  | _, _ => s
  end.

(** [s] without the first of [pats] that it starts with. *)
Fixpoint strip_one (pats : list string) (s : string) : option string :=
  match pats with
  | [] => None
  | p :: pats' =>
      if String.prefix p s then Some (drop_chars (String.length p) s)
      else strip_one pats' s
  end.

Fixpoint strip_all (pats : list string) (fuel : nat) (s : string) : string :=
  match fuel with
  | O => s
  | S fuel' =>
      match strip_one pats s with
      | Some r => strip_all pats fuel' r
      | None => s
      end
  end.

Definition trimStart (s : string) : string :=
  strip_all white_space (String.length s) s.

Definition trimEnd (s : string) : string :=
  String.rev
    (strip_all (map String.rev white_space) (String.length s) (String.rev s)).

(** [s.trim()]. *)
Definition trim (s : string) : string := trimEnd (trimStart s).

(** The longest prefix without a closing brace, and what follows it: the
    run that [[^}]+] takes. *)
Fixpoint span_name (s : string) : string * string :=
  match s with
  | EmptyString => (EmptyString, EmptyString)
  | String c r =>
      if Ascii.eqb c "}"%char then (EmptyString, s)
      else let '(name, rest) := span_name r in (String c name, rest)
  end.

(** A match of [\{\{([^}]+)\}\}] anchored at the start of [s]: the captured
    group. The run cannot give characters back (what follows it must be a
    closing brace), so the longest run decides. *)
Definition token_here (s : string) : option string :=
  match s with
  | String "{" (String "{" r) =>
      let '(name, rest) := span_name r in
      if (negb (String.eqb name "") && String.prefix "}}" rest)%bool
      then Some name else None
  | _ => None
  end.

(** [value.match(/\{\{([^}]+)\}\}/)]: group 1 of the leftmost match. *)
Fixpoint match_token (s : string) : option string :=
  match token_here s with
  | Some name => Some name
  | None =>
      match s with
      | EmptyString => None
      | String _ r => match_token r
      end
  end.

(** [hasVariables(value)] of the request builder. *)
Definition hasVariables (value : string) : bool :=
  (includes "{{" value && includes "}}" value)%bool.

(** [getVariableValue(value)] of the request builder. [JSON_parse_variables]
    is [JSON.parse] on a serialised variable list: [None] when it throws (or
    does not yield an array), which the function catches. *)
Definition getVariableValue
    (JSON_parse_variables : string -> option (list EnvironmentVariable))
    (s : Store) (value : string) : string :=
  match activeEnvironment s with
  | None => ""
  | Some env =>
      if hasVariables value then
        match JSON_parse_variables (or_else (variables env) "[]") with
        | None => ""
        | Some vars =>
            match match_token value with
            | Some name =>
                match List.find (fun v => String.eqb (var_key v) (trim name)) vars with
                | Some v => var_value v
                | None => ""
                end
            | None => ""
            end
        end
      else ""
  end.

(** [environmentVariables] of the environment drawer. *)
Definition environmentVariables
    (JSON_parse_variables : string -> option (list EnvironmentVariable))
    (s : Store) : list EnvironmentVariable :=
  match activeEnvironment s with
  | None => []
  | Some env => default [] (JSON_parse_variables (or_else (variables env) "[]"))
  end.

(** The severity of a status badge: [statusSeverity] of the response viewer
    ([secondary] without a response) and [getStatusSeverity] of the history
    panel. *)
Definition getStatusSeverity (status : Z) : string :=
  if ((status >=? 200) && (status <? 300))%bool then "success"
  else if ((status >=? 300) && (status <? 400))%bool then "warning"
  else "danger".

Definition statusSeverity (s : Store) : string :=
  match currentResponse s with
  | None => "secondary"
  | Some response =>
      let status := status response in
      if ((status >=? 200) && (status <? 300))%bool then "success"
      else if ((status >=? 300) && (status <? 400))%bool then "warning"
      else "danger"
  end.
(** ** Predicates of the specification *)

(** *** Tabs *)

(** The tab the sole-tab branch of [closeTab] leaves behind. *)
Definition blankTab (t : RequestTab) : RequestTab :=
  mkRequestTab (tab_id t) "New Request" defaultRequest None None
    (tab_isLoading t) false.

(** The data-model invariant of the tab list: the active index designates
    one of the open tabs (so there is at least one). *)
Definition tabs_ok (s : Store) : Prop :=
  0 <= activeTabIndex s < Z.of_nat (length (openTabs s)).


(** The dirty flag of the active tab ([false] without one). *)
Definition currentIsDirty (s : Store) : bool :=
  match activeTab s with Some t => tab_isDirty t | None => false end.

(** *** Command strings *)

(** Number of positions of [s] at which [pat] occurs. *)
Fixpoint occurrences (pat s : string) : nat :=
  ((if String.prefix pat s then 1 else 0)
   + match s with
     | EmptyString => 0
     | String _ r => occurrences pat r
     end)%nat.

(** *** The tree builder *)

(** The folder loop of [buildTree], over any function [sub] standing for the recursive call. *)
Definition folder_loop (reqs : gmap string (list Request))
    (sub : option string -> option (list TreeNode))
    (acc : option (list TreeNode)) (l : list Collection)
  : option (list TreeNode) :=
  foldl (fun acc fld =>
           match acc with
           | None => None
           | Some items =>
               match sub (Some (col_id fld)) with
               | None => None
               | Some children =>
                   let children :=
                     push_each requestNode (requestsOf reqs (col_id fld)) children in
                   Some (items ++ [folderNode fld children])
               end
           end) acc l.

(** *** The write-then-reload protocol *)

Section Protocol.

Context {DB : Type}.
Variable backend : forall R, Cmd R -> DB -> DB * result R.
Variable host : Host.

(** The world right after the write call [wcmd] has resolved, [n] readings
    of the platform counter after [w]: nothing of the store has changed. *)
Definition written (w : @World DB) (n : nat) (wcmd : Cmd unit) (d1 : DB)
  : @World DB :=
  mkWorld (store w) d1 (trace w ++ [call wcmd]) (n + ticks w) (console w).

(** [op] follows the protocol from [w]: it issues [wcmd] first; if the call
    resolves, it runs [reload] and then [post] on the store; if the call
    rejects, it issues nothing more, logs, and leaves the store as it was. *)
Definition write_then_reload (op : @M DB unit) (n : nat) (wcmd : Cmd unit)
    (reload : @M DB unit) (post : Store -> Store) (w : @World DB) : Prop :=
  match backend unit wcmd (db w) with
  | (d1, Ok _) =>
      op w = (on_store post (fst (reload (written w n wcmd d1))), Ok tt)
  | (d1, Rejected _) =>
      exists msg,
        op w = (mkWorld (store w) d1 (trace w ++ [call wcmd]) (n + ticks w)
                  (console w ++ [msg]), Ok tt)
  end.

(** The entity [saveCurrentRequest] persists from [w]. *)
Definition saved_id (w : @World DB) : string :=
  match selectedRequestId (store w) with
  | Some id => id
  | None => randomUUID_at host (S (ticks w))
  end.

Definition saved_request (name collectionId : string) (w : @World DB) : Request :=
  let cur := currentRequest (store w) in
  let stamp := toISOString_at host (ticks w) in
  mkRequest (saved_id w) collectionId name (method cur) (url cur)
    (JSON_stringify_headers host (currentHeaders (store w))) (body cur)
    (body_type cur) (auth_type cur) (JSON_stringify_auth host (auth_data cur))
    stamp stamp.

Definition save_ticks (w : @World DB) : nat :=
  match selectedRequestId (store w) with Some _ => 1%nat | None => 2%nat end.

(** What [saveCurrentRequest] and [deleteRequest] do to the tabs after the
    reload. *)
Definition bind_saved (name id : string) (s : Store) : Store :=
  update_activeTab (fun t => set_isDirty false (set_name name t))
    (set_selectedRequestId (Some id) s).

Definition unbind_deleted (id : string) (s : Store) : Store :=
  if opt_eqb (selectedRequestId s) (Some id)
  then resetCurrentRequest (set_selectedRequestId None s) else s.

(** A reload issues one list call and overwrites the mirror with the reply;
    if the call rejects the store stays as it was. Neither throws. *)
Definition reloads {A} (reload : @M DB unit) (list_call : Cmd A)
    (mirror : A -> Store -> Store -> Prop) (w : @World DB) : Prop :=
  snd (reload w) = Ok tt /\
  match backend A list_call (db w) with
  | (_, Ok reply) =>
      mirror reply (store w) (store (fst (reload w))) /\
      exists rest, trace (fst (reload w)) = trace w ++ call list_call :: rest
  | (_, Rejected _) =>
      store (fst (reload w)) = store w /\
      trace (fst (reload w)) = trace w ++ [call list_call]
  end.

End Protocol.

(** *** The send path *)

Definition is_interpolate (c : Call) : bool :=
  match projT2 c with interpolate_variables _ => true | _ => false end.

(** The requests handed to the HTTP collaborator in a trace, in order. *)
Definition dispatched (t : list Call) : list WireRequest :=
  flat_map (fun c => match projT2 c with send_http_request r => [r] | _ => [] end) t.

(** The history entries handed to the history collaborator in a trace. *)
Definition appended (t : list Call) : list History :=
  flat_map (fun c => match projT2 c with add_history h => [h] | _ => [] end) t.

Section SendPhases.

Context {DB : Type}.
Variable backend : forall R, Cmd R -> DB -> DB * result R.
Variable host : Host.

(** The first half of [sendRequest], up to the outbound copy. *)
Definition send_prepare : @M DB WireRequest :=
  modify (set_isLoadingCurrent true);;
  modify (set_currentResponse None);;
  url0 ← gets (fun s => url (currentRequest s));
  env ← gets activeEnvironment;
  url1 ← match env with
         | Some _ => invoke backend (interpolate_variables url0)
         | None => mret url0
         end;
  hdrs ← gets (fun s => headers (currentRequest s));
  for_each (interpolate_header backend) hdrs;;
  body0 ← gets (fun s => body (currentRequest s));
  env ← gets activeEnvironment;
  body1 ← match env with
          | Some _ =>
              if truthy body0 then invoke backend (interpolate_variables body0)
              else mret body0
          | None => mret body0
          end;
  cur ← gets currentRequest;
  h ← gets heap;
  mret (mkHttpRequest (method cur) url1 (deref h hdrs) body1 (body_type cur)
          (auth_type cur) (auth_data cur) (form_data cur)).

(** The second half: dispatch, response, history. *)
Definition send_dispatch (requestToSend : WireRequest) : @M DB unit :=
  response ← invoke backend (send_http_request requestToSend);
  modify (set_currentResponse (Some response));;
  id ← randomUUID host;
  m ← gets (fun s => method (currentRequest s));
  u ← gets (fun s => url (currentRequest s));
  created_at ← now host;
  addHistory backend
    (mkHistory id m u (status response) (response_time response) created_at).

(** The outbound copy when every header is interpolated by [f]. *)
Definition outbound (f : string -> string) (s : Store) : WireRequest :=
  let cur := currentRequest s in
  mkHttpRequest (method cur) (f (url cur))
    (map (fun kv => with_value (f (kv_value kv)) kv) (currentHeaders s))
    (if truthy (body cur) then f (body cur) else body cur)
    (body_type cur) (auth_type cur) (auth_data cur) (form_data cur).

(** At backend state [d] the interpolation command answers [f] and leaves
    the state as it is. *)
Definition interpolates_as (f : string -> string) (d : DB) : Prop :=
  forall text, backend _ (interpolate_variables text) d = (d, Ok (f text)).

(** The header objects of the active draft are distinct objects of the heap. *)
Definition headers_ok (s : Store) : Prop :=
  NoDup (headers (currentRequest s)) /\
  forall l, In l (headers (currentRequest s)) -> is_Some (heap s !! l).

(** The texts that a send hands to the interpolation command, in order: the
    URL of the draft, the value of each of its headers, then its body when
    it is not empty; none without an active environment. *)
Definition interpolation_texts (s : Store) : list string :=
  match activeEnvironment s with
  | Some _ =>
      let cur := currentRequest s in
      [url cur] ++ map kv_value (currentHeaders s)
      ++ (if truthy (body cur) then [body cur] else [])
  | None => []
  end.

Definition interpolation_call (text : string) : Call :=
  call (interpolate_variables text).

(** [reply] is an answer of the backend to the interpolation of [text]. *)
Definition answers (text reply : string) : Prop :=
  exists d d', backend _ (interpolate_variables text) d = (d', Ok reply).

(** [wire] is an outbound copy of the draft of [s]: the draft, where with an
    active environment the URL, the value of every header and the body (if
    not empty) are replaced by an answer of the backend to their
    interpolation. *)
Definition outbound_of (s : Store) (wire : WireRequest) : Prop :=
  let cur := currentRequest s in
  method wire = method cur /\ body_type wire = body_type cur /\
  auth_type wire = auth_type cur /\ auth_data wire = auth_data cur /\
  form_data wire = form_data cur /\
  match activeEnvironment s with
  | Some _ =>
      answers (url cur) (url wire) /\
      Forall2 (fun kv kv' => kv' = with_value (kv_value kv') kv /\
                             answers (kv_value kv) (kv_value kv'))
        (currentHeaders s) (headers wire) /\
      (if truthy (body cur) then answers (body cur) (body wire)
       else body wire = body cur)
  | None =>
      url wire = url cur /\ headers wire = currentHeaders s /\
      body wire = body cur
  end.

End SendPhases.

(** The active draft as it is stored, serialised. *)
Definition stored_copy (s : Store) : WireRequest :=
  let cur := currentRequest s in
  mkHttpRequest (method cur) (url cur) (currentHeaders s) (body cur)
    (body_type cur) (auth_type cur) (auth_data cur) (form_data cur).

(** A header after its value went through [f]. *)
Definition interpolated (f : string -> string) (kv : KeyValue) : KeyValue :=
  with_value (f (kv_value kv)) kv.

(** *** Opening a request *)



(** The condition under which [loadRequest] opens a new tab for a request
    that is not open yet. *)
Definition opens_new_tab (openInNewTab : bool) (s : Store) : bool :=
  (openInNewTab
   || match activeTab s with
      | Some t => truthy_opt (tab_requestId t) || tab_isDirty t
      | None => false
      end)%bool.

(** ** Scenarios on the reference backend *)

Module Scenario.

Import Reference.

Definition dev : Environment :=
  mkEnvironment "e1" "dev" "host=api.test;token=abc" true "t0".

Definition auth_folder : Collection := mkCollection "f1" "Auth" None true "t0".

Definition login : Request :=
  mkRequest "r1" "f1" "Login" "GET" "https://{{host}}/login" "[]" "" "none" "none"
    "{}" "t1" "t1".

(** The backend holding the folder, the saved request and the environment. *)
Definition seeded : DB := mkDB [auth_folder] [login] [dev] [].

(** A store with one tab holding [draft], whose header objects are [hp], and
    [dev] as the active environment. *)
Definition with_draft (draft : HttpRequest) (hp : list KeyValue) : Store :=
  mkStore [auth_folder] (<["f1" := [login]]> ∅) [dev] (Some dev) []
    [mkRequestTab "tab-0" "Login" draft None (Some "r1") false false] 0 hp.

(** The saved request, open in the only tab. *)
Definition login_open : Store :=
  with_draft
    (mkHttpRequest "GET" "https://{{host}}/login" [] "" "none" "none" empty_auth
       (Some []))
    [].

(** A draft with a disabled header and a body, its body_type being [none]. *)
Definition disabled_header_draft : Store :=
  with_draft
    (mkHttpRequest "GET" "https://{{host}}/login" [O] "{{host}}" "none" "none"
       empty_auth (Some []))
    [mkKeyValue "X-Debug" "{{host}}" false].

(** A draft with one enabled header that holds a token. *)
Definition bearer_draft : Store :=
  with_draft
    (mkHttpRequest "GET" "https://{{host}}/login" [O] "" "none" "none"
       empty_auth (Some []))
    [mkKeyValue "Authorization" "Bearer {{token}}" true].

(** What [dev] resolves. *)
Definition resolve (text : string) : string :=
  interpolate text (parse_variables (variables dev)).

End Scenario.

(** ** Predicates of the further properties *)

(** The active tab after the request it is bound to has been deleted: the
    default draft, no response, no binding; the name and the loading flag
    stay, and the setter has marked it dirty. *)
Definition deletedTab (t : RequestTab) : RequestTab :=
  mkRequestTab (tab_id t) (tab_name t) defaultRequest None None
    (tab_isLoading t) true.

(** The active tab after its draft has been saved as [id] under [name]. *)
Definition savedTab (name id : string) (t : RequestTab) : RequestTab :=
  mkRequestTab (tab_id t) name (tab_request t) (tab_response t) (Some id)
    (tab_isLoading t) false.

(** The heap [h'] is the heap [h] after values of header objects at
    addresses of [ls] were rewritten: the same objects, every key and
    enabled flag as before, and the objects at other addresses untouched. *)
Definition values_rewritten (ls : list nat) (h h' : list KeyValue) : Prop :=
  length h' = length h /\
  (forall l, ~ In l ls -> h' !! l = h !! l) /\
  (forall l kv, h !! l = Some kv -> exists v, h' !! l = Some (with_value v kv)).

(** The active environment is the first environment of the mirror that is
    marked active (none when no environment is). *)
Definition env_consistent (s : Store) : Prop :=
  activeEnvironment s = List.find is_active (environments s).

(** How a POSIX shell reads a word made of single-quoted segments and
    backslash escapes: inside quotes every character is literal up to the
    closing quote; outside, a quote opens a segment and a backslash makes the
    next character literal. Other characters outside quotes are taken as
    they are (expansion and word splitting are not modelled). [None]: a
    quote or an escape is left open. *)
Inductive sh_mode : Type := Unquoted | Escaped | Quoted.

Fixpoint sh_word (m : sh_mode) (s : string) : option string :=
  match s with
  | EmptyString => match m with Unquoted => Some EmptyString | _ => None end
  | String c r =>
      match m with
      | Quoted =>
          if Ascii.eqb c squote then sh_word Unquoted r
          else String c <$> sh_word Quoted r
      | Escaped => String c <$> sh_word Unquoted r
      | Unquoted =>
          if Ascii.eqb c squote then sh_word Quoted r
          else if Ascii.eqb c "\"%char then sh_word Escaped r
          else String c <$> sh_word Unquoted r
      end
  end.

(** The number of single quotes of a string. *)
Fixpoint quotes (s : string) : nat :=
  match s with
  | EmptyString => O
  | String c r => ((if Ascii.eqb c squote then 1 else 0) + quotes r)%nat
  end.

(** The separator between the parts of a generated command. *)
Definition curl_sep : string := " \" +:+ newline +:+ "  ".

(** ** Further scenarios on the reference backend *)

Module Cases.

Import Reference Scenario.

(** A saved request whose serialised headers do not parse. *)
Definition broken : Request :=
  mkRequest "r2" "f1" "Broken" "GET" "https://api.test/x" "garbage" "" "none"
    "none" "{}" "t1" "t1".

Definition seeded_broken : DB := mkDB [auth_folder] [login; broken] [dev] [].

(** A fresh store whose draft has a URL; no environment is active. *)
Definition plain_draft : Store :=
  editUrl "https://api.test/ping" (initialStore "tab-0").

(** A draft with two header rows. *)
Definition accept : KeyValue := mkKeyValue "Accept" "*/*" true.
Definition trace_off : KeyValue := mkKeyValue "X-Trace" "1" false.

Definition two_headers : Store :=
  with_draft
    (mkHttpRequest "GET" "https://api.test" [O; 1%nat] "" "none" "none"
       empty_auth (Some []))
    [accept; trace_off].

(** A draft whose body holds a single quote. *)
Definition quoted_body : HttpRequest :=
  mkHttpRequest "POST" "https://api.test" [] "it's" "text" "none" empty_auth
    (Some []).

(** A store whose request mirror holds an entry for a collection that the
    backend does not list any more. *)
Definition stale_entry : Store :=
  set_requests (<["gone" := [login]]> ∅) (initialStore "tab-0").

(** The variable codec of the reference backend, which reads every text. *)
Definition parse_vars (text : string) : option (list EnvironmentVariable) :=
  Some (parse_variables text).

End Cases.
(** * Properties *)

(** ** Tab management *)

Section Tabs.

Lemma length_update_at {A} (f : A -> A) (i : Z) (l : list A) :
  length (update_at f i l) = length l.
Proof.
  unfold update_at. destruct (i <? 0); [reflexivity | apply length_alter].
Qed.

Lemma length_delete_bounds {A} (n : nat) (l : list A) :
  (length l - 1 <= length (delete n l) <= length l)%nat.
Proof.
  revert n. induction l as [|x l IH]; intros [|n]; simpl; try lia.
  specialize (IH n). lia.
Qed.

Lemma length_splice1 {A} (index : Z) (l : list A) :
  (length l - 1 <= length (splice1 index l) <= length l)%nat.
Proof. unfold splice1. apply length_delete_bounds. Qed.

Lemma openTabs_resetCurrentRequest (s : Store) :
  length (openTabs (resetCurrentRequest s)) = length (openTabs s).
Proof.
  unfold resetCurrentRequest, set_selectedRequestId, set_currentResponse,
    set_currentRequest, update_activeTab. simpl.
  now rewrite !length_update_at.
Qed.

(** C1. [closeTab] never leaves the tab list empty, whatever the index; and
    when exactly one tab is open (the active one, as the data model has it)
    the tab is kept and becomes blank: default draft (GET, empty url, headers
    and body, body_type none, auth_type none), no response, no bound request,
    the default name, not dirty. Nothing else of the store changes. *)
Theorem closeTab_keeps_a_tab (index : Z) (s : Store) :
  tabs_ok s ->
  (1 <= length (openTabs (closeTab index s)))%nat /\
  (forall t, openTabs s = [t] ->
     closeTab index s = set_openTabs [blankTab t] s /\
     currentRequest (closeTab index s) = defaultRequest /\
     method defaultRequest = "GET" /\ url defaultRequest = "" /\
     headers defaultRequest = [] /\ body defaultRequest = "" /\
     body_type defaultRequest = "none" /\ auth_type defaultRequest = "none").
Proof.
  intros Hok. split.
  - unfold closeTab. destruct (length (openTabs s) =? 1)%nat eqn:Hlen.
    + cbn [openTabs set_openTabs].
      rewrite !length_update_at, openTabs_resetCurrentRequest.
      apply Nat.eqb_eq in Hlen. lia.
    + apply Nat.eqb_neq in Hlen.
      assert (2 <= length (openTabs s))%nat as Hge by (unfold tabs_ok in Hok; lia).
      pose proof (length_splice1 index (openTabs s)) as Hsp.
      repeat match goal with |- context [if ?b then _ else _] => destruct b end;
        simpl; lia.
  - intros t Ht. unfold tabs_ok in Hok. rewrite Ht in Hok. simpl in Hok.
    assert (activeTabIndex s = 0) as Hact by lia.
    destruct s as [cs rs es ae hist tabs act hp]. simpl in *. subst tabs act.
    repeat split.
Qed.

(** The invariant holds initially and is kept by closing any displayed tab. *)
Lemma tabs_ok_initial (id : string) : tabs_ok (initialStore id).
Proof. unfold tabs_ok. simpl. lia. Qed.

Lemma tabs_ok_closeTab (index : Z) (s : Store) :
  0 <= index -> tabs_ok s -> tabs_ok (closeTab index s).
Proof.
  unfold tabs_ok, closeTab. intros Hidx Hok.
  destruct (length (openTabs s) =? 1)%nat eqn:Hlen.
  - cbn [openTabs set_openTabs activeTabIndex].
    rewrite !length_update_at, openTabs_resetCurrentRequest.
    unfold resetCurrentRequest. simpl. exact Hok.
  - apply Nat.eqb_neq in Hlen.
    pose proof (length_splice1 index (openTabs s)) as Hsp.
    simpl.
    destruct (activeTabIndex s >=? _) eqn:E1; simpl.
    + lia.
    + destruct (activeTabIndex s >? index) eqn:E2; simpl; lia.
Qed.

(** With a negative index ([splice] then counts from the end) the active
    index can leave the list: the sole-tab reset of C1 relies on [tabs_ok]. *)
Example closeTab_negative_index :
  let t := mkRequestTab "a" "A" defaultRequest None None false false in
  let s := closeTab (-1) (set_openTabs [t; t] (initialStore "a")) in
  activeTabIndex s = -1 /\ length (openTabs s) = 1%nat.
Proof. split; reflexivity. Qed.

Lemma closeTab_keeps_a_tab_witness :
  let t := mkRequestTab "a" "Login"
             (mkHttpRequest "POST" "https://x" [] "{}" "json" "none" empty_auth None)
             None (Some "r1") false true in
  let s := set_openTabs [t] (initialStore "a") in
  tabs_ok s /\
  (1 <= length (openTabs (closeTab 0 s)))%nat /\
  closeTab 0 s = set_openTabs [blankTab t] s.
Proof.
  intros t s.
  assert (tabs_ok s) as Hok by (unfold tabs_ok; simpl; lia).
  destruct (closeTab_keeps_a_tab 0 s Hok) as [Hlen Hsole].
  split; [exact Hok | split; [exact Hlen |]].
  exact (proj1 (Hsole t eq_refl)).
Defined.

End Tabs.

(** ** Draft edits and the dirty flag *)

Section Dirty.

Lemma isDirty_edit_request (f : HttpRequest -> HttpRequest) (s : Store) :
  map tab_isDirty (openTabs (edit_request f s)) = map tab_isDirty (openTabs s).
Proof.
  unfold edit_request, update_activeTab, update_at. simpl.
  destruct (activeTabIndex s <? 0); [reflexivity |].
  generalize (Z.to_nat (activeTabIndex s)). intros n. revert n.
  induction (openTabs s) as [|t l IH]; intros [|n]; simpl; try reflexivity.
  now rewrite <- (IH n).
Qed.

(** No edit of the request builder touches a dirty flag: the writes go to
    the draft object (or to a header object), not through the setter. *)
Lemma draft_edits_keep_isDirty (s : Store) (v : string) (kv : KeyValue)
    (i : nat) (index : Z) :
  map tab_isDirty (openTabs (editMethod v s)) = map tab_isDirty (openTabs s) /\
  map tab_isDirty (openTabs (editUrl v s)) = map tab_isDirty (openTabs s) /\
  map tab_isDirty (openTabs (editBody v s)) = map tab_isDirty (openTabs s) /\
  map tab_isDirty (openTabs (addHeader kv s)) = map tab_isDirty (openTabs s) /\
  map tab_isDirty (openTabs (removeHeader index s)) = map tab_isDirty (openTabs s) /\
  map tab_isDirty (openTabs (editHeaderValue i v s)) = map tab_isDirty (openTabs s).
Proof.
  repeat split; try apply isDirty_edit_request.
  - unfold addHeader. destruct (truthy (kv_key kv)); [|reflexivity].
    now rewrite isDirty_edit_request.
  - unfold editHeaderValue.
    now destruct (headers (currentRequest s) !! i).
Qed.

(** The computed setter, which replaces the whole draft, is the one path
    that marks the active tab dirty. *)
Lemma set_currentRequest_marks_dirty (v : HttpRequest) (s : Store) :
  tabs_ok s ->
  currentIsDirty (set_currentRequest v s) = true /\
  currentRequest (set_currentRequest v s) = v.
Proof.
  intros [H0 Hlt].
  unfold currentIsDirty, currentRequest, activeTab, set_currentRequest,
    update_activeTab, update_at, at_index. simpl.
  destruct (activeTabIndex s <? 0) eqn:E; [lia |].
  rewrite list_lookup_alter_eq.
  destruct (openTabs s !! Z.to_nat (activeTabIndex s)) eqn:El; simpl; [easy |].
  apply lookup_ge_None in El. lia.
Qed.

(** C5, at the failing input: on the fresh store, adding a header (and then
    editing the method, the URL and the body) changes the draft of the active
    tab while its dirty flag stays [false]. *)
Theorem edits_leave_tab_clean :
  let s0 := initialStore "tab-0" in
  let s1 := addHeader (mkKeyValue "X-Trace" "1" true) s0 in
  let s2 := editBody "{}" (editUrl "https://api.test" (editMethod "POST" s1)) in
  currentIsDirty s0 = false /\
  currentHeaders s0 = [] /\
  currentHeaders s1 = [mkKeyValue "X-Trace" "1" true] /\
  currentIsDirty s1 = false /\
  method (currentRequest s2) = "POST" /\
  url (currentRequest s2) = "https://api.test" /\
  body (currentRequest s2) = "{}" /\
  currentIsDirty s2 = false.
Proof. repeat split. Qed.

End Dirty.

(** ** cURL generator *)

Section Curl.

Ltac walk H k :=
  destruct k as [|? k]; cbn in H;
  [ first [discriminate H | reflexivity]
  | first [discriminate H | (injection H as -> H; walk H k)] ].

(** A header flag equal to the injected one is a [Content-Type] header. *)
Lemma header_flag_key (k v : string) :
  "-H '" +:+ k +:+ ": " +:+ v +:+ "'" = content_type_flag -> k = "Content-Type".
Proof.
  unfold content_type_flag. intros H. cbn in H.
  injection H as H. walk H k.
Qed.

Lemma flag_not_in_headers (hs : list KeyValue) :
  hasContentType (enabledHeaders hs) = false ->
  ~ In content_type_flag (curl_headers hs).
Proof.
  intros Hno Hin. unfold curl_headers in Hin.
  apply in_map_iff in Hin as (h & Hh & Hin).
  apply header_flag_key in Hh.
  assert (hasContentType (enabledHeaders hs) = true) as Hyes.
  { unfold hasContentType. apply existsb_exists. exists h. split; [exact Hin |].
    rewrite Hh. reflexivity. }
  congruence.
Qed.

Lemma flag_not_in_method (r : HttpRequest) : ~ In content_type_flag (curl_method r).
Proof.
  unfold curl_method. destruct (String.eqb (method r) "GET"); simpl; [tauto |].
  intros [H | []]. discriminate H.
Qed.

(** C8 (amended). From a draft with body_type [json], a non-empty body and no
    enabled header named content-type (in any letter case), and whose API-key
    flag is not itself that header, [generateCurl] pushes the flag
    [-H 'Content-Type: application/json'] exactly once among its parts. With
    an enabled content-type header the body block injects nothing; with an
    empty body there is no body block at all, so nothing is injected. *)
Theorem curl_content_type_flag (s : Store) :
  let r := currentRequest s in
  let hs := currentHeaders s in
  (body_type r = "json" -> truthy (body r) = true ->
   hasContentType (enabledHeaders hs) = false ->
   ~ In content_type_flag (curl_auth r) ->
   count_occ string_dec (generateCurl_parts s) content_type_flag = 1%nat) /\
  (hasContentType (enabledHeaders hs) = true ->
   ~ In content_type_flag (curl_body r hs)) /\
  (body r = "" -> curl_body r hs = []).
Proof.
  intros r hs. repeat split.
  - intros Hjson Hbody Hno Hauth.
    unfold generateCurl_parts. fold r hs.
    rewrite !count_occ_app.
    rewrite (proj1 (count_occ_not_In string_dec _ _) (flag_not_in_method r)).
    rewrite (proj1 (count_occ_not_In string_dec _ _) (flag_not_in_headers hs Hno)).
    rewrite (proj1 (count_occ_not_In string_dec _ _) Hauth).
    unfold curl_body. rewrite Hbody, Hno, Hjson. reflexivity.
  - intros Hyes. unfold curl_body. rewrite Hyes.
    destruct (truthy (body r) && negb (String.eqb (body_type r) "none"))%bool;
      simpl; [|tauto].
    intros [H | []]. discriminate H.
  - intros Hempty. unfold curl_body. rewrite Hempty. reflexivity.
Qed.

Lemma curl_content_type_flag_witness :
  let draft := mkHttpRequest "POST" "https://api.test/login" [O] "{'a':1}" "json"
                 "none" empty_auth (Some []) in
  let s := mkStore [] ∅ [] None []
             [mkRequestTab "t" "Login" draft None None false false] 0
             [mkKeyValue "Accept" "*/*" true] in
  count_occ string_dec (generateCurl_parts s) content_type_flag = 1%nat /\
  generateCurl_parts s =
    ["curl"; "-X POST"; "-H 'Accept: */*'"; "-d '{'\''a'\'':1}'";
     "-H 'Content-Type: application/json'"; "'https://api.test/login'"].
Proof.
  intros draft s. split; [|reflexivity].
  apply (proj1 (curl_content_type_flag s)); try reflexivity.
  simpl. tauto.
Defined.

(** C8 as stated fails on an empty body: the draft has body_type [json] and
    no header at all, and the command has no content-type flag. *)
Lemma curl_json_empty_body_no_flag :
  let draft := mkHttpRequest "POST" "https://api.test/login" [] "" "json"
                 "none" empty_auth (Some []) in
  let s := mkStore [] ∅ [] None []
             [mkRequestTab "t" "Login" draft None None false false] 0 [] in
  body_type (currentRequest s) = "json" /\
  currentHeaders s = [] /\
  generateCurl s = "curl \" +:+ newline +:+ "  -X POST \" +:+ newline
                   +:+ "  'https://api.test/login'" /\
  occurrences content_type_flag (generateCurl s) = 0%nat /\
  count_occ string_dec (generateCurl_parts s) content_type_flag <> 1%nat.
Proof. repeat split. vm_compute. discriminate. Qed.

(** Nor is the flag unique when the API-key header is the content type. *)
Example curl_apikey_content_type_twice :
  let draft := mkHttpRequest "POST" "https://api.test" [] "{}" "json" "apikey"
                 (mkAuthData None None None (Some "Content-Type")
                    (Some "application/json")) (Some []) in
  let s := mkStore [] ∅ [] None []
             [mkRequestTab "t" "T" draft None None false false] 0 [] in
  count_occ string_dec (generateCurl_parts s) content_type_flag = 2%nat.
Proof. reflexivity. Qed.

End Curl.

(** ** Collection tree *)

Section Tree.

Variable cols : list Collection.
Variable reqs : gmap string (list Request).

Lemma push_each_app {A B} (f : A -> B) (l : list A) (target : list B) :
  push_each f l target = target ++ map f l.
Proof.
  unfold push_each. revert target.
  induction l as [|x l IH]; intros target; simpl.
  - now rewrite app_nil_r.
  - rewrite IH. now rewrite <- app_assoc.
Qed.

Lemma push_requests_flat (l : list Collection) (items : list TreeNode) :
  foldl (fun items c => push_each requestNode (requestsOf reqs (col_id c)) items)
    items l
  = items ++ flat_map (fun c => map requestNode (requestsOf reqs (col_id c))) l.
Proof.
  revert items. induction l as [|c l IH]; intros items; simpl.
  - now rewrite app_nil_r.
  - rewrite IH, push_each_app. now rewrite <- app_assoc.
Qed.

Lemma leaves_are_leaves (rs : list Request) :
  forallb containers_are_folders (map requestNode rs) = true.
Proof. induction rs as [|r rs IH]; simpl; [reflexivity | exact IH]. Qed.

Lemma leaves_of_collections (l : list Collection) :
  forallb containers_are_folders
    (flat_map (fun c => map requestNode (requestsOf reqs (col_id c))) l) = true.
Proof.
  induction l as [|c l IH]; simpl; [reflexivity |].
  now rewrite forallb_app, leaves_are_leaves.
Qed.

Lemma requestNode_leaves (rs : list Request) :
  Forall2 is_request_leaf rs (map requestNode rs).
Proof.
  induction rs as [|r rs IH]; [constructor |].
  cbn [map]. constructor; [|exact IH]. repeat split.
Qed.

Lemma requestNode_leaves_of_collections (l : list Collection) :
  Forall2 is_request_leaf
    (flat_map (fun c => requestsOf reqs (col_id c)) l)
    (flat_map (fun c => map requestNode (requestsOf reqs (col_id c))) l).
Proof.
  induction l as [|c l IH]; [constructor |].
  cbn [flat_map]. apply Forall2_app; [apply requestNode_leaves | exact IH].
Qed.

Lemma folder_loop_None sub l : folder_loop reqs sub None l = None.
Proof. induction l as [|c l IH]; simpl; [reflexivity | exact IH]. Qed.

Lemma folder_loop_Some sub l :
  (forall p t, sub p = Some t ->
     TreeAt cols reqs p t /\ forallb containers_are_folders t = true) ->
  Forall (fun c => is_folder c = true) l ->
  forall acc items, folder_loop reqs sub (Some acc) l = Some items ->
  exists nodes, items = acc ++ nodes /\ FoldersAt cols reqs l nodes /\
                forallb containers_are_folders nodes = true.
Proof.
  intros Hsub. induction l as [|fld l IH]; intros Hall acc items Hrun.
  - simpl in Hrun. injection Hrun as <-. exists []. rewrite app_nil_r.
    repeat split. constructor.
  - inversion Hall as [|? ? Hfld Hrest]; subst.
    unfold folder_loop in Hrun. simpl in Hrun.
    destruct (sub (Some (col_id fld))) as [children|] eqn:Hch.
    + destruct (Hsub _ _ Hch) as [Htree Hcont].
      apply (IH Hrest) in Hrun as (nodes & -> & Hnodes & Hc).
      rewrite push_each_app.
      eexists. split; [now rewrite <- app_assoc |]. split.
      * simpl.
        apply (FoldersAt_cons cols reqs fld l children
                 (map requestNode (requestsOf reqs (col_id fld))));
          [exact Htree | apply requestNode_leaves | repeat split | exact Hnodes].
      * simpl. rewrite Hfld, forallb_app, Hcont, leaves_are_leaves, Hc. reflexivity.
    + fold (folder_loop reqs sub None l) in Hrun. rewrite folder_loop_None in Hrun.
      discriminate.
Qed.

Lemma folder_loop_total sub l :
  (forall fld, In fld l -> exists t, sub (Some (col_id fld)) = Some t) ->
  forall acc, exists items, folder_loop reqs sub (Some acc) l = Some items.
Proof.
  induction l as [|fld l IH]; intros Hsub acc.
  - now exists acc.
  - destruct (Hsub fld (or_introl eq_refl)) as [t Ht].
    unfold folder_loop. simpl. rewrite Ht.
    apply IH. intros f Hf. apply Hsub. now right.
Qed.

Lemma buildTree_unfold (n : nat) (parentId : option string) :
  buildTree (S n) cols reqs parentId =
  match folder_loop reqs (buildTree n cols reqs) (Some [])
          (List.filter (fun c => is_folder c && parent_matches c parentId)%bool cols)
  with
  | None => None
  | Some items =>
      Some (foldl (fun items c =>
                     push_each requestNode (requestsOf reqs (col_id c)) items)
              items
              (List.filter
                 (fun c => negb (is_folder c) && parent_matches c parentId)%bool cols))
  end.
Proof. reflexivity. Qed.

Lemma buildTree_sound (fuel : nat) :
  forall p t, buildTree fuel cols reqs p = Some t ->
    TreeAt cols reqs p t /\ forallb containers_are_folders t = true.
Proof.
  induction fuel as [|n IH]; intros p t Hrun; [discriminate |].
  rewrite buildTree_unfold in Hrun.
  destruct (folder_loop _ _ _ _) as [items|] eqn:Hloop; [|discriminate].
  injection Hrun as <-.
  apply (folder_loop_Some _ _ IH) in Hloop as (nodes & -> & Hnodes & Hc).
  - rewrite push_requests_flat. simpl. split.
    + constructor; [exact Hnodes | apply requestNode_leaves_of_collections].
    + rewrite forallb_app, Hc. apply leaves_of_collections.
  - apply List.Forall_forall. intros c Hc. apply filter_In in Hc as [_ Hc].
    now apply andb_prop in Hc as [Hc _].
Qed.

Lemma buildTree_total (root : option string) (rank : option string -> nat) :
  ranked cols root rank ->
  forall fuel p, reachable cols root p -> (rank p < fuel)%nat ->
    exists t, buildTree fuel cols reqs p = Some t.
Proof.
  intros Hrank. induction fuel as [|n IH]; intros p Hreach Hlt; [lia |].
  rewrite buildTree_unfold.
  destruct (folder_loop_total (buildTree n cols reqs)
              (List.filter (fun c => is_folder c && parent_matches c p)%bool cols))
    with (acc := @nil TreeNode) as [items Hitems].
  - intros fld Hin. apply filter_In in Hin as [Hin Hp].
    apply andb_prop in Hp as [Hf Hm].
    apply IH; [now apply (reachable_child cols root p fld) |].
    specialize (Hrank fld p Hreach Hin Hf Hm). lia.
  - rewrite Hitems. eauto.
Qed.

(** C7. Whenever [buildTree] returns, the level it returns is: the folders
    of the level in the order of the collections list, each a folder node
    (key, label and data of the folder) whose children are its recursively
    built sub-tree followed by its own requests as leaves, then the requests
    of the level's non-folder collections as leaves (key, label and data of
    the request, no children); and no container node of the tree is a
    non-folder collection. It does return for every parent id below which
    the folders form a forest. *)
Theorem buildTree_levels :
  (forall fuel p t, buildTree fuel cols reqs p = Some t ->
     TreeAt cols reqs p t /\ forallb containers_are_folders t = true) /\
  (forall rank p, ranked cols p rank ->
     exists t, buildTree (S (rank p)) cols reqs p = Some t).
Proof.
  split.
  - intros fuel. apply buildTree_sound.
  - intros rank p Hrank.
    apply (buildTree_total p rank Hrank); [constructor | lia].
Qed.

End Tree.

Lemma parent_matches_root (c : Collection) (p : option string) :
  parent_id c = None -> parent_matches c p = true -> truthy_opt p = false.
Proof.
  unfold parent_matches. intros ->. destruct p as [s|]; simpl; [|reflexivity].
  now destruct (truthy s).
Qed.

Lemma parent_matches_child (c : Collection) (q : string) (p : option string) :
  parent_id c = Some q -> truthy q = true -> parent_matches c p = true -> p = Some q.
Proof.
  unfold parent_matches. intros -> Hq. simpl. rewrite Hq. simpl.
  rewrite orb_false_r. destruct p as [s|]; [|discriminate].
  intros H. apply String.eqb_eq in H. now subst.
Qed.

Lemma buildTree_levels_witness :
  let auth := mkCollection "f1" "Auth" None true "t0" in
  let tokens := mkCollection "f2" "Tokens" (Some "f1") true "t1" in
  let misc := mkCollection "c1" "Misc" None false "t2" in
  let login := mkRequest "r1" "f1" "Login" "GET" "/login" "[]" "" "none" "none"
                 "{}" "t3" "t3" in
  let ping := mkRequest "r2" "c1" "Ping" "GET" "/ping" "[]" "" "none" "none"
                "{}" "t4" "t4" in
  let cols := [misc; auth; tokens] in
  let reqs : gmap string (list Request) := <["f1" := [login]]> (<["c1" := [ping]]> ∅) in
  let rank := fun p : option string =>
    if truthy_opt p then (if opt_eqb p (Some "f1") then 1%nat else 0%nat)
    else 2%nat in
  let tree :=
    [mkTreeNode "f1" "Auth" (DataCollection auth) (Some "pi pi-folder")
       (Some [mkTreeNode "f2" "Tokens" (DataCollection tokens)
                (Some "pi pi-folder") (Some []) folder;
              mkTreeNode "r1" "Login" (DataRequest login) (Some "pi pi-file")
                None request])
       folder;
     mkTreeNode "r2" "Ping" (DataRequest ping) (Some "pi pi-file") None request] in
  ranked cols None rank /\
  buildTree 3 cols reqs None = Some tree /\
  TreeAt cols reqs None tree.
Proof.
  intros auth tokens misc login ping cols reqs rank tree.
  assert (ranked cols None rank) as Hrank.
  { intros c p _ Hin Hf Hm. destruct Hin as [<-|[<-|[<-|[]]]].
    - discriminate Hf.
    - apply parent_matches_root in Hm; [|reflexivity].
      unfold rank. rewrite Hm. cbn. lia.
    - apply parent_matches_child with (q := "f1") in Hm; [|reflexivity..].
      subst p. cbn. lia. }
  destruct (proj2 (buildTree_levels cols reqs) rank None Hrank) as [t Ht].
  assert (t = tree) as -> by (vm_compute in Ht; now injection Ht as <-).
  split; [exact Hrank | split; [exact Ht |]].
  exact (proj1 (proj1 (buildTree_levels cols reqs) _ _ _ Ht)).
Defined.

(** On a cyclic list (a folder that is its own parent) every amount of fuel
    runs out below that folder: the recursion of [buildTree] does not end
    there. *)
Example buildTree_cycle (fuel : nat) :
  buildTree fuel [mkCollection "f" "Loop" (Some "f") true "t"] ∅ (Some "f") = None.
Proof.
  induction fuel as [|n IH]; [reflexivity |].
  rewrite buildTree_unfold. cbn -[buildTree folder_loop].
  unfold folder_loop. cbn -[buildTree]. now rewrite IH.
Qed.

(** The recursion from the root does not get to that folder: the list is
    ranked below the root, and the tree of the store is built (it is empty). *)
Example buildTree_cycle_out_of_reach :
  let loop := mkCollection "f" "Loop" (Some "f") true "t" in
  ranked [loop] None (fun _ => O) /\
  buildTree 1 [loop] ∅ None = Some [].
Proof.
  intros loop. split; [|reflexivity].
  assert (forall p, reachable [loop] None p -> p = None) as Hroot.
  { intros p Hp. induction Hp as [|p c _ IH Hin _ Hm]; [reflexivity |].
    subst p. destruct Hin as [<- | []]. discriminate Hm. }
  intros c p Hp Hin _ Hm. apply Hroot in Hp. subst p.
  destruct Hin as [<- | []]. discriminate Hm.
Qed.

(** ** Write-then-reload *)

Section Persistence.

Context {DB : Type}.
Variable backend : forall R, Cmd R -> DB -> DB * result R.
Variable host : Host.

Ltac unfold_monad :=
  cbv beta iota zeta delta
    [try_catch try_finally mbind M_bind mret M_ret gets modify invoke
     console_error randomUUID now tick throw].

Lemma on_store_id (w : @World DB) : on_store (fun s => s) w = w.
Proof. now destruct w. Qed.

Lemma loadRequestsByCollection_run (collectionId : string) (w : @World DB) :
  exists w1,
    loadRequestsByCollection backend collectionId w = (w1, Ok tt) /\
    store w1 = set_requests (requests (store w1)) (store w) /\
    trace w1 = trace w ++ [call (get_requests_by_collection collectionId)].
Proof.
  unfold loadRequestsByCollection. unfold_monad.
  destruct (backend _ _ (db w)) as [d1 [rs|e]]; cbn; eexists; repeat split.
  destruct (store w); reflexivity.
Qed.

Lemma load_each_run (cs : list Collection) :
  forall w : @World DB, exists w1,
    for_each (fun c => loadRequestsByCollection backend (col_id c)) cs w
      = (w1, Ok tt) /\
    store w1 = set_requests (requests (store w1)) (store w) /\
    trace w1 = trace w
                 ++ map (fun c => call (get_requests_by_collection (col_id c))) cs.
Proof.
  induction cs as [|c cs IH]; intros w.
  - exists w. cbn. rewrite app_nil_r. repeat split. now destruct (store w).
  - destruct (loadRequestsByCollection_run (col_id c) w) as (w1 & Hrun & Hst & Htr).
    destruct (IH w1) as (w2 & Hrun2 & Hst2 & Htr2).
    exists w2. cbn. unfold mbind, M_bind. rewrite Hrun, Hrun2.
    repeat split.
    + rewrite Hst2, Hst. reflexivity.
    + rewrite Htr2, Htr, <- app_assoc. reflexivity.
Qed.

Lemma loadCollections_reloads (w : @World DB) :
  reloads backend (loadCollections backend) get_all_collections
    (fun cs s s' => s' = set_requests (requests s') (set_collections cs s)) w.
Proof.
  unfold reloads, loadCollections. unfold_monad.
  destruct (backend _ _ (db w)) as [d1 [cs|e]]; cbn; [|repeat split].
  match goal with
  | |- context [for_each ?f cs ?w0] =>
      destruct (load_each_run cs w0) as (w1 & -> & Hst & Htr)
  end.
  cbn in *. repeat split; [rewrite Hst; reflexivity |].
  eexists. rewrite Htr, <- app_assoc. reflexivity.
Qed.

Lemma loadRequestsByCollection_reloads (collectionId : string) (w : @World DB) :
  reloads backend (loadRequestsByCollection backend collectionId)
    (get_requests_by_collection collectionId)
    (fun rs s s' => s' = set_requests (<[collectionId := rs]> (requests s)) s) w.
Proof.
  unfold reloads, loadRequestsByCollection. unfold_monad.
  destruct (backend _ _ (db w)) as [d1 [rs|e]]; cbn; repeat split.
  now exists [].
Qed.

Lemma loadEnvironments_reloads (w : @World DB) :
  reloads backend (loadEnvironments backend) get_all_environments
    (fun es s s' =>
       s' = set_activeEnvironment (List.find is_active es) (set_environments es s)) w.
Proof.
  unfold reloads, loadEnvironments. unfold_monad.
  destruct (backend _ _ (db w)) as [d1 [rs|e]]; cbn; repeat split.
  now exists [].
Qed.

Ltac cbn_run :=
  cbn -[loadCollections loadRequestsByCollection loadEnvironments].

Ltac reload_ok lem :=
  match goal with
  | |- context [?reload ?w1] =>
      match type of (reload w1) with
      | (World * result unit)%type =>
          let w2 := fresh "w2" in
          let r := fresh "r" in
          let E := fresh "E" in
          let H := fresh "H" in
          pose proof (proj1 (lem w1)) as H;
          destruct (reload w1) as [w2 r] eqn:E; cbn in H; subst r; cbn_run
      end
  end.

Lemma createCollection_protocol name parentId isFolder (w : @World DB) :
  write_then_reload backend (createCollection backend host name parentId isFolder) 2
    (create_collection
       (mkCollection (randomUUID_at host (ticks w)) name parentId isFolder
          (toISOString_at host (S (ticks w)))))
    (loadCollections backend) (fun s => s) w.
Proof.
  unfold write_then_reload, createCollection, written. unfold_monad. cbn_run.
  destruct (backend unit _ (db w)) as [d1 [[]|e]]; [|eexists; reflexivity].
  reload_ok loadCollections_reloads. now rewrite on_store_id.
Qed.

Lemma deleteCollection_protocol id (w : @World DB) :
  write_then_reload backend (deleteCollection backend id) 0 (delete_collection id)
    (loadCollections backend) (fun s => s) w.
Proof.
  unfold write_then_reload, deleteCollection, written. unfold_monad. cbn_run.
  destruct (backend unit _ (db w)) as [d1 [[]|e]]; [|eexists; reflexivity].
  reload_ok loadCollections_reloads. now rewrite on_store_id.
Qed.

Lemma saveCurrentRequest_protocol name collectionId (w : @World DB) :
  write_then_reload backend (saveCurrentRequest backend host name collectionId)
    (save_ticks w) (save_request (saved_request host name collectionId w))
    (loadRequestsByCollection backend collectionId)
    (bind_saved name (saved_id host w)) w.
Proof.
  unfold write_then_reload, saveCurrentRequest, written, saved_request, saved_id,
    save_ticks.
  unfold_monad. cbn_run.
  destruct (selectedRequestId (store w)) as [id|]; cbn_run;
    (destruct (backend unit _ (db w)) as [d1 [[]|e]]; [|eexists; reflexivity]);
    reload_ok (loadRequestsByCollection_reloads collectionId); reflexivity.
Qed.

Lemma deleteRequest_protocol id collectionId (w : @World DB) :
  write_then_reload backend (deleteRequest backend id collectionId) 0
    (delete_request id) (loadRequestsByCollection backend collectionId)
    (unbind_deleted id) w.
Proof.
  unfold write_then_reload, deleteRequest, written, unbind_deleted.
  unfold_monad. cbn_run.
  destruct (backend unit _ (db w)) as [d1 [[]|e]]; [|eexists; reflexivity].
  reload_ok (loadRequestsByCollection_reloads collectionId).
  unfold on_store.
  destruct (opt_eqb (selectedRequestId (store w2)) (Some id)); cbn_run;
    [reflexivity | now destruct w2].
Qed.

Lemma saveEnvironment_protocol name vars isActive (w : @World DB) :
  write_then_reload backend (saveEnvironment backend host name vars isActive) 2
    (save_environment
       (mkEnvironment (randomUUID_at host (ticks w)) name
          (JSON_stringify_variables host vars) isActive
          (toISOString_at host (S (ticks w)))))
    (loadEnvironments backend) (fun s => s) w.
Proof.
  unfold write_then_reload, saveEnvironment, written. unfold_monad. cbn_run.
  destruct (backend unit _ (db w)) as [d1 [[]|e]]; [|eexists; reflexivity].
  reload_ok loadEnvironments_reloads. now rewrite on_store_id.
Qed.

Lemma updateEnvironment_protocol id name vars env (w : @World DB) :
  find_environment id (store w) = Some env ->
  write_then_reload backend (updateEnvironment backend host id name vars) 0
    (save_environment
       (mkEnvironment (env_id env) name (JSON_stringify_variables host vars)
          (is_active env) (env_created_at env)))
    (loadEnvironments backend) (fun s => s) w.
Proof.
  intros Hfind.
  unfold write_then_reload, updateEnvironment, written. unfold_monad.
  rewrite Hfind. cbn_run.
  destruct (backend unit _ (db w)) as [d1 [[]|e]]; [|eexists; reflexivity].
  reload_ok loadEnvironments_reloads. now rewrite on_store_id.
Qed.

Lemma setActiveEnvironment_protocol id env (w : @World DB) :
  find_environment id (store w) = Some env ->
  write_then_reload backend (setActiveEnvironment backend id) 0
    (save_environment
       (mkEnvironment (env_id env) (env_name env) (variables env) true
          (env_created_at env)))
    (loadEnvironments backend) (fun s => s) w.
Proof.
  intros Hfind.
  unfold write_then_reload, setActiveEnvironment, written. unfold_monad.
  rewrite Hfind. cbn_run.
  destruct (backend unit _ (db w)) as [d1 [[]|e]]; [|eexists; reflexivity].
  reload_ok loadEnvironments_reloads. now rewrite on_store_id.
Qed.

Lemma deleteEnvironment_protocol id (w : @World DB) :
  write_then_reload backend (deleteEnvironment backend id) 0
    (delete_environment id) (loadEnvironments backend) (fun s => s) w.
Proof.
  unfold write_then_reload, deleteEnvironment, written. unfold_monad. cbn_run.
  destruct (backend unit _ (db w)) as [d1 [[]|e]]; [|eexists; reflexivity].
  reload_ok loadEnvironments_reloads. now rewrite on_store_id.
Qed.

Lemma unknown_environment_noop id name vars (w : @World DB) :
  find_environment id (store w) = None ->
  updateEnvironment backend host id name vars w = (w, Ok tt) /\
  setActiveEnvironment backend id w = (w, Ok tt).
Proof.
  intros Hfind. unfold updateEnvironment, setActiveEnvironment. unfold_monad.
  now rewrite Hfind.
Qed.

(** C6 (amended). Creating or deleting a collection, saving or deleting a
    request, and saving or deleting an environment issue their persistence
    call first and then run the reload of the affected list (all collections
    with their requests, the requests of the one collection, all
    environments); updating or activating an environment does the same when
    its id is found among the loaded environments, and otherwise issues no
    call and changes nothing. When the persistence call rejects, no reload is
    issued, the failure is logged and the store is exactly as before. A reload
    issues its list call and overwrites the mirror with the reply; when that
    call rejects, the store is as before. *)
Theorem write_then_reload_protocol (w : @World DB) :
  (forall name parentId isFolder,
     write_then_reload backend (createCollection backend host name parentId isFolder)
       2 (create_collection
            (mkCollection (randomUUID_at host (ticks w)) name parentId isFolder
               (toISOString_at host (S (ticks w)))))
       (loadCollections backend) (fun s => s) w) /\
  (forall id,
     write_then_reload backend (deleteCollection backend id) 0
       (delete_collection id) (loadCollections backend) (fun s => s) w) /\
  (forall name collectionId,
     write_then_reload backend (saveCurrentRequest backend host name collectionId)
       (save_ticks w) (save_request (saved_request host name collectionId w))
       (loadRequestsByCollection backend collectionId)
       (bind_saved name (saved_id host w)) w) /\
  (forall id collectionId,
     write_then_reload backend (deleteRequest backend id collectionId) 0
       (delete_request id) (loadRequestsByCollection backend collectionId)
       (unbind_deleted id) w) /\
  (forall name vars isActive,
     write_then_reload backend (saveEnvironment backend host name vars isActive) 2
       (save_environment
          (mkEnvironment (randomUUID_at host (ticks w)) name
             (JSON_stringify_variables host vars) isActive
             (toISOString_at host (S (ticks w)))))
       (loadEnvironments backend) (fun s => s) w) /\
  (forall id,
     write_then_reload backend (deleteEnvironment backend id) 0
       (delete_environment id) (loadEnvironments backend) (fun s => s) w) /\
  (forall id name vars env, find_environment id (store w) = Some env ->
     write_then_reload backend (updateEnvironment backend host id name vars) 0
       (save_environment
          (mkEnvironment (env_id env) name (JSON_stringify_variables host vars)
             (is_active env) (env_created_at env)))
       (loadEnvironments backend) (fun s => s) w) /\
  (forall id env, find_environment id (store w) = Some env ->
     write_then_reload backend (setActiveEnvironment backend id) 0
       (save_environment
          (mkEnvironment (env_id env) (env_name env) (variables env) true
             (env_created_at env)))
       (loadEnvironments backend) (fun s => s) w) /\
  (forall id name vars, find_environment id (store w) = None ->
     updateEnvironment backend host id name vars w = (w, Ok tt) /\
     setActiveEnvironment backend id w = (w, Ok tt)) /\
  reloads backend (loadCollections backend) get_all_collections
    (fun cs s s' => s' = set_requests (requests s') (set_collections cs s)) w /\
  (forall collectionId,
     reloads backend (loadRequestsByCollection backend collectionId)
       (get_requests_by_collection collectionId)
       (fun rs s s' => s' = set_requests (<[collectionId := rs]> (requests s)) s) w) /\
  reloads backend (loadEnvironments backend) get_all_environments
    (fun es s s' =>
       s' = set_activeEnvironment (List.find is_active es) (set_environments es s)) w.
Proof.
  split; [intros; apply createCollection_protocol |].
  split; [intros; apply deleteCollection_protocol |].
  split; [intros; apply saveCurrentRequest_protocol |].
  split; [intros; apply deleteRequest_protocol |].
  split; [intros; apply saveEnvironment_protocol |].
  split; [intros; apply deleteEnvironment_protocol |].
  split; [intros; now apply updateEnvironment_protocol |].
  split; [intros; now apply setActiveEnvironment_protocol |].
  split; [intros; now apply unknown_environment_noop |].
  split; [apply loadCollections_reloads |].
  split; [intros; apply loadRequestsByCollection_reloads |].
  apply loadEnvironments_reloads.
Qed.

End Persistence.

(** ** Sending *)

Section Sending.

Context {DB : Type}.
Variable backend : forall R, Cmd R -> DB -> DB * result R.
Variable host : Host.

Ltac unfold_monad :=
  cbv beta iota zeta delta
    [try_catch try_finally mbind M_bind mret M_ret gets modify invoke
     console_error randomUUID now tick throw on_store].

Ltac case_run :=
  repeat match goal with
         | |- context [match ?x with _ => _ end] =>
             lazymatch x with
             | context [match _ with _ => _ end] => fail
             | _ => destruct x
             end
         end.

Lemma sendRequest_phases (w : @World DB) :
  sendRequest backend host w =
  try_finally
    (try_catch (mbind (send_dispatch backend host) (send_prepare backend))
       (fun e => mbind (fun _ => throw e) (console_error "Request failed:")))
    (on_store (set_isLoadingCurrent false)) w.
Proof.
  unfold sendRequest, send_dispatch, send_prepare. unfold_monad.
  cbn [store db trace ticks console].
  case_run; reflexivity.
Qed.

(** *** What the steps of a send leave untouched *)

Lemma activeTab_update_activeTab (f : RequestTab -> RequestTab) (s : Store) :
  activeTab (update_activeTab f s) = f <$> activeTab s.
Proof.
  unfold activeTab, update_activeTab, update_at, at_index. cbn.
  destruct (activeTabIndex s <? 0); [reflexivity |].
  apply list_lookup_alter_eq.
Qed.

Lemma currentRequest_update_activeTab (f : RequestTab -> RequestTab) (s : Store) :
  (forall t, tab_request (f t) = tab_request t) ->
  currentRequest (update_activeTab f s) = currentRequest s.
Proof.
  intros Hf. unfold currentRequest. rewrite activeTab_update_activeTab.
  destruct (activeTab s); cbn; [apply Hf | reflexivity].
Qed.

Lemma currentRequest_started (s : Store) :
  currentRequest (set_currentResponse None (set_isLoadingCurrent true s))
  = currentRequest s.
Proof.
  unfold set_currentResponse, set_isLoadingCurrent.
  now rewrite !currentRequest_update_activeTab.
Qed.

Lemma activeTab_is_Some (s : Store) : tabs_ok s -> is_Some (activeTab s).
Proof.
  intros [H0 Hlt]. unfold activeTab, at_index.
  destruct (activeTabIndex s <? 0) eqn:E; [lia |].
  apply lookup_lt_is_Some. lia.
Qed.

Lemma forallb_is_interpolate_app (a b : list Call) :
  forallb is_interpolate a = true -> forallb is_interpolate b = true ->
  forallb is_interpolate (a ++ b) = true.
Proof. intros Ha Hb. now rewrite forallb_app, Ha, Hb. Qed.

Lemma appended_interpolations (calls : list Call) :
  forallb is_interpolate calls = true -> appended calls = [].
Proof.
  induction calls as [|[R c] calls IH]; [reflexivity |].
  cbn. intros H. apply andb_prop in H as [Hc Hrest].
  destruct c; try discriminate Hc. cbn. now apply IH.
Qed.

Lemma dispatched_interpolations (calls : list Call) :
  forallb is_interpolate calls = true -> dispatched calls = [].
Proof.
  induction calls as [|[R c] calls IH]; [reflexivity |].
  cbn. intros H. apply andb_prop in H as [Hc Hrest].
  destruct c; try discriminate Hc. cbn. now apply IH.
Qed.

(** *** The headers loop, for any backend *)

Lemma interpolate_header_run (l : loc) (w : @World DB) :
  exists w1 r calls,
    interpolate_header backend l w = (w1, r) /\
    trace w1 = trace w ++ calls /\
    forallb is_interpolate calls = true /\
    store w1 = set_heap (heap (store w1)) (store w) /\
    ticks w1 = ticks w /\ console w1 = console w.
Proof.
  unfold interpolate_header. unfold_monad.
  assert (store w = set_heap (heap (store w)) (store w)) as Hsame
    by now destruct (store w).
  destruct (activeEnvironment (store w)) as [env|].
  - destruct (heap (store w) !! l) as [kv|].
    + destruct (backend _ _ (db w)) as [d1 [v|e]]; cbn.
      * eexists _, _, [_]. repeat split.
      * eexists _, _, [_]. repeat split. exact Hsame.
    + exists w, (Ok tt), []. rewrite app_nil_r. now repeat split.
  - exists w, (Ok tt), []. rewrite app_nil_r. now repeat split.
Qed.

Lemma interpolate_headers_run (ls : list loc) :
  forall w : @World DB, exists w1 r calls,
    for_each (interpolate_header backend) ls w = (w1, r) /\
    trace w1 = trace w ++ calls /\
    forallb is_interpolate calls = true /\
    store w1 = set_heap (heap (store w1)) (store w) /\
    ticks w1 = ticks w /\ console w1 = console w.
Proof.
  induction ls as [|l ls IH]; intros w.
  - exists w, (Ok tt), []. cbn. rewrite app_nil_r. repeat split.
    now destruct (store w).
  - destruct (interpolate_header_run l w)
      as (w1 & r1 & c1 & Hrun1 & Htr1 & Hi1 & Hst1 & Htk1 & Hco1).
    cbn. unfold mbind, M_bind. rewrite Hrun1. destruct r1 as [[]|e].
    + destruct (IH w1) as (w2 & r2 & c2 & Hrun2 & Htr2 & Hi2 & Hst2 & Htk2 & Hco2).
      exists w2, r2, (c1 ++ c2). rewrite Hrun2. repeat split.
      * now rewrite Htr2, Htr1, <- app_assoc.
      * now apply forallb_is_interpolate_app.
      * rewrite Hst2, Hst1. reflexivity.
      * congruence.
      * congruence.
    + exists w1, (Rejected e), c1. now repeat split.
Qed.

(** *** The two halves of a send, for any backend *)

Ltac step := cbv beta iota zeta; cbn [store db trace ticks console].

Ltac finish_prepare :=
  repeat (split; [first [assumption | reflexivity] |]);
  let wire := fresh "wire" in
  let Hw := fresh "Hw" in
  intros wire Hw;
  first [ discriminate Hw
        | injection Hw as <-; cbn;
          repeat match goal with
                 | H : currentRequest _ = _ |- _ => rewrite H
                 end;
          split; eauto ].

Ltac close_trace :=
  cbn [trace]; repeat match goal with H : trace _ = _ |- _ => rewrite H end;
  cbn [trace]; rewrite <- ?app_assoc; cbn [app]; try rewrite app_nil_r; reflexivity.

Lemma send_prepare_run (w : @World DB) :
  let cur := currentRequest (store w) in
  exists w1 r calls,
    send_prepare backend w = (w1, r) /\
    trace w1 = trace w ++ calls /\
    forallb is_interpolate calls = true /\
    store w1 = set_heap (heap (store w1))
                 (set_currentResponse None (set_isLoadingCurrent true (store w))) /\
    ticks w1 = ticks w /\ console w1 = console w /\
    forall wire, r = Ok wire ->
      method wire = method cur /\
      match activeEnvironment (store w) with
      | Some _ =>
          exists d, backend _ (interpolate_variables (url cur)) (db w)
                    = (d, Ok (url wire))
      | None => url wire = url cur
      end.
Proof.
  intros cur. unfold send_prepare. unfold_monad.
  cbn [store db trace ticks console].
  rewrite !currentRequest_started. fold cur.
  change (activeEnvironment
            (set_currentResponse None (set_isLoadingCurrent true (store w))))
    with (activeEnvironment (store w)).
  set (s1 := set_currentResponse None (set_isLoadingCurrent true (store w))).
  assert (s1 = set_heap (heap s1) s1) as Hs1 by now destruct s1.
  destruct (activeEnvironment (store w)) as [env|] eqn:Henv; step.
  - destruct (backend _ (interpolate_variables (url cur)) (db w))
      as [d1 [url1|e]] eqn:Hurl; step.
    + match goal with
      | |- context [for_each ?f ?ls ?w0] =>
          destruct (interpolate_headers_run ls w0)
            as (w2 & r2 & c2 & -> & Htr2 & Hi2 & Hst2 & Htk2 & Hco2)
      end.
      cbn [store db trace ticks console] in *.
      assert (currentRequest (store w2) = cur) as Hcur
        by (rewrite Hst2; apply currentRequest_started).
      assert (activeEnvironment (store w2) = Some env) as Henv2
        by (rewrite Hst2; exact Henv).
      destruct r2 as [[]|e]; step.
      * rewrite Hcur, Henv2.
        destruct (truthy (body cur)); step.
        -- destruct (backend _ (interpolate_variables (body cur)) (db w2))
             as [d3 [body1|e]]; step.
           ++ eexists _, _, (_ :: c2 ++ [_]).
              split; [reflexivity |].
              split; [close_trace |].
              split; [cbn; now rewrite forallb_app, Hi2 |].
              finish_prepare.
           ++ eexists _, _, (_ :: c2 ++ [_]).
              split; [reflexivity |].
              split; [close_trace |].
              split; [cbn; now rewrite forallb_app, Hi2 |].
              finish_prepare.
        -- eexists w2, _, (_ :: c2).
           split; [reflexivity |].
           split; [close_trace |].
           split; [cbn; exact Hi2 |].
           finish_prepare.
      * eexists w2, _, (_ :: c2).
        split; [reflexivity |].
        split; [close_trace |].
        split; [cbn; exact Hi2 |].
        finish_prepare.
    + eexists _, _, [_].
      split; [reflexivity |]. split; [reflexivity |]. split; [reflexivity |].
      finish_prepare.
  - match goal with
    | |- context [for_each ?f ?ls ?w0] =>
        destruct (interpolate_headers_run ls w0)
          as (w2 & r2 & c2 & -> & Htr2 & Hi2 & Hst2 & Htk2 & Hco2)
    end.
    cbn [store db trace ticks console] in *.
    assert (currentRequest (store w2) = cur) as Hcur
      by (rewrite Hst2; apply currentRequest_started).
    assert (activeEnvironment (store w2) = None) as Henv2
      by (rewrite Hst2; exact Henv).
    destruct r2 as [[]|e]; step.
    + rewrite Hcur, Henv2. eexists w2, _, c2.
      split; [reflexivity |].
      split; [close_trace |]. split; [assumption |]. finish_prepare.
    + eexists w2, _, c2.
      split; [reflexivity |].
      split; [close_trace |]. split; [assumption |]. finish_prepare.
Qed.

Lemma addHistory_run (h : History) (w : @World DB) :
  exists w1 rest,
    addHistory backend h w = (w1, Ok tt) /\
    trace w1 = trace w ++ call (add_history h) :: rest /\
    (rest = [] \/ rest = [call (get_history 50)]) /\
    store w1 = set_history (history (store w1)) (store w).
Proof.
  unfold addHistory, loadHistory. unfold_monad.
  assert (store w = set_history (history (store w)) (store w)) as Hsame
    by now destruct (store w).
  destruct (backend _ (add_history h) (db w)) as [d1 [[]|e]]; step.
  - destruct (backend _ (get_history 50) d1) as [d2 [hs|e]]; step;
      eexists _, [call (get_history 50)]; (split; [reflexivity |]);
      cbn; rewrite <- app_assoc; (split; [reflexivity |]); split; auto.
  - eexists _, []. split; [reflexivity |]. cbn. split; [reflexivity |]. auto.
Qed.

Lemma send_dispatch_run (wire : WireRequest) (w : @World DB) :
  let cur := currentRequest (store w) in
  match backend _ (send_http_request wire) (db w) with
  | (d, Rejected e) =>
      send_dispatch backend host wire w
      = (mkWorld (store w) d (trace w ++ [call (send_http_request wire)])
           (ticks w) (console w), Rejected e)
  | (d, Ok response) =>
      exists w1 rest,
        send_dispatch backend host wire w = (w1, Ok tt) /\
        trace w1 =
          trace w
          ++ [call (send_http_request wire);
              call (add_history
                      (mkHistory (randomUUID_at host (ticks w)) (method cur)
                         (url cur) (status response) (response_time response)
                         (toISOString_at host (S (ticks w)))))]
          ++ rest /\
        (rest = [] \/ rest = [call (get_history 50)]) /\
        store w1 = set_history (history (store w1))
                     (set_currentResponse (Some response) (store w))
  end.
Proof.
  intros cur. unfold send_dispatch. unfold_monad.
  destruct (backend _ (send_http_request wire) (db w)) as [d [response|e]]; step;
    [|reflexivity].
  unfold set_currentResponse at 1 2.
  rewrite !currentRequest_update_activeTab by reflexivity. fold cur.
  match goal with
  | |- context [addHistory backend ?h ?w0] =>
      destruct (addHistory_run h w0) as (w1 & rest & -> & Htr & Hrest & Hst)
  end.
  cbn [store db trace ticks console] in *.
  exists w1, rest. split; [reflexivity |].
  split; [rewrite Htr, <- app_assoc; reflexivity |].
  split; [exact Hrest | exact Hst].
Qed.

(** One send, from start to end, for any backend: the calls it issues are
    interpolations, then at most the dispatch, then (only after a response)
    the history append and its reload. *)
Lemma sendRequest_run (w : @World DB) :
  let cur := currentRequest (store w) in
  exists w' r interps tail,
    sendRequest backend host w = (w', r) /\
    trace w' = trace w ++ interps ++ tail /\
    forallb is_interpolate interps = true /\
    match r with
    | Ok _ =>
        exists wire d response rest,
          tail = [call (send_http_request wire);
                  call (add_history
                          (mkHistory (randomUUID_at host (ticks w)) (method cur)
                             (url cur) (status response) (response_time response)
                             (toISOString_at host (S (ticks w)))))] ++ rest /\
          (rest = [] \/ rest = [call (get_history 50)]) /\
          snd (backend _ (send_http_request wire) d) = Ok response /\
          (tabs_ok (store w) -> currentResponse (store w') = Some response) /\
          method wire = method cur /\
          match activeEnvironment (store w) with
          | Some _ =>
              exists d1, backend _ (interpolate_variables (url cur)) (db w)
                         = (d1, Ok (url wire))
          | None => url wire = url cur
          end
    | Rejected e =>
        tail = [] \/
        exists wire d,
          tail = [call (send_http_request wire)] /\
          snd (backend _ (send_http_request wire) d) = Rejected e
    end.
Proof.
  intros cur. rewrite sendRequest_phases.
  destruct (send_prepare_run w)
    as (w1 & r1 & interps & Hprep & Htr1 & Hint & Hst1 & Htk1 & Hco1 & Hwire).
  unfold try_finally, try_catch, mbind at 1, M_bind at 1. rewrite Hprep.
  destruct r1 as [wire|e].
  - destruct (Hwire wire eq_refl) as [Hmethod Hurl].
    assert (currentRequest (store w1) = cur) as Hcur
      by (rewrite Hst1; apply currentRequest_started).
    pose proof (send_dispatch_run wire w1) as Hdisp. cbv zeta in Hdisp.
    destruct (backend _ (send_http_request wire) (db w1)) as [d [response|e]] eqn:Hb.
    + destruct Hdisp as (w2 & rest & -> & Htr2 & Hrest & Hst2).
      rewrite Hcur, Htk1 in Htr2.
      eexists _, _, interps, _. split; [reflexivity |].
      split; [cbn [trace on_store]; rewrite Htr2, Htr1, <- app_assoc; reflexivity |].
      split; [exact Hint |].
      exists wire, (db w1), response, rest.
      split; [reflexivity |]. split; [exact Hrest |].
      split; [now rewrite Hb |].
      split; [|split; [exact Hmethod | exact Hurl]].
      intros Hok. cbn [store on_store]. rewrite Hst2, Hst1.
      unfold currentResponse, set_isLoadingCurrent, set_currentResponse.
      change (activeTab (update_activeTab (set_isLoading false) ?s))
        with (activeTab (update_activeTab (set_isLoading false) s)).
      rewrite activeTab_update_activeTab.
      match goal with
      | |- context [activeTab (set_history ?h ?s)] =>
          change (activeTab (set_history h s)) with (activeTab s)
      end.
      rewrite activeTab_update_activeTab.
      match goal with
      | |- context [activeTab (set_heap ?h ?s)] =>
          change (activeTab (set_heap h s)) with (activeTab s)
      end.
      rewrite !activeTab_update_activeTab.
      destruct (activeTab_is_Some _ Hok) as [t ->]. reflexivity.
    + rewrite Hdisp. unfold_monad. cbn [store db trace ticks console].
      eexists _, _, interps, _. split; [reflexivity |].
      split; [cbn [trace]; rewrite Htr1, <- app_assoc; reflexivity |].
      split; [exact Hint |].
      right. exists wire, (db w1). split; [reflexivity | now rewrite Hb].
  - unfold_monad. cbn [store db trace ticks console].
    eexists _, _, interps, []. split; [reflexivity |].
    split; [cbn [trace]; now rewrite app_nil_r |].
    split; [exact Hint |]. now left.
Qed.

Lemma appended_app (a b : list Call) : appended (a ++ b) = appended a ++ appended b.
Proof. apply flat_map_app. Qed.

Lemma dispatched_app (a b : list Call) :
  dispatched (a ++ b) = dispatched a ++ dispatched b.
Proof. apply flat_map_app. Qed.

(** C10. The history entry of a send that returns carries the URL of the
    draft as it is stored, tokens included; the URL that was dispatched is
    the reply of the interpolation call on it (when an environment is
    active). *)
Theorem history_records_draft_url (w : @World DB) :
  let cur := currentRequest (store w) in
  let w' := fst (sendRequest backend host w) in
  snd (sendRequest backend host w) = Ok tt ->
  exists h wire,
    appended (trace w') = appended (trace w) ++ [h] /\
    dispatched (trace w') = dispatched (trace w) ++ [wire] /\
    h_url h = url cur /\
    match activeEnvironment (store w) with
    | Some _ =>
        exists d1, backend _ (interpolate_variables (url cur)) (db w)
                   = (d1, Ok (url wire))
    | None => url wire = url cur
    end.
Proof.
  intros cur w' Hok. subst w'.
  destruct (sendRequest_run w) as (w1 & r & interps & tail & Hrun & Htr & Hint & Hr).
  rewrite Hrun in *. cbn [fst snd] in *. subst r.
  destruct Hr as (wire & d & response & rest & -> & Hrest & _ & _ & _ & Hurl).
  eexists _, wire.
  rewrite Htr, !appended_app, !dispatched_app,
    (appended_interpolations _ Hint), (dispatched_interpolations _ Hint).
  split; [destruct Hrest as [-> | ->]; reflexivity |].
  split; [destruct Hrest as [-> | ->]; reflexivity |].
  split; [reflexivity | exact Hurl].
Qed.

(** *** From the outbound copy to the end of the send *)

Lemma currentHeaders_update_activeTab (g : RequestTab -> RequestTab) (s : Store) :
  (forall t, tab_request (g t) = tab_request t) ->
  currentHeaders (update_activeTab g s) = currentHeaders s.
Proof.
  intros Hg. unfold currentHeaders.
  now rewrite currentRequest_update_activeTab.
Qed.

Lemma after_prepare (w w1 : @World DB) (wire : WireRequest) (calls : list Call) :
  send_prepare backend w = (w1, Ok wire) ->
  trace w1 = trace w ++ calls ->
  forallb is_interpolate calls = true ->
  let w' := fst (sendRequest backend host w) in
  dispatched (trace w') = dispatched (trace w) ++ [wire] /\
  currentRequest (store w') = currentRequest (store w1) /\
  currentHeaders (store w') = currentHeaders (store w1).
Proof.
  intros Hprep Htr1 Hint w'. subst w'.
  destruct (sendRequest backend host w) as [w' r] eqn:Hrun. cbn [fst].
  rewrite sendRequest_phases in Hrun.
  unfold try_finally, try_catch, mbind at 1, M_bind at 1 in Hrun.
  rewrite Hprep in Hrun.
  pose proof (send_dispatch_run wire w1) as Hdisp. cbv zeta in Hdisp.
  destruct (backend _ (send_http_request wire) (db w1)) as [d [response|e]].
  - destruct Hdisp as (w2 & rest & Hd & Htr2 & Hrest & Hst2).
    rewrite Hd in Hrun. cbv beta iota zeta in Hrun. injection Hrun as <- <-.
    cbn [store trace on_store]. rewrite Hst2.
    split; [|split].
    + rewrite Htr2, Htr1, !dispatched_app, (dispatched_interpolations _ Hint).
      destruct Hrest as [-> | ->]; cbn; now rewrite app_nil_r.
    + unfold set_isLoadingCurrent. rewrite currentRequest_update_activeTab by reflexivity.
      change (currentRequest (set_history ?h ?s)) with (currentRequest s).
      unfold set_currentResponse.
      now rewrite currentRequest_update_activeTab.
    + unfold set_isLoadingCurrent. rewrite currentHeaders_update_activeTab by reflexivity.
      change (currentHeaders (set_history ?h ?s)) with (currentHeaders s).
      unfold set_currentResponse.
      now rewrite currentHeaders_update_activeTab.
  - rewrite Hdisp in Hrun.
    unfold mbind, M_bind, console_error, throw in Hrun.
    cbv beta iota zeta in Hrun. injection Hrun as <- <-.
    cbn [store trace ticks console db on_store].
    split; [|split].
    + rewrite Htr1, !dispatched_app, (dispatched_interpolations _ Hint).
      cbn. now rewrite app_nil_r.
    + unfold set_isLoadingCurrent. now rewrite currentRequest_update_activeTab.
    + unfold set_isLoadingCurrent. now rewrite currentHeaders_update_activeTab.
Qed.

Lemma interpolate_headers_no_env (ls : list loc) (w : @World DB) :
  activeEnvironment (store w) = None ->
  for_each (interpolate_header backend) ls w = (w, Ok tt).
Proof.
  intros Henv. induction ls as [|l ls IH]; [reflexivity |].
  cbn [for_each]. unfold mbind, M_bind.
  assert (interpolate_header backend l w = (w, Ok tt)) as ->.
  { unfold interpolate_header. unfold_monad. now rewrite Henv. }
  exact IH.
Qed.

Lemma send_prepare_no_env (w : @World DB) :
  activeEnvironment (store w) = None ->
  exists w1,
    send_prepare backend w = (w1, Ok (stored_copy (store w))) /\
    trace w1 = trace w ++ [] /\
    store w1 = set_currentResponse None (set_isLoadingCurrent true (store w)).
Proof.
  intros Henv. unfold send_prepare. unfold_monad.
  cbn [store db trace ticks console].
  rewrite !currentRequest_started.
  change (activeEnvironment
            (set_currentResponse None (set_isLoadingCurrent true (store w))))
    with (activeEnvironment (store w)).
  rewrite Henv. step.
  rewrite interpolate_headers_no_env by exact Henv. step.
  rewrite !currentRequest_started.
  change (activeEnvironment
            (set_currentResponse None (set_isLoadingCurrent true (store w))))
    with (activeEnvironment (store w)).
  rewrite Henv. step. rewrite !currentRequest_started.
  eexists. split; [reflexivity |]. split; [now rewrite app_nil_r | reflexivity].
Qed.

(** *** The send path under an interpolation that is a function *)

Section PureInterpolation.

Variable f : string -> string.

Lemma deref_cons (h : list KeyValue) (l : loc) (ls : list loc) :
  deref h (l :: ls)
  = match h !! l with Some kv => kv :: deref h ls | None => deref h ls end.
Proof. reflexivity. Qed.

Lemma deref_ext (h1 h2 : list KeyValue) (ls : list loc) :
  (forall l, In l ls -> h1 !! l = h2 !! l) -> deref h1 ls = deref h2 ls.
Proof.
  induction ls as [|l ls IH]; intros Hext; [reflexivity |].
  rewrite !deref_cons, (Hext l (or_introl eq_refl)).
  rewrite IH; [reflexivity |]. intros l' Hl'. apply Hext. now right.
Qed.

Lemma interpolate_headers_pure (ls : list loc) :
  forall w : @World DB,
    interpolates_as backend f (db w) ->
    is_Some (activeEnvironment (store w)) ->
    NoDup ls ->
    (forall l, In l ls -> is_Some (heap (store w) !! l)) ->
    exists w1 calls,
      for_each (interpolate_header backend) ls w = (w1, Ok tt) /\
      db w1 = db w /\ ticks w1 = ticks w /\ console w1 = console w /\
      trace w1 = trace w ++ calls /\
      forallb is_interpolate calls = true /\
      store w1 = set_heap (heap (store w1)) (store w) /\
      deref (heap (store w1)) ls
        = map (fun kv => with_value (f (kv_value kv)) kv) (deref (heap (store w)) ls) /\
      (forall l, ~ In l ls -> heap (store w1) !! l = heap (store w) !! l).
Proof.
  induction ls as [|l ls IH]; intros w Hpure Henv Hnodup Hvalid.
  - exists w, []. cbn. rewrite app_nil_r. repeat split. now destruct (store w).
  - apply NoDup_cons in Hnodup as [Hl Hnodup].
    destruct Henv as [env Henv].
    destruct (Hvalid l (or_introl eq_refl)) as [kv Hkv].
    set (w1 := mkWorld
                 (set_heap (alter (with_value (f (kv_value kv))) l (heap (store w)))
                    (store w))
                 (db w) (trace w ++ [call (interpolate_variables (kv_value kv))])
                 (ticks w) (console w)).
    assert (interpolate_header backend l w = (w1, Ok tt)) as Hstep.
    { unfold interpolate_header. unfold_monad. rewrite Henv, Hkv, Hpure.
      reflexivity. }
    assert (forall l', l' <> l -> heap (store w1) !! l' = heap (store w) !! l')
      as Hframe.
    { intros l' Hne. cbn. apply list_lookup_alter_ne. congruence. }
    destruct (IH w1) as (w2 & calls & Hrun & Hdb & Htk & Hco & Htr & Hint & Hst
                         & Hderef & Hrest).
    + exact Hpure.
    + exists env. exact Henv.
    + exact Hnodup.
    + intros l' Hl'. rewrite Hframe; [apply Hvalid; now right |].
      intros ->. apply Hl. now apply list_elem_of_In.
    + exists w2, (call (interpolate_variables (kv_value kv)) :: calls).
      cbn [for_each]. unfold mbind, M_bind. rewrite Hstep, Hrun.
      split; [reflexivity |].
      split; [exact Hdb |]. split; [exact Htk |]. split; [exact Hco |].
      split; [rewrite Htr; cbn; now rewrite <- app_assoc |].
      split; [exact Hint |].
      split; [rewrite Hst; reflexivity |].
      split.
      * assert (heap (store w1) !! l = Some (with_value (f (kv_value kv)) kv))
          as Hl1
          by (unfold w1; cbn [store heap set_heap];
              now rewrite list_lookup_alter_eq, Hkv).
        rewrite !deref_cons, Hkv.
        rewrite Hrest by (intros Hin; apply Hl; now apply list_elem_of_In).
        rewrite Hl1, Hderef. cbn [map]. do 2 f_equal.
        apply deref_ext. intros l' Hl'. apply Hframe.
        intros ->. apply Hl. now apply list_elem_of_In.
      * intros l' Hnot. rewrite Hrest by (intros Hin; apply Hnot; now right).
        apply Hframe. intros ->. apply Hnot. now left.
Qed.

Lemma send_prepare_pure (w : @World DB) :
  interpolates_as backend f (db w) ->
  is_Some (activeEnvironment (store w)) ->
  headers_ok (store w) ->
  exists w1 calls,
    send_prepare backend w = (w1, Ok (outbound f (store w))) /\
    trace w1 = trace w ++ calls /\
    forallb is_interpolate calls = true /\
    store w1 = set_heap (heap (store w1))
                 (set_currentResponse None (set_isLoadingCurrent true (store w))) /\
    currentHeaders (store w1)
      = map (fun kv => with_value (f (kv_value kv)) kv) (currentHeaders (store w)).
Proof.
  intros Hpure [env Henv] [Hnodup Hvalid].
  set (cur := currentRequest (store w)).
  unfold send_prepare. unfold_monad. cbn [store db trace ticks console].
  rewrite !currentRequest_started. fold cur.
  change (activeEnvironment
            (set_currentResponse None (set_isLoadingCurrent true (store w))))
    with (activeEnvironment (store w)).
  rewrite Henv, Hpure. step. rewrite ?currentRequest_started. fold cur.
  match goal with
  | |- context [for_each ?g ?ls ?w0] =>
      destruct (interpolate_headers_pure ls w0)
        as (w2 & calls & -> & Hdb & Htk & Hco & Htr & Hint & Hst & Hderef & _);
        [exact Hpure | now exists env | exact Hnodup | exact Hvalid |]
  end.
  cbn [store db trace ticks console] in *.
  assert (currentRequest (store w2) = cur) as Hcur
    by (rewrite Hst; apply currentRequest_started).
  assert (activeEnvironment (store w2) = Some env) as Henv2
    by (rewrite Hst; exact Henv).
  change (heap (set_currentResponse None (set_isLoadingCurrent true (store w))))
    with (heap (store w)) in Hderef.
  step. rewrite Hcur, Henv2.
  assert (currentHeaders (store w2)
          = map (fun kv => with_value (f (kv_value kv)) kv) (currentHeaders (store w)))
    as Hhs by (unfold currentHeaders; rewrite Hcur; exact Hderef).
  unfold outbound. fold cur. unfold currentHeaders at 1. fold cur.
  destruct (truthy (body cur)) eqn:Hbody; step.
  - rewrite Hdb, Hpure. step. rewrite Hcur, Hderef.
    eexists _, (_ :: calls ++ [_]).
    split; [reflexivity |]. split; [close_trace |].
    split; [cbn; now rewrite forallb_app, Hint |].
    split; assumption.
  - rewrite Hcur, Hderef.
    eexists _, (_ :: calls).
    split; [reflexivity |]. split; [close_trace |].
    split; [cbn; exact Hint |].
    split; assumption.
Qed.

(** With an active environment, a send leaves in the stored draft the
    interpolated value of every header: the outbound [headers] array holds
    the draft's own header objects. The URL, the body and the rest of the
    draft are as before. *)
Lemma send_overwrites_header_values (w : @World DB) :
  interpolates_as backend f (db w) ->
  is_Some (activeEnvironment (store w)) ->
  headers_ok (store w) ->
  let w' := fst (sendRequest backend host w) in
  currentRequest (store w') = currentRequest (store w) /\
  currentHeaders (store w')
    = map (fun kv => with_value (f (kv_value kv)) kv) (currentHeaders (store w)).
Proof.
  intros Hpure Henv Hok.
  destruct (send_prepare_pure w Hpure Henv Hok)
    as (w1 & calls & Hprep & Htr1 & Hint & Hst1 & Hhs).
  destruct (after_prepare w w1 _ calls Hprep Htr1 Hint) as (_ & Hcur & Hheaders).
  cbv zeta. rewrite Hcur, Hheaders. split; [|exact Hhs].
  rewrite Hst1. apply currentRequest_started.
Qed.

End PureInterpolation.

(** *** The interpolation calls of a send, for any backend *)

Lemma interpolate_headers_texts (ls : list loc) :
  forall w : @World DB,
    is_Some (activeEnvironment (store w)) -> NoDup ls ->
    (forall l, In l ls -> is_Some (heap (store w) !! l)) ->
    exists w1 r asked,
      for_each (interpolate_header backend) ls w = (w1, r) /\
      trace w1 = trace w ++ map interpolation_call asked /\
      asked `prefix_of` map kv_value (deref (heap (store w)) ls) /\
      store w1 = set_heap (heap (store w1)) (store w) /\
      ticks w1 = ticks w /\
      (forall l, ~ In l ls -> heap (store w1) !! l = heap (store w) !! l) /\
      (r = Ok tt ->
       asked = map kv_value (deref (heap (store w)) ls) /\
       Forall2 (fun kv kv' => kv' = with_value (kv_value kv') kv /\
                              answers backend (kv_value kv) (kv_value kv'))
         (deref (heap (store w)) ls) (deref (heap (store w1)) ls)).
Proof.
  induction ls as [|l ls IH]; intros w Henv Hnodup Hvalid.
  - exists w, (Ok tt), []. cbn. rewrite app_nil_r.
    split; [reflexivity |]. split; [reflexivity |].
    split; [apply prefix_nil |]. split; [now destruct (store w) |].
    split; [reflexivity |]. split; [reflexivity |].
    intros _. split; [reflexivity | constructor].
  - apply NoDup_cons in Hnodup as [Hl Hnodup].
    assert (~ In l ls) as Hl' by (intros Hin; apply Hl; now apply list_elem_of_In).
    destruct Henv as [env Henv].
    destruct (Hvalid l (or_introl eq_refl)) as [kv Hkv].
    rewrite deref_cons, Hkv. cbn [map].
    destruct (backend _ (interpolate_variables (kv_value kv)) (db w))
      as [d1 [v|e]] eqn:Hb.
    + set (w1 := mkWorld
                   (set_heap (alter (with_value v) l (heap (store w))) (store w))
                   d1 (trace w ++ [call (interpolate_variables (kv_value kv))])
                   (ticks w) (console w)).
      assert (interpolate_header backend l w = (w1, Ok tt)) as Hstep.
      { unfold interpolate_header. unfold_monad. rewrite Henv, Hkv, Hb.
        reflexivity. }
      assert (forall l', l' <> l -> heap (store w1) !! l' = heap (store w) !! l')
        as Hframe.
      { intros l' Hne. cbn. apply list_lookup_alter_ne. congruence. }
      assert (deref (heap (store w1)) ls = deref (heap (store w)) ls) as Hsame.
      { apply deref_ext. intros l' Hin. apply Hframe. now intros ->. }
      destruct (IH w1) as (w2 & r2 & asked & Hrun & Htr & Hpre & Hst & Htk & Hrest
                           & Hdone).
      * exists env. exact Henv.
      * exact Hnodup.
      * intros l' Hin. rewrite Hframe; [apply Hvalid; now right | now intros ->].
      * rewrite Hsame in Hpre, Hdone.
        exists w2, r2, (kv_value kv :: asked).
        cbn [for_each]. unfold mbind, M_bind. rewrite Hstep, Hrun.
        split; [reflexivity |].
        split; [rewrite Htr; cbn; now rewrite <- app_assoc |].
        split; [now apply prefix_cons |].
        split; [rewrite Hst; reflexivity |].
        split; [exact Htk |].
        split.
        -- intros l' Hnot. rewrite Hrest by (intros Hin; apply Hnot; now right).
           apply Hframe. intros ->. apply Hnot. now left.
        -- intros Hr2. destruct (Hdone Hr2) as [-> Hall].
           split; [reflexivity |].
           rewrite deref_cons, (Hrest l Hl').
           assert (heap (store w1) !! l = Some (with_value v kv)) as ->
             by (unfold w1; cbn [store heap set_heap];
                 now rewrite list_lookup_alter_eq, Hkv).
           constructor; [|exact Hall].
           split; [reflexivity |]. exists (db w), d1. exact Hb.
    + exists (mkWorld (store w) d1
                (trace w ++ [call (interpolate_variables (kv_value kv))])
                (ticks w) (console w)), (Rejected e), [kv_value kv].
      assert (interpolate_header backend l w
              = (mkWorld (store w) d1
                   (trace w ++ [call (interpolate_variables (kv_value kv))])
                   (ticks w) (console w), Rejected e)) as Hstep.
      { unfold interpolate_header. unfold_monad. rewrite Henv, Hkv, Hb.
        reflexivity. }
      cbn [for_each]. unfold mbind, M_bind. rewrite Hstep.
      split; [reflexivity |]. split; [reflexivity |].
      split; [apply prefix_cons, prefix_nil |].
      split; [cbn; now destruct (store w) |].
      split; [reflexivity |]. split; [reflexivity |]. discriminate.
Qed.

Lemma send_prepare_texts (w : @World DB) :
  headers_ok (store w) ->
  exists w1 r asked,
    send_prepare backend w = (w1, r) /\
    trace w1 = trace w ++ map interpolation_call asked /\
    asked `prefix_of` interpolation_texts (store w) /\
    forall wire, r = Ok wire ->
      asked = interpolation_texts (store w) /\
      outbound_of backend (store w) wire.
Proof.
  intros [Hnodup Hvalid].
  set (cur := currentRequest (store w)).
  unfold interpolation_texts, outbound_of. fold cur.
  destruct (activeEnvironment (store w)) as [env|] eqn:Henv.
  - unfold send_prepare. unfold_monad. cbn [store db trace ticks console].
    rewrite !currentRequest_started. fold cur.
    change (activeEnvironment
              (set_currentResponse None (set_isLoadingCurrent true (store w))))
      with (activeEnvironment (store w)).
    rewrite Henv. step.
    destruct (backend _ (interpolate_variables (url cur)) (db w))
      as [d1 [url1|e]] eqn:Hurl; step.
    + rewrite ?currentRequest_started. fold cur.
      match goal with
      | |- context [for_each ?g ?ls ?w0] =>
          destruct (interpolate_headers_texts ls w0)
            as (w2 & r2 & asked & -> & Htr & Hpre & Hst & Htk & _ & Hdone);
            [now exists env | exact Hnodup | exact Hvalid |]
      end.
      cbn [store db trace ticks console] in *.
      change (heap (set_currentResponse None (set_isLoadingCurrent true (store w))))
        with (heap (store w)) in Hpre, Hdone.
      fold (currentHeaders (store w)) in Hpre, Hdone.
      assert (currentRequest (store w2) = cur) as Hcur
        by (rewrite Hst; apply currentRequest_started).
      assert (activeEnvironment (store w2) = Some env) as Henv2
        by (rewrite Hst; exact Henv).
      destruct r2 as [[]|e]; step.
      * destruct (Hdone eq_refl) as [-> Hall]. rewrite Hcur, Henv2.
        destruct (truthy (body cur)) eqn:Hbody; step.
        -- destruct (backend _ (interpolate_variables (body cur)) (db w2))
             as [d3 [body1|e]] eqn:Hbd; step.
           ++ eexists _, _, (url cur :: map kv_value (currentHeaders (store w))
                               ++ [body cur]).
              split; [reflexivity |].
              split; [cbn [trace]; rewrite Htr; cbn [trace map app];
                      rewrite map_app, <- !app_assoc; reflexivity |].
              split; [reflexivity |].
              intros wire [= <-]. split; [reflexivity |].
              cbn. rewrite Hcur. repeat (split; [reflexivity |]).
              split; [now exists (db w), d1 |].
              split; [exact Hall |]. now exists (db w2), d3.
           ++ eexists _, _, (url cur :: map kv_value (currentHeaders (store w))
                               ++ [body cur]).
              split; [reflexivity |].
              split; [cbn [trace]; rewrite Htr; cbn [trace map app];
                      rewrite map_app, <- !app_assoc; reflexivity |].
              split; [reflexivity |]. discriminate.
        -- eexists w2, _, (url cur :: map kv_value (currentHeaders (store w))).
           split; [reflexivity |].
           split; [rewrite Htr; cbn [trace map app];
                   rewrite <- !app_assoc; reflexivity |].
           split; [cbn [app]; now rewrite app_nil_r |].
           intros wire [= <-]. split; [cbn [app]; now rewrite app_nil_r |].
           cbn. rewrite Hcur. repeat (split; [reflexivity |]).
           split; [now exists (db w), d1 |].
           split; [exact Hall | reflexivity].
      * eexists w2, _, (url cur :: asked).
        split; [reflexivity |].
        split; [rewrite Htr; cbn [trace map app];
                rewrite <- !app_assoc; reflexivity |].
        split; [|discriminate].
        cbn [app]. apply prefix_cons, prefix_app_r. exact Hpre.
    + eexists _, _, [url cur].
      split; [reflexivity |]. split; [reflexivity |].
      split; [apply prefix_cons, prefix_nil | discriminate].
  - destruct (send_prepare_no_env w Henv) as (w1 & Hprep & Htr & _).
    exists w1, (Ok (stored_copy (store w))), [].
    split; [exact Hprep |]. split; [exact Htr |]. split; [reflexivity |].
    intros wire [= <-]. split; [reflexivity |]. repeat split.
Qed.

(** The rest of a send, once the outbound copy is prepared. *)
Lemma sendRequest_from_prepare (w w1 : @World DB) (r1 : result WireRequest)
    (interps : list Call) :
  send_prepare backend w = (w1, r1) ->
  trace w1 = trace w ++ interps ->
  store w1 = set_heap (heap (store w1))
               (set_currentResponse None (set_isLoadingCurrent true (store w))) ->
  ticks w1 = ticks w ->
  let cur := currentRequest (store w) in
  exists w' r tail,
    sendRequest backend host w = (w', r) /\
    trace w' = trace w ++ interps ++ tail /\
    match r with
    | Ok _ =>
        exists wire d response rest,
          r1 = Ok wire /\
          tail = [call (send_http_request wire);
                  call (add_history
                          (mkHistory (randomUUID_at host (ticks w)) (method cur)
                             (url cur) (status response) (response_time response)
                             (toISOString_at host (S (ticks w)))))] ++ rest /\
          (rest = [] \/ rest = [call (get_history 50)]) /\
          snd (backend _ (send_http_request wire) d) = Ok response /\
          (tabs_ok (store w) -> currentResponse (store w') = Some response)
    | Rejected e =>
        (r1 = Rejected e /\ tail = []) \/
        exists wire d,
          r1 = Ok wire /\
          tail = [call (send_http_request wire)] /\
          snd (backend _ (send_http_request wire) d) = Rejected e
    end.
Proof.
  intros Hprep Htr1 Hst1 Htk1 cur. rewrite sendRequest_phases.
  unfold try_finally, try_catch, mbind at 1, M_bind at 1. rewrite Hprep.
  destruct r1 as [wire|e].
  - assert (currentRequest (store w1) = cur) as Hcur
      by (rewrite Hst1; apply currentRequest_started).
    pose proof (send_dispatch_run wire w1) as Hdisp. cbv zeta in Hdisp.
    destruct (backend _ (send_http_request wire) (db w1)) as [d [response|e]] eqn:Hb.
    + destruct Hdisp as (w2 & rest & -> & Htr2 & Hrest & Hst2).
      rewrite Hcur, Htk1 in Htr2.
      eexists _, _, _. split; [reflexivity |].
      split; [cbn [trace on_store]; rewrite Htr2, Htr1, <- app_assoc; reflexivity |].
      exists wire, (db w1), response, rest.
      split; [reflexivity |]. split; [reflexivity |]. split; [exact Hrest |].
      split; [now rewrite Hb |].
      intros Hok. cbn [store on_store]. rewrite Hst2, Hst1.
      unfold currentResponse, set_isLoadingCurrent, set_currentResponse.
      change (activeTab (update_activeTab (set_isLoading false) ?s))
        with (activeTab (update_activeTab (set_isLoading false) s)).
      rewrite activeTab_update_activeTab.
      match goal with
      | |- context [activeTab (set_history ?h ?s)] =>
          change (activeTab (set_history h s)) with (activeTab s)
      end.
      rewrite activeTab_update_activeTab.
      match goal with
      | |- context [activeTab (set_heap ?h ?s)] =>
          change (activeTab (set_heap h s)) with (activeTab s)
      end.
      rewrite !activeTab_update_activeTab.
      destruct (activeTab_is_Some _ Hok) as [t ->]. reflexivity.
    + rewrite Hdisp. unfold_monad. cbn [store db trace ticks console].
      eexists _, _, _. split; [reflexivity |].
      split; [cbn [trace]; rewrite Htr1, <- app_assoc; reflexivity |].
      right. exists wire, (db w1).
      split; [reflexivity |]. split; [reflexivity | now rewrite Hb].
  - unfold_monad. cbn [store db trace ticks console].
    eexists _, _, []. split; [reflexivity |].
    split; [cbn [trace]; now rewrite app_nil_r |]. now left.
Qed.

(** C9. Within one send the calls are, in this order: the interpolation
    calls, then the dispatch, then the history. When the header objects of
    the draft are distinct, the interpolation calls are those of the URL, of
    the value of each header and of the non-empty body, in this order (none
    without an active environment; a rejected one ends the send, and the
    later ones and the dispatch are not issued), and the request that is
    dispatched is the draft with these values replaced by the answers. A
    send that returns has dispatched once and, after the response, has
    handed exactly one history entry to the history collaborator, with the
    draft's method and the response's status (that response is the one shown
    in the tab); at most the reload of the history follows. A send that
    throws (an interpolation or the HTTP call rejected) has handed over no
    history entry. *)
Theorem send_order_and_history (w : @World DB) :
  let cur := currentRequest (store w) in
  let w' := fst (sendRequest backend host w) in
  exists interps tail,
    trace w' = trace w ++ interps ++ tail /\
    forallb is_interpolate interps = true /\
    (headers_ok (store w) ->
     exists asked,
       interps = map interpolation_call asked /\
       asked `prefix_of` interpolation_texts (store w) /\
       (tail <> [] -> asked = interpolation_texts (store w))) /\
    match snd (sendRequest backend host w) with
    | Ok _ =>
        exists wire d response h rest,
          tail = [call (send_http_request wire); call (add_history h)] ++ rest /\
          (rest = [] \/ rest = [call (get_history 50)]) /\
          snd (backend _ (send_http_request wire) d) = Ok response /\
          (tabs_ok (store w) -> currentResponse (store w') = Some response) /\
          h_method h = method cur /\
          h_status h = status response /\
          appended (trace w') = appended (trace w) ++ [h] /\
          (headers_ok (store w) -> outbound_of backend (store w) wire)
    | Rejected e =>
        (tail = [] \/
         exists wire d,
           tail = [call (send_http_request wire)] /\
           snd (backend _ (send_http_request wire) d) = Rejected e /\
           (headers_ok (store w) -> outbound_of backend (store w) wire)) /\
        appended (trace w') = appended (trace w)
    end.
Proof.
  intros cur w'. subst w'.
  destruct (send_prepare_run w)
    as (w1 & r1 & interps & Hprep & Htr1 & Hint & Hst1 & Htk1 & _ & _).
  destruct (sendRequest_from_prepare w w1 r1 interps Hprep Htr1 Hst1 Htk1)
    as (w' & r & tail & Hrun & Htr & Hr).
  rewrite Hrun. cbn [fst snd].
  assert (headers_ok (store w) ->
          exists asked,
            interps = map interpolation_call asked /\
            asked `prefix_of` interpolation_texts (store w) /\
            forall wire, r1 = Ok wire ->
              asked = interpolation_texts (store w) /\
              outbound_of backend (store w) wire) as Htexts.
  { intros Hhok.
    destruct (send_prepare_texts w Hhok) as (w1' & r1' & asked & Hprep' & Htr1' & Hw).
    rewrite Hprep in Hprep'. injection Hprep' as <- <-.
    rewrite Htr1 in Htr1'. apply app_inv_head in Htr1'.
    exists asked. split; [exact Htr1' | exact Hw]. }
  exists interps, tail. split; [exact Htr |]. split; [exact Hint |].
  split.
  { intros Hhok. destruct (Htexts Hhok) as (asked & Hi & Hpre & Hdone).
    exists asked. split; [exact Hi |]. split; [exact Hpre |].
    intros Htail. destruct r as [[]|e].
    - destruct Hr as (wire & _ & _ & _ & Hr1 & _). exact (proj1 (Hdone wire Hr1)).
    - destruct Hr as [[_ ->] | (wire & _ & Hr1 & _)]; [congruence |].
      exact (proj1 (Hdone wire Hr1)). }
  destruct r as [[]|e].
  - destruct Hr as (wire & d & response & rest & Hr1 & -> & Hrest & Hb & Hresp).
    eexists wire, d, response, _, rest.
    split; [reflexivity |]. split; [exact Hrest |]. split; [exact Hb |].
    split; [exact Hresp |]. split; [reflexivity |]. split; [reflexivity |].
    split.
    + rewrite Htr, !appended_app, (appended_interpolations _ Hint).
      destruct Hrest as [-> | ->]; reflexivity.
    + intros Hhok. destruct (Htexts Hhok) as (asked & _ & _ & Hdone).
      exact (proj2 (Hdone wire Hr1)).
  - split.
    + destruct Hr as [[_ ->] | (wire & d & Hr1 & -> & Hb)]; [now left |].
      right. exists wire, d. split; [reflexivity |]. split; [exact Hb |].
      intros Hhok. destruct (Htexts Hhok) as (asked & _ & _ & Hdone).
      exact (proj2 (Hdone wire Hr1)).
    + rewrite Htr, !appended_app, (appended_interpolations _ Hint).
      destruct Hr as [[_ ->] | (wire & d & _ & -> & _)]; cbn; now rewrite app_nil_r.
Qed.

(** C3 (amended). With an active environment (and an interpolation command
    that answers as a function [f]), the request handed to the HTTP
    collaborator carries [f] of the URL, [f] of the value of every header,
    enabled or not, and [f] of the body whenever the body is not empty,
    whatever the body_type; without an active environment it is the draft as
    stored. *)
Theorem send_outbound_copy (w : @World DB) (f : string -> string) :
  let w' := fst (sendRequest backend host w) in
  (is_Some (activeEnvironment (store w)) ->
   interpolates_as backend f (db w) -> headers_ok (store w) ->
   dispatched (trace w') = dispatched (trace w) ++ [outbound f (store w)]) /\
  (activeEnvironment (store w) = None ->
   dispatched (trace w') = dispatched (trace w) ++ [stored_copy (store w)]).
Proof.
  intros w'. subst w'. split.
  - intros Henv Hpure Hok.
    destruct (send_prepare_pure f w Hpure Henv Hok)
      as (w1 & calls & Hprep & Htr1 & Hint & _).
    exact (proj1 (after_prepare w w1 _ calls Hprep Htr1 Hint)).
  - intros Henv.
    destruct (send_prepare_no_env w Henv) as (w1 & Hprep & Htr1 & _).
    exact (proj1 (after_prepare w w1 _ [] Hprep Htr1 eq_refl)).
Qed.

End Sending.

(** ** Opening a saved request *)

Section Opening.

Context {DB : Type}.
Variable backend : forall R, Cmd R -> DB -> DB * result R.
Variable host : Host.

Ltac unfold_monad :=
  cbv beta iota zeta delta
    [try_catch try_finally mbind M_bind mret M_ret gets modify invoke
     console_error randomUUID now tick throw on_store parse alloc].

Ltac step := cbv beta iota zeta; cbn [store db trace ticks console].















End Opening.

(** ** The properties on concrete runs *)

Section Scenarios.

Import Reference Scenario.

Let send := sendRequest backend host.

Lemma reference_interpolates (d : DB) :
  interpolates_as backend (fun text => interpolate text (active_variables d)) d.
Proof. intros text. reflexivity. Qed.

(** C3 as stated fails: with [dev] active, the value of the disabled header
    and the body of the body_type-none draft go out interpolated. *)
Lemma send_interpolates_disabled_header_and_body :
  let w := world disabled_header_draft seeded in
  currentHeaders (store w) = [mkKeyValue "X-Debug" "{{host}}" false] /\
  body_type (currentRequest (store w)) = "none" /\
  body (currentRequest (store w)) = "{{host}}" /\
  dispatched (trace (fst (send w)))
  = [mkHttpRequest "GET" "https://api.test/login"
       [mkKeyValue "X-Debug" "api.test" false] "api.test" "none" "none"
       empty_auth (Some [])].
Proof. repeat split. Qed.

Lemma send_outbound_copy_witness :
  let w := world disabled_header_draft seeded in
  is_Some (activeEnvironment (store w)) /\
  interpolates_as backend resolve (db w) /\
  headers_ok (store w) /\
  dispatched (trace (fst (send w))) = [outbound resolve (store w)].
Proof.
  intros w.
  assert (is_Some (activeEnvironment (store w))) as Henv by (now exists dev).
  assert (interpolates_as backend resolve (db w)) as Hpure
    by exact (reference_interpolates seeded).
  assert (headers_ok (store w)) as Hok.
  { split.
    - apply NoDup_singleton.
    - intros l [<- | []]. now eexists. }
  split; [exact Henv |]. split; [exact Hpure |]. split; [exact Hok |].
  exact (proj1 (send_outbound_copy backend host w resolve) Henv Hpure Hok).
Defined.

(** C4, at the failing input: after a send with [dev] active, the header of
    the stored draft holds the resolved token instead of the token; the
    draft's URL is as before. *)
Theorem send_rewrites_stored_header :
  let w := world bearer_draft seeded in
  let w' := fst (send w) in
  snd (send w) = Ok tt /\
  currentHeaders (store w) = [mkKeyValue "Authorization" "Bearer {{token}}" true] /\
  currentHeaders (store w') = [mkKeyValue "Authorization" "Bearer abc" true] /\
  url (currentRequest (store w')) = "https://{{host}}/login" /\
  currentIsDirty (store w') = false.
Proof. repeat split. Qed.

Lemma send_order_and_history_witness :
  let w := world disabled_header_draft seeded in
  let w' := fst (send w) in
  tabs_ok (store w) /\ headers_ok (store w) /\
  interpolation_texts (store w)
  = ["https://{{host}}/login"; "{{host}}"; "{{host}}"] /\
  trace w' =
    [call (interpolate_variables "https://{{host}}/login");
     call (interpolate_variables "{{host}}");
     call (interpolate_variables "{{host}}");
     call (send_http_request
             (mkHttpRequest "GET" "https://api.test/login"
                [mkKeyValue "X-Debug" "api.test" false] "api.test" "none" "none"
                empty_auth (Some [])));
     call (add_history (mkHistory "uuid-0" "GET" "https://{{host}}/login" 200 12 "t1"));
     call (get_history 50)] /\
  (exists tail wire,
     trace w' = map interpolation_call (interpolation_texts (store w)) ++ tail /\
     head tail = Some (call (send_http_request wire)) /\
     outbound_of backend (store w) wire) /\
  exists h response,
    appended (trace w') = [h] /\ h_method h = "GET" /\
    currentResponse (store w') = Some response /\ h_status h = status response.
Proof.
  intros w w'.
  assert (tabs_ok (store w)) as Hok by (unfold tabs_ok; cbn; lia).
  assert (headers_ok (store w)) as Hhok.
  { split.
    - apply NoDup_singleton.
    - intros l [<- | []]. now eexists. }
  split; [exact Hok |]. split; [exact Hhok |].
  split; [reflexivity |]. split; [reflexivity |].
  destruct (send_order_and_history backend host w)
    as (interps & tail & Htr & Hint & Htexts & Hr).
  change (snd (sendRequest backend host w)) with (@Ok unit tt) in Hr.
  destruct Hr as (wire & d & response & h & rest & Htail & _ & _ & Hresp & Hm & Hs
                  & Happ & Hwire).
  destruct (Htexts Hhok) as (asked & Hi & _ & Hall).
  split.
  - exists tail, wire. rewrite <- Hall, <- Hi by (rewrite Htail; discriminate).
    split; [exact Htr |]. split; [now rewrite Htail | exact (Hwire Hhok)].
  - exists h, response.
    split; [exact Happ |]. split; [exact Hm |].
    split; [exact (Hresp Hok) | exact Hs].
Defined.

Lemma history_records_draft_url_witness :
  let w := world login_open seeded in
  let w' := fst (send w) in
  snd (send w) = Ok tt /\
  exists h wire,
    appended (trace w') = [h] /\ dispatched (trace w') = [wire] /\
    h_url h = "https://{{host}}/login" /\
    url wire = "https://api.test/login".
Proof.
  intros w w'.
  assert (snd (send w) = Ok tt) as Hsent by reflexivity.
  split; [exact Hsent |].
  destruct (history_records_draft_url backend host w Hsent)
    as (h & wire & Happ & Hdisp & Hurl & Hwire).
  exists h, wire.
  split; [exact Happ |]. split; [exact Hdisp |]. split; [exact Hurl |].
  cbn in Hwire. destruct Hwire as (d1 & Hd1).
  now injection Hd1 as _ <-.
Defined.



(** C6 as stated fails for the two operations that look their target up in
    the mirror: while the environments have not been loaded, activating or
    updating the environment the backend does hold issues no call at all,
    neither the write nor the reload. *)
Lemma unknown_environment_issues_nothing :
  let w := world (initialStore "tab-0") seeded in
  db_environments (db w) = [dev] /\
  environments (store w) = [] /\
  setActiveEnvironment backend "e1" w = (w, Ok tt) /\
  updateEnvironment backend host "e1" "prod" [] w = (w, Ok tt) /\
  trace (fst (setActiveEnvironment backend "e1" w)) = trace w /\
  trace (fst (updateEnvironment backend host "e1" "prod" [] w)) = trace w.
Proof. repeat split. Qed.

Lemma write_then_reload_protocol_witness :
  let w := world login_open seeded in
  let staging := mkEnvironment "e1" "staging" "host=staging.test" true "t0" in
  find_environment "e1" (store w) = Some dev /\
  (* a write that resolves: the reload follows and fills the mirror *)
  (let w' := fst (updateEnvironment backend host "e1" "staging"
                    [mkEnvironmentVariable "host" "staging.test"] w) in
   trace w' = [call (save_environment staging); call get_all_environments] /\
   environments (store w') = [staging] /\
   activeEnvironment (store w') = Some staging) /\
  (* a write that rejects: no reload, the store is as before *)
  (let w' := fst (saveCurrentRequest backend host "Login" "no-such-collection" w) in
   store w' = store w /\
   trace w' = [call (save_request
                       (saved_request host "Login" "no-such-collection" w))]).
Proof.
  intros w staging.
  assert (find_environment "e1" (store w) = Some dev) as Hfind by reflexivity.
  destruct (write_then_reload_protocol backend host w)
    as (_ & _ & Hsave & _ & _ & _ & Hupdate & _).
  split; [exact Hfind |]. split.
  - specialize (Hupdate "e1" "staging" [mkEnvironmentVariable "host" "staging.test"]
                  dev Hfind).
    unfold write_then_reload in Hupdate. cbn [backend db w world] in Hupdate.
    cbv zeta. rewrite Hupdate. repeat split.
  - specialize (Hsave "Login" "no-such-collection").
    unfold write_then_reload in Hsave.
    change (backend unit (save_request (saved_request host "Login"
                                          "no-such-collection" w)) (db w))
      with (seeded, @Rejected unit "FOREIGN KEY constraint failed") in Hsave.
    destruct Hsave as (msg & Hsave). cbv zeta. rewrite Hsave. repeat split.
Defined.

End Scenarios.

(** * Further properties *)

(** ** Tabs: closing, switching, creating *)

Section MoreTabs.

Lemma splice1_in_range {A} (index : Z) (l : list A) :
  0 <= index < Z.of_nat (length l) -> splice1 index l = delete (Z.to_nat index) l.
Proof.
  intros [H0 Hlt]. unfold splice1.
  destruct (Z.ltb_spec index 0) as [E|E]; [lia |].
  now rewrite Z.min_l by lia.
Qed.

Lemma splice1_past_end {A} (index : Z) (l : list A) :
  Z.of_nat (length l) <= index -> splice1 index l = l.
Proof.
  intros Hge. unfold splice1.
  destruct (Z.ltb_spec index 0) as [E|E]; [lia |].
  rewrite Z.min_r by lia. rewrite Nat2Z.id.
  induction l as [|x l IH]; [reflexivity |]. cbn. f_equal.
  clear -l. induction l as [|y l IH]; [reflexivity |]. cbn. now f_equal.
Qed.

(** X1. Closing one of several displayed tabs removes exactly that tab and
    keeps the active index in range. When another tab than the active one
    is closed, the active tab stays the same tab; when the active tab is
    closed, the tab that followed it becomes active, or the new last tab
    when it was the last. *)
Theorem closeTab_retargets (index : Z) (s : Store) :
  tabs_ok s ->
  (2 <= length (openTabs s))%nat ->
  0 <= index < Z.of_nat (length (openTabs s)) ->
  let s' := closeTab index s in
  openTabs s' = delete (Z.to_nat index) (openTabs s) /\
  tabs_ok s' /\
  (activeTabIndex s <> index -> activeTab s' = activeTab s) /\
  (activeTabIndex s = index ->
   activeTab s' =
     if index + 1 <? Z.of_nat (length (openTabs s))
     then openTabs s !! Z.to_nat (index + 1)
     else openTabs s !! Z.to_nat (index - 1)).
Proof.
  intros [Ha0 Halt] Hlen [Hi0 Hilt] s'. subst s'.
  assert (length (delete (Z.to_nat index) (openTabs s))
          = (length (openTabs s) - 1)%nat) as Hdel
    by (apply length_delete, lookup_lt_is_Some; lia).
  unfold closeTab.
  destruct (Nat.eqb_spec (length (openTabs s)) 1) as [E|_]; [lia |].
  rewrite splice1_in_range by lia.
  cbn [openTabs set_openTabs activeTabIndex]. rewrite Hdel.
  destruct (Z.geb_spec (activeTabIndex s) (Z.of_nat (length (openTabs s) - 1)))
    as [Hge|Hlt].
  - (* the active tab was the last one *)
    assert (activeTabIndex s = Z.of_nat (length (openTabs s)) - 1) as Hact by lia.
    cbn [openTabs set_openTabs set_activeTabIndex activeTabIndex].
    split; [reflexivity |]. split; [unfold tabs_ok; cbn; rewrite Hdel; lia |].
    unfold activeTab, at_index.
    cbn [openTabs activeTabIndex set_openTabs set_activeTabIndex].
    destruct (Z.ltb_spec (Z.of_nat (length (openTabs s) - 1) - 1) 0) as [E|E]; [lia |].
    destruct (Z.ltb_spec (activeTabIndex s) 0) as [E'|E']; [lia |].
    split.
    + (* closed an earlier tab: the last tab is still the last *)
      intros Hne. rewrite list_lookup_delete_ge by lia. f_equal. lia.
    + intros Heq. destruct (Z.ltb_spec (index + 1) (Z.of_nat (length (openTabs s))))
        as [E''|E'']; [lia |].
      rewrite list_lookup_delete_lt by lia. f_equal. lia.
  - destruct (Z.gtb_spec (activeTabIndex s) index) as [Hgt|Hle].
    + cbn [openTabs set_openTabs set_activeTabIndex activeTabIndex].
      split; [reflexivity |]. split; [unfold tabs_ok; cbn; rewrite Hdel; lia |].
      unfold activeTab, at_index.
    cbn [openTabs activeTabIndex set_openTabs set_activeTabIndex].
      destruct (Z.ltb_spec (activeTabIndex s - 1) 0) as [E|E]; [lia |].
      destruct (Z.ltb_spec (activeTabIndex s) 0) as [E'|E']; [lia |].
      split; [|lia]. intros _.
      rewrite list_lookup_delete_ge by lia. f_equal. lia.
    + split; [reflexivity |]. split; [unfold tabs_ok; cbn; rewrite Hdel; lia |].
      unfold activeTab, at_index.
      cbn [openTabs activeTabIndex set_openTabs set_activeTabIndex].
      destruct (Z.ltb_spec (activeTabIndex s) 0) as [E'|E']; [lia |].
      split.
      * intros Hne. rewrite list_lookup_delete_lt by lia. reflexivity.
      * intros Heq.
        destruct (Z.ltb_spec (index + 1) (Z.of_nat (length (openTabs s))))
          as [E''|E'']; [|lia].
        rewrite list_lookup_delete_ge by lia. f_equal. lia.
Qed.

Lemma closeTab_retargets_witness :
  let tab := fun n => mkRequestTab n n defaultRequest None None false false in
  let s := set_activeTabIndex 1
             (set_openTabs [tab "a"; tab "b"; tab "c"] (initialStore "a")) in
  tabs_ok s /\ (2 <= length (openTabs s))%nat /\
  0 <= 1 < Z.of_nat (length (openTabs s)) /\
  openTabs (closeTab 1 s) = [tab "a"; tab "c"] /\
  activeTab (closeTab 1 s) = Some (tab "c") /\
  activeTab (closeTab 0 s) = Some (tab "b").
Proof.
  intros tab s.
  assert (tabs_ok s) as Hok by (unfold tabs_ok; cbn; lia).
  assert (2 <= length (openTabs s))%nat as Hlen by (cbn; lia).
  assert (0 <= 1 < Z.of_nat (length (openTabs s))) as Hin by (cbn; lia).
  split; [exact Hok |]. split; [exact Hlen |]. split; [exact Hin |].
  destruct (closeTab_retargets 1 s Hok Hlen Hin) as (Htabs & _ & _ & Hactive).
  split; [exact Htabs |]. split; [exact (Hactive eq_refl) |]. reflexivity.
Defined.

Lemma tabs_ok_update_activeTab (f : RequestTab -> RequestTab) (s : Store) :
  tabs_ok s -> tabs_ok (update_activeTab f s).
Proof.
  unfold tabs_ok, update_activeTab. cbn. now rewrite length_update_at.
Qed.

(** X2. The invariant that the active index designates an open tab is kept
    by every synchronous action on the tabs and the draft: switching (to any
    index; an index outside the list changes nothing), renaming, resetting
    the draft, closing a tab of index at least 0, and the edits of the
    request builder. *)
Theorem tabs_ok_kept (s : Store) :
  tabs_ok s ->
  (forall i, tabs_ok (switchTab i s)) /\
  (forall i, ~ (0 <= i < Z.of_nat (length (openTabs s))) -> switchTab i s = s) /\
  (forall i, 0 <= i < Z.of_nat (length (openTabs s)) ->
     switchTab i s = set_activeTabIndex i s) /\
  (forall i name, tabs_ok (updateTabName i name s)) /\
  tabs_ok (resetCurrentRequest s) /\
  (forall i, 0 <= i -> tabs_ok (closeTab i s)) /\
  (forall f, tabs_ok (edit_request f s)) /\
  (forall kv, tabs_ok (addHeader kv s)) /\
  (forall i v, tabs_ok (editHeaderValue i v s)).
Proof.
  intros Hok.
  assert (forall i, switchTab i s = s \/
                    (0 <= i < Z.of_nat (length (openTabs s)) /\
                     switchTab i s = set_activeTabIndex i s)) as Hsw.
  { intros i. unfold switchTab.
    destruct (Z.geb_spec i 0), (Z.ltb_spec i (Z.of_nat (length (openTabs s))));
      cbn; auto; right; split; solve [lia | reflexivity]. }
  split.
  { intros i. destruct (Hsw i) as [-> | [Hi ->]]; [exact Hok | exact Hi]. }
  split.
  { intros i Hout. destruct (Hsw i) as [-> | [Hi _]]; [reflexivity | tauto]. }
  split.
  { intros i Hi. unfold switchTab.
    destruct (Z.geb_spec i 0), (Z.ltb_spec i (Z.of_nat (length (openTabs s))));
      cbn; try reflexivity; lia. }
  split.
  { intros i name. unfold tabs_ok, updateTabName. cbn.
    rewrite length_update_at. apply Hok. }
  split.
  { unfold resetCurrentRequest, set_selectedRequestId, set_currentResponse,
      set_currentRequest. now repeat apply tabs_ok_update_activeTab. }
  split.
  { intros i Hi. apply (tabs_ok_closeTab i s Hi Hok). }
  split.
  { intros f. apply (tabs_ok_update_activeTab _ s Hok). }
  split.
  { intros kv. unfold addHeader. destruct (truthy (kv_key kv)); [|apply Hok].
    unfold edit_request. apply tabs_ok_update_activeTab. exact Hok. }
  intros i v. unfold editHeaderValue.
  destruct (headers (currentRequest s) !! i); apply Hok.
Qed.

Lemma tabs_ok_kept_witness :
  let s := initialStore "tab-0" in
  tabs_ok s /\
  tabs_ok (switchTab 7 s) /\ switchTab 7 s = s /\ switchTab (-1) s = s /\
  tabs_ok (closeTab 3 (resetCurrentRequest (updateTabName 0 "x" s))).
Proof.
  intros s.
  pose proof (tabs_ok_initial "tab-0") as Hok. fold s in Hok.
  destruct (tabs_ok_kept s Hok) as (Hsw & Hout & _ & Hname & _ & _).
  split; [exact Hok |]. split; [apply Hsw |].
  split; [apply Hout; cbn; lia |]. split; [apply Hout; cbn; lia |].
  pose proof (Hname 0 "x") as H1.
  destruct (tabs_ok_kept _ H1) as (_ & _ & _ & _ & Hreset & _).
  destruct (tabs_ok_kept _ Hreset) as (_ & _ & _ & _ & _ & Hclose & _).
  apply Hclose. lia.
Defined.

End MoreTabs.

(** ** Opening tabs, for any backend and host *)

Section MoreOpening.

Context {DB : Type}.
Variable backend : forall R, Cmd R -> DB -> DB * result R.
Variable host : Host.

Ltac unfold_monad :=
  cbv beta iota zeta delta
    [try_catch try_finally mbind M_bind mret M_ret gets modify invoke
     console_error randomUUID now tick throw on_store parse alloc].

Ltac step := cbv beta iota zeta; cbn [store db trace ticks console fst snd].

Lemma activeTab_last (s : Store) (t : RequestTab) (tabs : list RequestTab) :
  openTabs s = tabs ++ [t] -> activeTabIndex s = Z.of_nat (length tabs) ->
  activeTab s = Some t.
Proof.
  intros Htabs Hact. unfold activeTab, at_index. rewrite Htabs, Hact.
  destruct (Z.ltb_spec (Z.of_nat (length tabs)) 0) as [E|E]; [lia |].
  rewrite Nat2Z.id. apply list_lookup_middle. reflexivity.
Qed.

(** X3. [createNewTab] either appends exactly one tab (clean, without a
    response, not loading, with a fresh id) and makes it the active tab,
    leaving the tabs before it as they were, or throws, and then neither
    the tab list nor the active index has changed. It throws only for a
    request whose serialised headers or auth data do not parse; without a
    request the new tab holds the default draft. *)
Theorem createNewTab_appends (name : string) (req : option Request) (w : @World DB) :
  let w' := fst (createNewTab host name req w) in
  match snd (createNewTab host name req w) with
  | Ok _ =>
      exists t,
        openTabs (store w') = openTabs (store w) ++ [t] /\
        activeTab (store w') = Some t /\ tabs_ok (store w') /\
        tab_id t = randomUUID_at host (ticks w) /\
        tab_isDirty t = false /\ tab_isLoading t = false /\
        tab_response t = None /\
        match req with
        | Some r =>
            tab_requestId t = or_null (Some (req_id r)) /\
            tab_name t = or_else (req_name r) name /\
            method (tab_request t) = req_method r /\
            url (tab_request t) = req_url r /\
            body (tab_request t) = req_body r /\
            JSON_parse_headers host (or_else (req_headers r) "[]")
              = Some (deref (heap (store w')) (headers (tab_request t)))
        | None =>
            tab_requestId t = None /\ tab_name t = name /\
            tab_request t = defaultRequest
        end
  | Rejected _ =>
      openTabs (store w') = openTabs (store w) /\
      activeTabIndex (store w') = activeTabIndex (store w) /\
      exists r, req = Some r /\
        (JSON_parse_headers host (or_else (req_headers r) "[]") = None \/
         JSON_parse_auth host (or_else (req_auth_data r) "{}") = None)
  end.
Proof.
  intros w'. subst w'. unfold createNewTab, hydrate. unfold_monad.
  destruct req as [r|]; step.
  - destruct (JSON_parse_headers host (or_else (req_headers r) "[]")) as [kvs|] eqn:Hh;
      step.
    + destruct (JSON_parse_auth host (or_else (req_auth_data r) "{}")) as [auth|] eqn:Ha;
        step.
      * eexists. split; [reflexivity |].
        split; [eapply activeTab_last; [reflexivity |];
                cbn; rewrite length_app; cbn; lia |].
        split; [unfold tabs_ok; cbn; rewrite length_app; cbn; lia |].
        cbn. repeat (split; [reflexivity |]). f_equal.
        (* the parsed entries are the objects just allocated *)
        generalize (heap (store w)). intros h. unfold deref.
        clear. revert h. induction kvs as [|kv kvs IH]; intros h; [reflexivity |].
        cbn. rewrite lookup_app_r by lia. rewrite Nat.sub_diag. cbn. f_equal.
        specialize (IH (h ++ [kv])). rewrite length_app in IH. cbn in IH.
        rewrite <- app_assoc in IH. cbn in IH.
        replace (S (length h)) with (length h + 1)%nat by lia. exact IH.
      * cbn. repeat split. exists r. split; [reflexivity | now right].
    + cbn. repeat split. exists r. split; [reflexivity | now left].
  - eexists. split; [reflexivity |].
    split; [eapply activeTab_last; [reflexivity |];
            cbn; rewrite length_app; cbn; lia |].
    split; [unfold tabs_ok; cbn; rewrite length_app; cbn; lia |].
    cbn. repeat split.
Qed.

(** X4. What [loadRequest] does when the request cannot be loaded. A fetch
    that rejects is logged and leaves the store as it was; a fetch that finds
    nothing leaves the store as it was and logs nothing. When the request is
    not open yet and its serialised headers do not parse, the failure is
    logged; if a new tab was to be opened, the store is as before, but if the
    request was to be loaded into the active tab, that tab is already bound
    to the request, with its old draft. *)
Theorem loadRequest_failures (id : string) (openInNewTab : bool) (w : @World DB) :
  let w' := fst (loadRequest backend host id openInNewTab w) in
  match backend _ (get_request id) (db w) with
  | (d1, Rejected _) =>
      loadRequest backend host id openInNewTab w
      = (mkWorld (store w) d1 (trace w ++ [call (get_request id)]) (ticks w)
           (console w ++ ["Failed to load request:"]), Ok tt)
  | (d1, Ok None) =>
      loadRequest backend host id openInNewTab w
      = (mkWorld (store w) d1 (trace w ++ [call (get_request id)]) (ticks w)
           (console w), Ok tt)
  | (d1, Ok (Some r)) =>
      findIndex (bound_to id) (openTabs (store w)) = None ->
      JSON_parse_headers host (or_else (req_headers r) "[]") = None ->
      console w' = console w ++ ["Failed to load request:"] /\
      store w' = if opens_new_tab openInNewTab (store w) then store w
                 else set_selectedRequestId (Some id) (store w)
  end.
Proof.
  intros w'. subst w'. unfold loadRequest. unfold_monad.
  destruct (backend _ (get_request id) (db w)) as [d1 [[r|]|e]]; step;
    [|reflexivity..].
  intros Hfind Hparse. rewrite Hfind. step.
  fold (opens_new_tab openInNewTab (store w)).
  destruct (opens_new_tab openInNewTab (store w)); step.
  - unfold createNewTab, hydrate. unfold_monad. rewrite Hparse. step.
    split; reflexivity.
  - unfold hydrate. unfold_monad. rewrite Hparse. step. split; reflexivity.
Qed.

(** X5. A resolved [deleteRequest] of the request the active tab is bound to
    resets that tab (default draft, no response, no binding) but keeps its
    name and leaves it marked dirty; no other tab changes, so a second tab
    bound to the deleted request stays bound. When the active tab is not
    bound to the request, no tab changes. *)
Theorem deleteRequest_resets_active_tab (id collectionId : string) (w : @World DB)
    (d1 : DB) :
  backend _ (delete_request id) (db w) = (d1, Ok tt) ->
  let w' := fst (deleteRequest backend id collectionId w) in
  activeTabIndex (store w') = activeTabIndex (store w) /\
  (selectedRequestId (store w) = Some id ->
   openTabs (store w')
   = update_at deletedTab (activeTabIndex (store w)) (openTabs (store w))) /\
  (selectedRequestId (store w) <> Some id ->
   openTabs (store w') = openTabs (store w)).
Proof.
  intros Hb w'. subst w'.
  pose proof (deleteRequest_protocol backend id collectionId w) as Hp.
  unfold write_then_reload in Hp. rewrite Hb in Hp. rewrite Hp. clear Hp.
  destruct (loadRequestsByCollection_run backend collectionId
              (written w 0 (delete_request id) d1)) as (w2 & -> & Hst & _).
  cbn [fst store on_store]. rewrite Hst. unfold written. cbn [store].
  unfold unbind_deleted.
  change (selectedRequestId (set_requests ?r ?s)) with (selectedRequestId s).
  destruct (opt_eqb (selectedRequestId (store w)) (Some id)) eqn:Heq.
  - split; [reflexivity |]. split; [|intros Hne; exfalso].
    + intros _. unfold resetCurrentRequest, set_selectedRequestId,
        set_currentResponse, set_currentRequest, update_activeTab.
      cbn [openTabs activeTabIndex set_openTabs set_requests].
      unfold update_at.
      destruct (activeTabIndex (store w) <? 0); [reflexivity |].
      rewrite !list_alter_alter_eq. apply list_alter_ext; [|reflexivity].
      intros t _. reflexivity.
    + apply Hne. unfold opt_eqb in Heq.
      destruct (selectedRequestId (store w)) as [x|]; [|discriminate].
      apply String.eqb_eq in Heq. now subst.
  - split; [reflexivity |]. split; [|reflexivity].
    intros Hsel. rewrite Hsel in Heq. cbn in Heq.
    now rewrite String.eqb_refl in Heq.
Qed.

(** X6. After a resolved [saveCurrentRequest] the active tab is bound to the
    saved id, carries the given name and is clean, its draft untouched; and
    a further save from that tab persists under the same id, so it updates
    the saved request instead of creating another one. (The id is the one the
    tab was bound to, or else a fresh UUID, which must not be empty.) *)
Theorem save_then_save_same_id (name collectionId : string) (w : @World DB) (d1 : DB) :
  tabs_ok (store w) ->
  backend _ (save_request (saved_request host name collectionId w)) (db w)
    = (d1, Ok tt) ->
  truthy (saved_id host w) = true ->
  let w1 := fst (saveCurrentRequest backend host name collectionId w) in
  openTabs (store w1)
  = update_at (savedTab name (saved_id host w)) (activeTabIndex (store w))
      (openTabs (store w)) /\
  selectedRequestId (store w1) = Some (saved_id host w) /\
  currentRequest (store w1) = currentRequest (store w) /\
  forall name' collectionId',
    req_id (saved_request host name' collectionId' w1) = saved_id host w.
Proof.
  intros Hok Hb Hid w1. subst w1.
  pose proof (saveCurrentRequest_protocol backend host name collectionId w) as Hp.
  unfold write_then_reload in Hp. rewrite Hb in Hp. rewrite Hp. clear Hp.
  destruct (loadRequestsByCollection_run backend collectionId
              (written w (save_ticks w)
                 (save_request (saved_request host name collectionId w)) d1))
    as (w2 & -> & Hst & _).
  cbn [fst store on_store]. unfold written in Hst. cbn [store] in Hst.
  assert (openTabs (bind_saved name (saved_id host w) (store w2))
          = update_at (savedTab name (saved_id host w)) (activeTabIndex (store w))
              (openTabs (store w))) as Htabs.
  { rewrite Hst. unfold bind_saved, set_selectedRequestId, update_activeTab.
    cbn [openTabs activeTabIndex set_openTabs set_requests]. unfold update_at.
    destruct (activeTabIndex (store w) <? 0); [reflexivity |].
    rewrite !list_alter_alter_eq. apply list_alter_ext; [|reflexivity].
    intros t _. reflexivity. }
  assert (activeTab (bind_saved name (saved_id host w) (store w2))
          = savedTab name (saved_id host w) <$> activeTab (store w)) as Hactive.
  { unfold activeTab at 1. rewrite Htabs.
    change (activeTabIndex (bind_saved ?n ?i ?s)) with (activeTabIndex s).
    rewrite Hst. cbn [activeTabIndex set_requests].
    unfold activeTab, at_index, update_at.
    destruct (activeTabIndex (store w) <? 0); [reflexivity |].
    apply list_lookup_alter_eq. }
  destruct (activeTab_is_Some _ Hok) as [t Ht].
  assert (selectedRequestId (bind_saved name (saved_id host w) (store w2))
          = Some (saved_id host w)) as Hsel.
  { unfold selectedRequestId. rewrite Hactive, Ht. cbn.
    unfold or_null. cbn. now rewrite Hid. }
  split; [exact Htabs |]. split; [exact Hsel |]. split.
  - unfold currentRequest. rewrite Hactive, Ht. reflexivity.
  - intros name' cid'. unfold saved_request. cbn [req_id].
    unfold saved_id at 1. cbn [store on_store]. now rewrite Hsel.
Qed.

End MoreOpening.

(** ** The mirrors, for any backend *)

Section MoreMirrors.

Context {DB : Type}.
Variable backend : forall R, Cmd R -> DB -> DB * result R.
Variable host : Host.

Ltac unfold_monad :=
  cbv beta iota zeta delta
    [try_catch try_finally mbind M_bind mret M_ret gets modify invoke
     console_error randomUUID now tick throw on_store].

Ltac step := cbv beta iota zeta; cbn [store db trace ticks console fst snd].

Lemma loadRequestsByCollection_entries (collectionId : string) (w : @World DB) :
  let w1 := fst (loadRequestsByCollection backend collectionId w) in
  (forall k, k <> collectionId ->
     requests (store w1) !! k = requests (store w) !! k) /\
  (forall k, is_Some (requests (store w) !! k) -> is_Some (requests (store w1) !! k)).
Proof.
  unfold loadRequestsByCollection. unfold_monad.
  destruct (backend _ _ (db w)) as [d1 [rs|e]]; step; cbn [requests set_requests].
  - split.
    + intros k Hne. now rewrite lookup_insert_ne.
    + intros k Hk. destruct (decide (collectionId = k)) as [->|Hne].
      * rewrite lookup_insert_eq. now eexists.
      * now rewrite lookup_insert_ne.
  - split; auto.
Qed.

Lemma load_each_entries (cs : list Collection) :
  forall w : @World DB,
    let w1 := fst (for_each (fun c => loadRequestsByCollection backend (col_id c)) cs w) in
    (forall k, ~ In k (map col_id cs) ->
       requests (store w1) !! k = requests (store w) !! k) /\
    (forall k, is_Some (requests (store w) !! k) -> is_Some (requests (store w1) !! k)).
Proof.
  induction cs as [|c cs IH]; intros w; [cbn; auto |].
  cbv zeta. cbn [for_each]. unfold mbind, M_bind.
  destruct (loadRequestsByCollection_run backend (col_id c) w) as (w1 & Hrun & _).
  pose proof (loadRequestsByCollection_entries (col_id c) w) as [Hother Hkeep].
  rewrite Hrun in *. cbn [fst] in *.
  destruct (IH w1) as [Hother2 Hkeep2]. split.
  - intros k Hk. rewrite Hother2 by (intros Hin; apply Hk; now right).
    apply Hother. intros ->. apply Hk. now left.
  - intros k Hk. apply Hkeep2, Hkeep, Hk.
Qed.

(** X7. [loadCollections] never drops an entry of the per-collection request
    mirror: every key present before is present after. After a resolved
    listing the collections mirror is the reply, and the entry of every
    collection that is not in the reply (a deleted one) is exactly as it was;
    after a rejected listing the whole store is as it was. *)
Theorem loadCollections_keeps_entries (w : @World DB) :
  let w' := fst (loadCollections backend w) in
  dom (requests (store w)) ⊆ dom (requests (store w')) /\
  match backend _ get_all_collections (db w) with
  | (_, Ok cs) =>
      collections (store w') = cs /\
      forall k, ~ In k (map col_id cs) ->
        requests (store w') !! k = requests (store w) !! k
  | (_, Rejected _) => store w' = store w
  end.
Proof.
  intros w'. subst w'. unfold loadCollections. unfold_monad.
  destruct (backend _ get_all_collections (db w)) as [d1 [cs|e]]; step.
  - match goal with
    | |- context [for_each ?f cs ?w0] =>
        destruct (load_each_run backend cs w0) as (w1 & Hrun & Hst & _);
        pose proof (load_each_entries cs w0) as [Hother Hkeep]
    end.
    rewrite Hrun in *. cbn [fst store requests set_collections] in *.
    split; [|split].
    + intros k. rewrite !elem_of_dom. apply Hkeep.
    + rewrite Hst. reflexivity.
    + exact Hother.
  - split; [reflexivity | reflexivity].
Qed.

Lemma loadEnvironments_consistent (w : @World DB) :
  env_consistent (store w) ->
  env_consistent (store (fst (loadEnvironments backend w))).
Proof.
  intros Hc. unfold loadEnvironments. unfold_monad.
  destruct (backend _ get_all_environments (db w)) as [d1 [es|e]]; step.
  - reflexivity.
  - exact Hc.
Qed.

Lemma protocol_consistent (op reload : @M DB unit) (n : nat) (wcmd : Cmd unit)
    (w : @World DB) :
  write_then_reload backend op n wcmd reload (fun s => s) w ->
  (forall w1, env_consistent (store w1) -> env_consistent (store (fst (reload w1)))) ->
  env_consistent (store w) -> env_consistent (store (fst (op w))).
Proof.
  unfold write_then_reload. intros Hp Hreload Hc.
  destruct (backend unit wcmd (db w)) as [d1 [[]|e]].
  - rewrite Hp. cbn [fst]. rewrite on_store_id. apply Hreload. exact Hc.
  - destruct Hp as [msg ->]. exact Hc.
Qed.

(** X8. The active environment of the store is always the first environment
    of the mirror that is marked active: this holds initially and is kept by
    every environment action (load, save, update, activate, delete), whether
    its calls resolve or reject; a resolved reload establishes it from any
    state. *)
Theorem env_consistent_kept (w : @World DB) :
  (forall id, env_consistent (initialStore id)) /\
  (env_consistent (store w) ->
   env_consistent (store (fst (loadEnvironments backend w))) /\
   (forall name vars isActive,
      env_consistent (store (fst (saveEnvironment backend host name vars isActive w)))) /\
   (forall id name vars,
      env_consistent (store (fst (updateEnvironment backend host id name vars w)))) /\
   (forall id,
      env_consistent (store (fst (setActiveEnvironment backend id w)))) /\
   (forall id,
      env_consistent (store (fst (deleteEnvironment backend id w))))) /\
  (forall d es, backend _ get_all_environments (db w) = (d, Ok es) ->
     environments (store (fst (loadEnvironments backend w))) = es /\
     env_consistent (store (fst (loadEnvironments backend w)))).
Proof.
  split; [reflexivity |]. split.
  - intros Hc.
    split; [now apply loadEnvironments_consistent |].
    split.
    { intros name vars isActive.
      eapply protocol_consistent;
        [apply saveEnvironment_protocol | apply loadEnvironments_consistent | exact Hc]. }
    split.
    { intros id name vars.
      destruct (find_environment id (store w)) as [env|] eqn:Hfind.
      - eapply protocol_consistent;
          [apply (updateEnvironment_protocol backend host id name vars env w Hfind)
          | apply loadEnvironments_consistent | exact Hc].
      - now rewrite (proj1 (unknown_environment_noop backend host id name vars w Hfind)). }
    split.
    { intros id.
      destruct (find_environment id (store w)) as [env|] eqn:Hfind.
      - eapply protocol_consistent;
          [apply (setActiveEnvironment_protocol backend id env w Hfind)
          | apply loadEnvironments_consistent | exact Hc].
      - now rewrite (proj2 (unknown_environment_noop backend host id "" [] w Hfind)). }
    intros id.
    eapply protocol_consistent;
      [apply deleteEnvironment_protocol | apply loadEnvironments_consistent | exact Hc].
  - intros d es Hb. unfold loadEnvironments. unfold_monad. rewrite Hb. step.
    split; reflexivity.
Qed.

End MoreMirrors.

(** ** The end of a send, for any backend *)

Section MoreSending.

Context {DB : Type}.
Variable backend : forall R, Cmd R -> DB -> DB * result R.
Variable host : Host.

Ltac unfold_monad :=
  cbv beta iota zeta delta
    [try_catch try_finally mbind M_bind mret M_ret gets modify invoke
     console_error randomUUID now tick throw on_store].

Ltac step := cbv beta iota zeta; cbn [store db trace ticks console fst snd].

(** The store after a send, up to the heap and the history mirror. *)
Lemma send_prepare_no_env_exact (w : @World DB) :
  activeEnvironment (store w) = None ->
  send_prepare backend w
  = (mkWorld (set_currentResponse None (set_isLoadingCurrent true (store w)))
       (db w) (trace w) (ticks w) (console w),
     Ok (stored_copy (store w))).
Proof.
  intros Henv. unfold send_prepare. unfold_monad.
  cbn [store db trace ticks console].
  rewrite !currentRequest_started.
  change (activeEnvironment
            (set_currentResponse None (set_isLoadingCurrent true (store w))))
    with (activeEnvironment (store w)).
  rewrite Henv. step.
  rewrite interpolate_headers_no_env by exact Henv. step.
  rewrite !currentRequest_started.
  change (activeEnvironment
            (set_currentResponse None (set_isLoadingCurrent true (store w))))
    with (activeEnvironment (store w)).
  rewrite Henv. step. rewrite !currentRequest_started. reflexivity.
Qed.

(** *** What a send does to the header objects *)

Lemma values_rewritten_refl (ls : list nat) (h : list KeyValue) :
  values_rewritten ls h h.
Proof.
  split; [reflexivity |]. split; [reflexivity |].
  intros l kv Hl. exists (kv_value kv). rewrite Hl. now destruct kv.
Qed.

Lemma values_rewritten_trans (ls : list nat) (h1 h2 h3 : list KeyValue) :
  values_rewritten ls h1 h2 -> values_rewritten ls h2 h3 ->
  values_rewritten ls h1 h3.
Proof.
  intros (Hlen1 & Hout1 & Hin1) (Hlen2 & Hout2 & Hin2).
  split; [congruence |]. split.
  - intros l Hl. now rewrite Hout2, Hout1.
  - intros l kv Hkv. destruct (Hin1 l kv Hkv) as [v Hv].
    destruct (Hin2 l _ Hv) as [v' Hv']. exists v'. exact Hv'.
Qed.

Lemma values_rewritten_alter (ls : list nat) (h : list KeyValue) (l : nat)
    (v : string) :
  In l ls -> values_rewritten ls h (alter (with_value v) l h).
Proof.
  intros Hl. split; [apply length_alter |]. split.
  - intros l' Hl'. apply list_lookup_alter_ne. now intros ->.
  - intros l' kv Hkv. destruct (Nat.eq_dec l l') as [<- | Hne].
    + exists v. now rewrite list_lookup_alter_eq, Hkv.
    + exists (kv_value kv). rewrite list_lookup_alter_ne, Hkv by exact Hne.
      now destruct kv.
Qed.

Lemma interpolate_header_heap (ls : list nat) (l : nat) (w : @World DB) :
  In l ls ->
  values_rewritten ls (heap (store w))
    (heap (store (fst (interpolate_header backend l w)))).
Proof.
  intros Hl. unfold interpolate_header. unfold_monad.
  destruct (activeEnvironment (store w)) as [env|]; [|apply values_rewritten_refl].
  destruct (heap (store w) !! l) as [kv|]; [|apply values_rewritten_refl].
  destruct (backend _ _ (db w)) as [d1 [v|e]]; cbn [fst store heap set_heap].
  - now apply values_rewritten_alter.
  - apply values_rewritten_refl.
Qed.

Lemma interpolate_headers_heap (ls0 ls : list nat) :
  (forall l, In l ls -> In l ls0) ->
  forall w : @World DB,
    values_rewritten ls0 (heap (store w))
      (heap (store (fst (for_each (interpolate_header backend) ls w)))).
Proof.
  induction ls as [|l ls IH]; intros Hsub w; [apply values_rewritten_refl |].
  cbn [for_each]. unfold mbind, M_bind.
  pose proof (interpolate_header_heap ls0 l w (Hsub l (or_introl eq_refl))) as H1.
  destruct (interpolate_header backend l w) as [w1 [[]|e]]; cbn [fst] in *.
  - eapply values_rewritten_trans; [exact H1 |].
    apply IH. intros l' Hl'. apply Hsub. now right.
  - exact H1.
Qed.

Lemma send_prepare_heap (w : @World DB) :
  values_rewritten (headers (currentRequest (store w))) (heap (store w))
    (heap (store (fst (send_prepare backend w)))).
Proof.
  destruct (activeEnvironment (store w)) as [env|] eqn:Henv;
    [|rewrite (send_prepare_no_env_exact w Henv); apply values_rewritten_refl].
  set (cur := currentRequest (store w)).
  unfold send_prepare. unfold_monad. cbn [store db trace ticks console].
  rewrite !currentRequest_started. fold cur.
  change (activeEnvironment
            (set_currentResponse None (set_isLoadingCurrent true (store w))))
    with (activeEnvironment (store w)).
  rewrite Henv. step.
  destruct (backend _ (interpolate_variables (url cur)) (db w))
    as [d1 [url1|e]]; step; [|apply values_rewritten_refl].
  rewrite ?currentRequest_started. fold cur.
  match goal with
  | |- context [for_each ?g ?ls ?w0] =>
      pose proof (interpolate_headers_heap ls ls (fun _ H => H) w0) as Hheap;
      destruct (interpolate_headers_run backend ls w0)
        as (w2 & r2 & c2 & Hrun & _ & _ & Hst2 & _)
  end.
  rewrite Hrun in *. cbn [fst store] in Hheap.
  change (heap (set_currentResponse None (set_isLoadingCurrent true (store w))))
    with (heap (store w)) in Hheap.
  cbn [store db trace ticks console] in Hst2.
  assert (currentRequest (store w2) = cur) as Hcur
    by (rewrite Hst2; apply currentRequest_started).
  assert (activeEnvironment (store w2) = Some env) as Henv2
    by (rewrite Hst2; exact Henv).
  destruct r2 as [[]|e]; step; [|exact Hheap].
  rewrite Hcur, Henv2.
  destruct (truthy (body cur)); step; [|exact Hheap].
  destruct (backend _ (interpolate_variables (body cur)) (db w2))
    as [d3 [body1|e]]; step; exact Hheap.
Qed.

Lemma sendRequest_store (w : @World DB) :
  let started := set_currentResponse None (set_isLoadingCurrent true (store w)) in
  let w' := fst (sendRequest backend host w) in
  exists hp,
    hp = heap (store (fst (send_prepare backend w))) /\
    match snd (sendRequest backend host w) with
    | Ok _ =>
        exists hist response,
          store w' = set_isLoadingCurrent false
                       (set_history hist
                          (set_currentResponse (Some response) (set_heap hp started)))
    | Rejected _ => store w' = set_isLoadingCurrent false (set_heap hp started)
    end.
Proof.
  intros started w'. subst w'.
  destruct (sendRequest backend host w) as [w' r] eqn:Hrun. cbn [fst snd].
  rewrite sendRequest_phases in Hrun.
  destruct (send_prepare_run backend w)
    as (w1 & r1 & interps & Hprep & _ & _ & Hst1 & _).
  fold started in Hst1.
  unfold try_finally, try_catch, mbind at 1, M_bind at 1 in Hrun.
  rewrite Hprep in Hrun. exists (heap (store w1)). split; [now rewrite Hprep |].
  destruct r1 as [wire|e].
  - pose proof (send_dispatch_run backend host wire w1) as Hdisp. cbv zeta in Hdisp.
    destruct (backend _ (send_http_request wire) (db w1)) as [d [response|e]].
    + destruct Hdisp as (w2 & rest & Hd & _ & _ & Hst2).
      rewrite Hd in Hrun. cbv beta iota zeta in Hrun. injection Hrun as <- <-.
      exists (history (store w2)), response.
      cbn [store on_store]. now rewrite Hst2, Hst1.
    + rewrite Hdisp in Hrun.
      unfold mbind, M_bind, console_error, throw in Hrun.
      cbv beta iota zeta in Hrun. injection Hrun as <- <-.
      cbn [store on_store]. now rewrite Hst1.
  - unfold mbind, M_bind, console_error, throw in Hrun.
    cbv beta iota zeta in Hrun. injection Hrun as <- <-.
    cbn [store on_store]. now rewrite Hst1.
Qed.

Lemma lookup_update_at_ne {A} (f : A -> A) (i : Z) (l : list A) (j : nat) :
  Z.of_nat j <> i -> update_at f i l !! j = l !! j.
Proof.
  intros Hne. unfold update_at. destruct (Z.ltb_spec i 0); [reflexivity |].
  apply list_lookup_alter_ne. lia.
Qed.

(** X9. However a send ends, for any backend: the active tab is not loading
    any more; its draft record (method, URL, body, body and auth types, and
    which header objects it holds) is the one from before; the records of
    the other tabs, the tab list and the active index, and the collections,
    requests and environments mirrors are as before. Of the header objects,
    only values can have been rewritten, and only of objects that the active
    draft holds: every object keeps its key and its enabled flag, the
    objects that the active draft does not hold are untouched (so the
    headers of every other tab that shares no object with it read as
    before), and without an active environment no object changes. A send
    that throws leaves the active tab without a response. *)
Theorem sendRequest_end_state (w : @World DB) :
  let s := store w in
  let s' := store (fst (sendRequest backend host w)) in
  isLoading s' = false /\
  currentRequest s' = currentRequest s /\
  length (openTabs s') = length (openTabs s) /\
  activeTabIndex s' = activeTabIndex s /\
  (forall j, Z.of_nat j <> activeTabIndex s -> openTabs s' !! j = openTabs s !! j) /\
  collections s' = collections s /\ requests s' = requests s /\
  environments s' = environments s /\ activeEnvironment s' = activeEnvironment s /\
  (forall e, snd (sendRequest backend host w) = Rejected e ->
     currentResponse s' = None) /\
  values_rewritten (headers (currentRequest s)) (heap s) (heap s') /\
  (activeEnvironment s = None -> heap s' = heap s) /\
  (forall j t, Z.of_nat j <> activeTabIndex s -> openTabs s !! j = Some t ->
     (forall l, In l (headers (tab_request t)) ->
                ~ In l (headers (currentRequest s))) ->
     openTabs s' !! j = Some t /\
     deref (heap s') (headers (tab_request t))
     = deref (heap s) (headers (tab_request t))).
Proof.
  intros s s'. subst s s'.
  destruct (sendRequest_store w) as (hp & Hhp & Hst). cbv zeta in Hst.
  pose proof (send_prepare_heap w) as Hheap. rewrite <- Hhp in Hheap.
  assert (activeEnvironment (store w) = None -> hp = heap (store w)) as Hnoenv.
  { intros Henv. rewrite Hhp, (send_prepare_no_env_exact w Henv). reflexivity. }
  clear Hhp.
  assert (forall x, isLoading (update_activeTab (set_isLoading false) x) = false)
    as Hload.
  { intros x. unfold isLoading. rewrite activeTab_update_activeTab.
    now destruct (activeTab x). }
  assert (forall ls, (forall l, In l ls ->
                        ~ In l (headers (currentRequest (store w)))) ->
                     deref hp ls = deref (heap (store w)) ls) as Hothers.
  { intros ls Hdisj. apply deref_ext. intros l Hl.
    apply (proj1 (proj2 Hheap)). now apply Hdisj. }
  destruct (snd (sendRequest backend host w)) as [[]|e].
  - destruct Hst as (hist & response & ->).
    unfold set_isLoadingCurrent, set_currentResponse.
    split; [apply Hload |].
    split.
    { rewrite currentRequest_update_activeTab by reflexivity.
      change (currentRequest (set_history ?h ?x)) with (currentRequest x).
      rewrite currentRequest_update_activeTab by reflexivity.
      change (currentRequest (set_heap ?h ?x)) with (currentRequest x).
      now rewrite !currentRequest_update_activeTab. }
    split; [cbn; now rewrite !length_update_at |].
    split; [reflexivity |].
    split; [intros j Hj; cbn; now rewrite !lookup_update_at_ne |].
    repeat (split; [reflexivity |]).
    split; [intros e He; discriminate He |].
    split; [exact Hheap |]. split; [exact Hnoenv |].
    intros j t Hj Ht Hdisj. split; [|apply Hothers, Hdisj].
    cbn. now rewrite !lookup_update_at_ne.
  - rewrite Hst. unfold set_isLoadingCurrent, set_currentResponse.
    split; [apply Hload |].
    split.
    { rewrite currentRequest_update_activeTab by reflexivity.
      change (currentRequest (set_heap ?h ?x)) with (currentRequest x).
      now rewrite !currentRequest_update_activeTab. }
    split; [cbn; now rewrite !length_update_at |].
    split; [reflexivity |].
    split; [intros j Hj; cbn; now rewrite !lookup_update_at_ne |].
    repeat (split; [reflexivity |]).
    split.
    { intros e' _.
      unfold currentResponse. rewrite activeTab_update_activeTab.
      change (activeTab (set_heap ?h ?x)) with (activeTab x).
      rewrite !activeTab_update_activeTab.
      now destruct (activeTab (store w)). }
    split; [exact Hheap |]. split; [exact Hnoenv |].
    intros j t Hj Ht Hdisj. split; [|apply Hothers, Hdisj].
    cbn. now rewrite !lookup_update_at_ne.
Qed.

(** X10. Recording the history cannot fail a send. Without an active
    environment, when the HTTP call resolves, [sendRequest] returns normally
    and the active tab shows the response, whatever becomes of the history
    calls: if [add_history] rejects, the failure is logged and the history
    mirror is as before; if it resolves, the mirror is the reply of
    [get_history] with limit 50, or as before when that rejects. *)
Theorem send_survives_history_failure (w : @World DB) (d : DB)
    (response : HttpResponse) :
  activeEnvironment (store w) = None ->
  tabs_ok (store w) ->
  backend _ (send_http_request (stored_copy (store w))) (db w) = (d, Ok response) ->
  let cur := currentRequest (store w) in
  let entry := mkHistory (randomUUID_at host (ticks w)) (method cur) (url cur)
                 (status response) (response_time response)
                 (toISOString_at host (S (ticks w))) in
  let w' := fst (sendRequest backend host w) in
  snd (sendRequest backend host w) = Ok tt /\
  currentResponse (store w') = Some response /\
  match backend _ (add_history entry) d with
  | (_, Rejected _) =>
      history (store w') = history (store w) /\
      console w' = console w ++ ["Failed to add history:"]
  | (d2, Ok _) =>
      match backend _ (get_history 50) d2 with
      | (_, Ok entries) => history (store w') = entries
      | (_, Rejected _) =>
          history (store w') = history (store w) /\
          console w' = console w ++ ["Failed to load history:"]
      end
  end.
Proof.
  intros Henv Hok Hsend cur entry w'. subst w' entry cur.
  remember (sendRequest backend host w) as res eqn:Hres.
  rewrite sendRequest_phases in Hres.
  unfold try_finally, try_catch, mbind at 1, M_bind at 1 in Hres.
  rewrite (send_prepare_no_env_exact w Henv) in Hres.
  unfold send_dispatch, addHistory, loadHistory in Hres.
  cbv beta iota zeta delta
    [try_catch try_finally mbind M_bind mret M_ret gets modify invoke
     console_error randomUUID now tick throw on_store] in Hres.
  cbn [store db trace ticks console fst snd] in Hres.
  rewrite Hsend in Hres.
  cbv beta iota zeta in Hres. cbn [store db trace ticks console fst snd] in Hres.
  assert (currentRequest
            (set_currentResponse (Some response)
               (set_currentResponse None (set_isLoadingCurrent true (store w))))
          = currentRequest (store w)) as Hcur.
  { unfold set_currentResponse at 1.
    rewrite currentRequest_update_activeTab by reflexivity.
    apply currentRequest_started. }
  rewrite !Hcur in Hres.
  assert (forall x y,
            activeTab y = set_response (Some response) <$> activeTab x ->
            tabs_ok x ->
            currentResponse (set_isLoadingCurrent false y) = Some response) as Hresp.
  { intros x y Hy Hx. unfold currentResponse, set_isLoadingCurrent.
    rewrite activeTab_update_activeTab, Hy.
    destruct (activeTab_is_Some _ Hx) as [t ->]. reflexivity. }
  assert (tabs_ok (set_currentResponse None (set_isLoadingCurrent true (store w))))
    as Hok1.
  { unfold set_currentResponse, set_isLoadingCurrent.
    now repeat apply tabs_ok_update_activeTab. }
  destruct (backend _ (add_history _) d) as [d2 [[]|e]];
    cbv beta iota zeta in Hres; cbn [store db trace ticks console fst snd] in Hres.
  - destruct (backend _ (get_history 50) d2) as [d3 [entries|e]];
      cbv beta iota zeta in Hres; cbn [store db trace ticks console fst snd] in Hres;
      subst res; cbn [fst snd store console].
    + split; [reflexivity |]. split; [|reflexivity].
      eapply Hresp; [|exact Hok1].
      change (activeTab (set_history ?h ?y)) with (activeTab y).
      apply activeTab_update_activeTab.
    + split; [reflexivity |]. split; [|split; reflexivity].
      eapply Hresp; [|exact Hok1]. apply activeTab_update_activeTab.
  - subst res. cbn [fst snd store console].
    split; [reflexivity |]. split; [|split; reflexivity].
    eapply Hresp; [|exact Hok1]. apply activeTab_update_activeTab.
Qed.

(** X19. [clearHistory] never throws and issues the single call
    [clear_history]. When the call resolves the history mirror is emptied,
    without a reload, and nothing else of the store changes; when it is
    rejected the store is left as it was and the failure is logged. *)
Theorem clearHistory_outcome (w : @World DB) :
  let w' := fst (clearHistory backend w) in
  snd (clearHistory backend w) = Ok tt /\
  trace w' = trace w ++ [call clear_history] /\
  match backend _ clear_history (db w) with
  | (_, Ok _) => store w' = set_history [] (store w) /\ console w' = console w
  | (_, Rejected _) =>
      store w' = store w /\
      console w' = console w ++ ["Failed to clear history:"]
  end.
Proof.
  unfold clearHistory. unfold_monad. step.
  destruct (backend _ clear_history (db w)) as [d [u|e]]; step; auto.
Qed.

End MoreSending.

(** ** The header rows of the request builder *)

Section MoreHeaders.

Lemma currentRequest_edit_request (f : HttpRequest -> HttpRequest) (s : Store) :
  tabs_ok s -> currentRequest (edit_request f s) = f (currentRequest s).
Proof.
  intros Hok. unfold currentRequest, edit_request.
  rewrite activeTab_update_activeTab.
  destruct (activeTab_is_Some _ Hok) as [t ->]. reflexivity.
Qed.

Lemma deref_app (h : list KeyValue) (a b : list nat) :
  deref h (a ++ b) = deref h a ++ deref h b.
Proof.
  induction a as [|l a IH]; [reflexivity |].
  cbn [app]. rewrite !deref_cons, IH. now destruct (h !! l).
Qed.

Lemma deref_valid_length (h : list KeyValue) (ls : list nat) :
  (forall l, In l ls -> is_Some (h !! l)) -> length (deref h ls) = length ls.
Proof.
  induction ls as [|l ls IH]; intros Hv; [reflexivity |].
  rewrite deref_cons. destruct (Hv l (or_introl eq_refl)) as [kv ->].
  cbn. f_equal. apply IH. intros l' Hl'. apply Hv. now right.
Qed.

Lemma deref_delete (h : list KeyValue) (ls : list nat) (n : nat) :
  (forall l, In l ls -> is_Some (h !! l)) ->
  deref h (delete n ls) = delete n (deref h ls).
Proof.
  revert n. induction ls as [|l ls IH]; intros n Hv; [now destruct n |].
  destruct (Hv l (or_introl eq_refl)) as [kv Hkv].
  destruct n as [|n]; cbn [delete list_delete].
  - now rewrite deref_cons, Hkv.
  - rewrite !deref_cons, Hkv. cbn [delete list_delete]. f_equal.
    apply IH. intros l' Hl'. apply Hv. now right.
Qed.

Lemma deref_alter (g : KeyValue -> KeyValue) (h : list KeyValue) (ls : list nat)
    (i l : nat) :
  NoDup ls -> (forall l', In l' ls -> is_Some (h !! l')) ->
  ls !! i = Some l ->
  deref (alter g l h) ls = alter g i (deref h ls).
Proof.
  revert i. induction ls as [|l0 ls IH]; intros i Hnd Hv Hi; [discriminate |].
  apply NoDup_cons in Hnd as [Hnotin Hnd].
  destruct (Hv l0 (or_introl eq_refl)) as [kv Hkv].
  destruct i as [|i]; cbn in Hi.
  - injection Hi as ->.
    rewrite !deref_cons, list_lookup_alter_eq, Hkv. cbn. f_equal.
    apply deref_ext. intros l' Hl'. apply list_lookup_alter_ne.
    intros ->. apply Hnotin. now apply list_elem_of_In.
  - assert (l0 <> l) as Hne.
    { intros ->. apply Hnotin. eapply list_elem_of_lookup_2. exact Hi. }
    rewrite !deref_cons, list_lookup_alter_ne, Hkv by congruence. cbn. f_equal.
    apply IH; [exact Hnd | | exact Hi]. intros l' Hl'. apply Hv. now right.
Qed.

(** X11. [addHeader] ignores a row with an empty key. Otherwise, on a store
    whose active index is valid and whose header objects are distinct, it
    appends exactly that row to the headers of the active draft, the rows
    before it unchanged, and the header objects stay distinct. *)
Theorem addHeader_appends (newHeader : KeyValue) (s : Store) :
  (truthy (kv_key newHeader) = false -> addHeader newHeader s = s) /\
  (truthy (kv_key newHeader) = true -> tabs_ok s -> headers_ok s ->
   currentHeaders (addHeader newHeader s) = currentHeaders s ++ [newHeader] /\
   headers_ok (addHeader newHeader s)).
Proof.
  unfold addHeader. split; [now intros -> |].
  intros -> Hok [Hnd Hv].
  assert (tabs_ok (set_heap (heap s ++ [newHeader]) s)) as Hok' by exact Hok.
  assert (forall l, In l (headers (currentRequest s)) -> (l < length (heap s))%nat)
    as Hlt by (intros l Hl; now apply lookup_lt_is_Some, Hv).
  split.
  - unfold currentHeaders. rewrite (currentRequest_edit_request _ _ Hok').
    change (currentRequest (set_heap ?h ?x)) with (currentRequest x).
    change (heap (edit_request ?f (set_heap ?h ?x))) with h.
    cbn [headers with_headers]. rewrite deref_app. f_equal.
    + apply deref_ext. intros l Hl. apply lookup_app_l. now apply Hlt.
    + rewrite deref_cons, list_lookup_middle by reflexivity. reflexivity.
  - unfold headers_ok. rewrite (currentRequest_edit_request _ _ Hok').
    change (currentRequest (set_heap ?h ?x)) with (currentRequest x).
    change (heap (edit_request ?f (set_heap ?h ?x))) with h.
    cbn [headers with_headers]. split.
    + apply NoDup_app. split; [exact Hnd |]. split; [|apply NoDup_singleton].
      intros l Hl Hin. apply list_elem_of_singleton in Hin. subst l.
      apply list_elem_of_In, Hlt in Hl. lia.
    + intros l Hl. apply in_app_or in Hl as [Hl | [<- | []]].
      * apply lookup_lt_is_Some. rewrite length_app. specialize (Hlt l Hl). cbn. lia.
      * apply lookup_lt_is_Some. rewrite length_app. cbn. lia.
Qed.

(** X12. On such a store, [removeHeader(index)] acts on the displayed header
    rows as [splice(index, 1)] does on a list (a negative index counts from
    the end, an index past the end removes nothing), and the header objects
    stay distinct. *)
Theorem removeHeader_splices (index : Z) (s : Store) :
  tabs_ok s -> headers_ok s ->
  currentHeaders (removeHeader index s) = splice1 index (currentHeaders s) /\
  headers_ok (removeHeader index s).
Proof.
  intros Hok [Hnd Hv]. unfold removeHeader.
  split.
  - unfold currentHeaders. rewrite (currentRequest_edit_request _ _ Hok).
    change (heap (edit_request ?f ?x)) with (heap x).
    cbn [headers with_headers]. unfold splice1.
    rewrite (deref_valid_length _ _ Hv). now apply deref_delete.
  - unfold headers_ok. rewrite (currentRequest_edit_request _ _ Hok).
    change (heap (edit_request ?f ?x)) with (heap x).
    cbn [headers with_headers]. unfold splice1. split.
    + eapply sublist_NoDup; [exact Hnd | apply sublist_delete].
    + intros l Hl. apply Hv. apply list_elem_of_In.
      eapply elem_of_sublist; [apply list_elem_of_In, Hl | apply sublist_delete].
Qed.

(** X13. On a store whose header objects are distinct, editing the value of
    row [i] changes the value of that row of the displayed headers and
    nothing else of them (no row at [i]: nothing changes), and the header
    objects stay distinct. *)
Theorem editHeaderValue_alters_row (i : nat) (v : string) (s : Store) :
  headers_ok s ->
  currentHeaders (editHeaderValue i v s) = alter (with_value v) i (currentHeaders s) /\
  headers_ok (editHeaderValue i v s).
Proof.
  intros [Hnd Hv]. unfold editHeaderValue.
  destruct (headers (currentRequest s) !! i) as [l|] eqn:Hi.
  - split.
    + unfold currentHeaders.
      change (currentRequest (set_heap ?h ?x)) with (currentRequest x).
      cbn [heap set_heap]. now apply (deref_alter (with_value v)).
    + unfold headers_ok.
      change (currentRequest (set_heap ?h ?x)) with (currentRequest x).
      cbn [heap set_heap]. split; [exact Hnd |].
      intros l' Hl'. apply lookup_lt_is_Some. rewrite length_alter.
      now apply lookup_lt_is_Some, Hv.
  - split; [|now split].
    apply lookup_ge_None in Hi. unfold currentHeaders.
    rewrite <- (deref_valid_length _ _ Hv) in Hi.
    symmetry. generalize dependent i.
    induction (deref (heap s) (headers (currentRequest s))) as [|kv kvs IH];
      intros i Hi; [now destruct i |].
    destruct i as [|i]; cbn in Hi; [lia |]. cbn. f_equal. apply IH. lia.
Qed.

End MoreHeaders.

(** ** The generated command line *)

Section MoreCurl.

Lemma string_app_cons (c : ascii) (a b : string) :
  String c a +:+ b = String c (a +:+ b).
Proof. reflexivity. Qed.

Lemma string_app_nil_l (b : string) : "" +:+ b = b.
Proof. reflexivity. Qed.

Ltac sapp := rewrite ?string_app_cons, ?string_app_nil_l.

Lemma string_app_nil_r (a : string) : a +:+ "" = a.
Proof. induction a as [|c a IH]; [reflexivity | sapp; now rewrite IH]. Qed.

Lemma string_app_assoc (a b c : string) : (a +:+ b) +:+ c = a +:+ (b +:+ c).
Proof. induction a as [|x a IH]; [reflexivity | sapp; now rewrite IH]. Qed.

Lemma string_length_app (a b : string) :
  String.length (a +:+ b) = (String.length a + String.length b)%nat.
Proof.
  induction a as [|x a IH]; [reflexivity |].
  sapp. cbn [String.length]. now rewrite IH.
Qed.

Lemma quotes_app (a b : string) : quotes (a +:+ b) = (quotes a + quotes b)%nat.
Proof.
  induction a as [|x a IH]; [reflexivity |].
  sapp. cbn [quotes]. rewrite IH. lia.
Qed.

Lemma sh_word_open (r : string) :
  sh_word Unquoted (String squote r) = sh_word Quoted r.
Proof. reflexivity. Qed.

Lemma sh_word_close (r : string) :
  sh_word Quoted (String squote r) = sh_word Unquoted r.
Proof. reflexivity. Qed.

Lemma sh_word_backslash (r : string) :
  sh_word Unquoted (String "\"%char r) = sh_word Escaped r.
Proof. reflexivity. Qed.

Lemma sh_word_escaped (c : ascii) (r : string) :
  sh_word Escaped (String c r) = String c <$> sh_word Unquoted r.
Proof. reflexivity. Qed.

Lemma sh_word_escape_quotes (b rest out : string) :
  sh_word Unquoted rest = Some out ->
  sh_word Quoted (escape_quotes b +:+ String squote rest) = Some (b +:+ out).
Proof.
  intros Hrest. induction b as [|c b IH].
  - cbn [escape_quotes]. sapp. now rewrite sh_word_close.
  - cbn [escape_quotes]. destruct (Ascii.eqb c squote) eqn:Hc.
    + apply Ascii.eqb_eq in Hc. subst c.
      rewrite !string_app_cons, string_app_nil_l.
      rewrite sh_word_close, sh_word_backslash, sh_word_escaped, sh_word_open, IH.
      reflexivity.
    + sapp. cbn [sh_word]. rewrite Hc, IH. reflexivity.
Qed.

Lemma sh_word_length (s : string) :
  forall m out, sh_word m s = Some out ->
  (String.length out + quotes s
   <= String.length s + match m with Escaped => 1 | _ => 0 end)%nat.
Proof.
  induction s as [|c s IH]; intros m out H.
  - destruct m; cbn in H; try discriminate. injection H as <-. cbn. lia.
  - cbn [quotes String.length]. destruct m; cbn [sh_word] in H.
    + destruct (Ascii.eqb c squote) eqn:Hq.
      * specialize (IH _ _ H). cbn in IH. lia.
      * destruct (Ascii.eqb c "\"%char).
        -- specialize (IH _ _ H). cbn in IH. lia.
        -- destruct (sh_word Unquoted s) as [o|] eqn:Ho; [|discriminate].
           injection H as <-. specialize (IH _ _ Ho). cbn in *. lia.
    + destruct (sh_word Unquoted s) as [o|] eqn:Ho; [|discriminate].
      injection H as <-. specialize (IH _ _ Ho). cbn in *.
      destruct (Ascii.eqb c squote); lia.
    + destruct (Ascii.eqb c squote) eqn:Hq.
      * specialize (IH _ _ H). cbn in IH. lia.
      * destruct (sh_word Quoted s) as [o|] eqn:Ho; [|discriminate].
        injection H as <-. specialize (IH _ _ Ho). cbn in *. lia.
Qed.

Lemma sh_word_plain (u : string) :
  quotes u = O -> sh_word Quoted (u +:+ "'") = Some u.
Proof.
  induction u as [|c u IH]; intros Hq; [reflexivity |].
  cbn [quotes] in Hq. sapp. cbn [sh_word].
  destruct (Ascii.eqb c squote); [discriminate |].
  rewrite IH by lia. reflexivity.
Qed.

Lemma join_cons (sep p : string) (ps : list string) :
  ps <> [] -> join sep (p :: ps) = p +:+ sep +:+ join sep ps.
Proof. destruct ps; [congruence | reflexivity]. Qed.

Lemma join_snoc (sep u : string) (ps : list string) :
  exists before, join sep (ps ++ [u]) = before +:+ u.
Proof.
  induction ps as [|p ps [before IH]]; [now exists "" |].
  exists (p +:+ sep +:+ before). cbn [app].
  rewrite join_cons by (now destruct ps).
  now rewrite IH, !string_app_assoc.
Qed.

(** X14. When the draft has a non-empty body and a body type other than
    none, the first part that [generateCurl] emits for the body is [-d]
    followed by a word that a POSIX shell reads back as exactly the body,
    whatever single quotes the body contains. *)
Theorem curl_body_reads_back (r : HttpRequest) (hs : list KeyValue) :
  truthy (body r) = true ->
  String.eqb (body_type r) "none" = false ->
  exists word rest,
    curl_body r hs = ("-d " +:+ word) :: rest /\
    sh_word Unquoted word = Some (body r).
Proof.
  intros Hb Ht. unfold curl_body. rewrite Hb, Ht. cbn [andb negb app].
  eexists ("'" +:+ escape_quotes (body r) +:+ "'"), _.
  split; [reflexivity |].
  rewrite string_app_cons, string_app_nil_l, sh_word_open.
  rewrite <- (string_app_nil_r (body r)) at 2.
  now apply (sh_word_escape_quotes (body r) "" "").
Qed.

(** X15. The command that [generateCurl] returns starts with [curl], then
    the separator, and ends with the URL of the draft between single quotes.
    The URL is not escaped: that last word is read back by a shell as the
    URL exactly when the URL contains no single quote. *)
Theorem curl_url_last_unescaped (s : Store) :
  let u := url (currentRequest s) in
  (exists before,
     generateCurl s = "curl" +:+ curl_sep +:+ before +:+ "'" +:+ u +:+ "'") /\
  (sh_word Unquoted ("'" +:+ u +:+ "'") = Some u <-> quotes u = O).
Proof.
  cbn zeta. split.
  - unfold generateCurl, generateCurl_parts.
    set (r := currentRequest s). set (hs := currentHeaders s).
    replace (["curl"] ++ curl_method r ++ curl_headers hs ++ curl_auth r
             ++ curl_body r hs ++ ["'" +:+ url r +:+ "'"])
      with ("curl" :: (curl_method r ++ curl_headers hs ++ curl_auth r
                       ++ curl_body r hs) ++ ["'" +:+ url r +:+ "'"])
      by (cbn [app]; now rewrite <- !app_assoc).
    destruct (join_snoc curl_sep ("'" +:+ url r +:+ "'")
                (curl_method r ++ curl_headers hs ++ curl_auth r ++ curl_body r hs))
      as [before Hj].
    exists before. change (" \" +:+ newline +:+ "  ") with curl_sep.
    rewrite join_cons, Hj; [reflexivity |].
    intros H. apply app_eq_nil in H as [_ H]. discriminate.
  - split.
    + intros H. apply sh_word_length in H.
      rewrite quotes_app, quotes_app, !string_length_app in H. cbn in H. lia.
    + intros Hq. rewrite string_app_cons, string_app_nil_l, sh_word_open.
      now apply sh_word_plain.
Qed.

End MoreCurl.

(** ** The variable preview and the status badges *)

Section MorePreview.

Lemma includes_app_r (pat pre s : string) :
  includes pat s = true -> includes pat (pre +:+ s) = true.
Proof.
  intros H. induction pre as [|c pre IH]; [exact H |].
  rewrite string_app_cons. cbn [includes]. rewrite IH. apply orb_true_r.
Qed.

Lemma prefix_app (pat r : string) : String.prefix pat (pat +:+ r) = true.
Proof.
  induction pat as [|c pat IH]; [now destruct r |].
  rewrite string_app_cons. cbn [String.prefix].
  now destruct (ascii_dec c c).
Qed.

Lemma includes_prefix (pat s : string) :
  String.prefix pat s = true -> includes pat s = true.
Proof. intros H. destruct s; cbn [includes]; now rewrite H. Qed.

Lemma includes_char_cons (c a : ascii) (r : string) :
  includes (String c "") (String a r) = false ->
  a <> c /\ includes (String c "") r = false.
Proof.
  cbn [includes String.prefix]. intros H. apply orb_false_elim in H as [H1 H2].
  split; [|exact H2]. intros ->. destruct (ascii_dec c c); [|congruence].
  destruct r; discriminate.
Qed.

Lemma span_name_app (name rest : string) :
  includes "}" name = false ->
  span_name (name +:+ String "}" rest) = (name, String "}" rest).
Proof.
  induction name as [|c name IH]; intros H; [reflexivity |].
  apply includes_char_cons in H as [Hc H].
  rewrite string_app_cons. cbn [span_name].
  apply Ascii.eqb_neq in Hc. rewrite Hc, (IH H). reflexivity.
Qed.

Lemma token_here_other (c : ascii) (r : string) :
  c <> "{"%char -> token_here (String c r) = None.
Proof.
  intros Hc.
  destruct c as [[] [] [] [] [] [] [] []]; try reflexivity. congruence.
Qed.

Lemma token_here_token (name post : string) :
  includes "}" name = false -> name <> "" ->
  token_here ("{{" +:+ name +:+ "}}" +:+ post) = Some name.
Proof.
  intros Hn Hne.
  rewrite !string_app_cons, string_app_nil_l.
  change (token_here (String "{" (String "{" ?r)))
    with (let '(name, rest) := span_name r in
          if (negb (String.eqb name "") && String.prefix "}}" rest)%bool
          then Some name else None).
  rewrite (span_name_app name _ Hn).
  apply String.eqb_neq in Hne. rewrite Hne.
  pose proof (prefix_app "}}" post) as Hp.
  change ("}}" +:+ post) with (String "}" (String "}" ("" +:+ post))) in Hp.
  now rewrite Hp.
Qed.

Lemma match_token_first (pre name post : string) :
  includes "{" pre = false -> includes "}" name = false -> name <> "" ->
  match_token (pre +:+ "{{" +:+ name +:+ "}}" +:+ post) = Some name.
Proof.
  intros Hpre Hn Hne. induction pre as [|c pre IH].
  - rewrite string_app_nil_l.
    pose proof (token_here_token name post Hn Hne) as Ht.
    destruct ("{{" +:+ name +:+ "}}" +:+ post) eqn:E; cbn [match_token]; now rewrite Ht.
  - apply includes_char_cons in Hpre as [Hc Hpre].
    rewrite string_app_cons. cbn [match_token].
    rewrite (token_here_other _ _ Hc). exact (IH Hpre).
Qed.

(** X16. With an active environment whose variables parse, the preview of a
    text whose first opening brace starts a token [{{name}}] (the name
    non-empty and without closing brace) is the value of the first variable
    whose key is the trimmed name, and empty when there is none: what
    follows the token, further tokens included, plays no part. *)
Theorem getVariableValue_first_token
    (JSON_parse_variables : string -> option (list EnvironmentVariable))
    (s : Store) (env : Environment) (vars : list EnvironmentVariable)
    (pre name post : string) :
  activeEnvironment s = Some env ->
  JSON_parse_variables (or_else (variables env) "[]") = Some vars ->
  includes "{" pre = false -> includes "}" name = false -> name <> "" ->
  getVariableValue JSON_parse_variables s
      (pre +:+ "{{" +:+ name +:+ "}}" +:+ post) =
    match List.find (fun v => String.eqb (var_key v) (trim name)) vars with
    | Some v => var_value v
    | None => ""
    end.
Proof.
  intros Henv Hvars Hpre Hn Hne. unfold getVariableValue, hasVariables.
  rewrite Henv, Hvars, (match_token_first pre name post Hpre Hn Hne).
  rewrite (includes_app_r "{{" pre) by apply includes_prefix, prefix_app.
  rewrite (includes_app_r "}}" pre), ?andb_true_l; [reflexivity |].
  apply (includes_app_r "}}" "{{"), includes_app_r, includes_prefix, prefix_app.
Qed.

(** X17. A non-empty preview is shown only for a text that contains both
    brace pairs, and it is the value of a variable that the environment
    drawer lists for the active environment, whose key is the trimmed name
    of the first token of the text. *)
Theorem preview_is_listed_variable
    (JSON_parse_variables : string -> option (list EnvironmentVariable))
    (s : Store) (value : string) :
  getVariableValue JSON_parse_variables s value <> "" ->
  hasVariables value = true /\
  exists name v,
    match_token value = Some name /\
    In v (environmentVariables JSON_parse_variables s) /\
    var_key v = trim name /\
    var_value v = getVariableValue JSON_parse_variables s value.
Proof.
  unfold getVariableValue, environmentVariables. intros H.
  destruct (activeEnvironment s) as [env|]; [|congruence].
  destruct (hasVariables value); [|congruence]. split; [reflexivity |].
  destruct (JSON_parse_variables (or_else (variables env) "[]")) as [vars|];
    [|congruence].
  destruct (match_token value) as [name|]; [|congruence].
  destruct (List.find _ vars) as [v|] eqn:Hf; [|congruence].
  apply find_some in Hf as [Hin Hk]. apply String.eqb_eq in Hk.
  exists name, v. now repeat split.
Qed.

(** X18. The status badge of the response viewer and the one of the history
    panel classify a status alike: success from 200 to 299, warning from 300
    to 399, danger for every other status (1xx and 0 included); without a
    response the viewer shows the neutral badge. *)
Theorem status_badges_agree (s : Store) :
  match currentResponse s with
  | Some response => statusSeverity s = getStatusSeverity (status response)
  | None => statusSeverity s = "secondary"
  end /\
  forall status : Z,
    (getStatusSeverity status = "success" <-> 200 <= status < 300) /\
    (getStatusSeverity status = "warning" <-> 300 <= status < 400) /\
    (getStatusSeverity status = "danger" <-> status < 200 \/ 400 <= status).
Proof.
  split.
  - unfold statusSeverity. now destruct (currentResponse s).
  - intros st. unfold getStatusSeverity.
    destruct (Z.geb_spec st 200), (Z.ltb_spec st 300), (Z.geb_spec st 300),
      (Z.ltb_spec st 400); cbn [andb];
      repeat split; intros; try discriminate; try lia; auto.
Qed.

End MorePreview.

(** ** The further properties at work on the reference backend *)

Section MoreScenarios.

Lemma loadRequest_failures_witness :
  let w := Reference.world (initialStore "tab-0") Cases.seeded_broken in
  let w' := fst (loadRequest Reference.backend Reference.host "r2" false w) in
  console w' = ["Failed to load request:"] /\
  store w' = set_selectedRequestId (Some "r2") (store w).
Proof.
  intros w w'.
  exact (loadRequest_failures Reference.backend Reference.host "r2" false w
           eq_refl eq_refl).
Defined.

Lemma deleteRequest_resets_active_tab_witness :
  let w := Reference.world Scenario.login_open Scenario.seeded in
  let w' := fst (deleteRequest Reference.backend "r1" "f1" w) in
  selectedRequestId (store w) = Some "r1" /\
  openTabs (store w')
  = [mkRequestTab "tab-0" "Login" defaultRequest None None false true].
Proof.
  intros w w'. split; [reflexivity |].
  destruct (deleteRequest_resets_active_tab Reference.backend "r1" "f1" w _ eq_refl)
    as (_ & Hbound & _).
  exact (Hbound eq_refl).
Defined.

Lemma save_then_save_same_id_witness :
  let w := Reference.world Cases.plain_draft Scenario.seeded in
  let w1 := fst (saveCurrentRequest Reference.backend Reference.host "Ping" "f1" w) in
  tabs_ok (store w) /\
  selectedRequestId (store w1) = Some "uuid-1" /\
  req_id (saved_request Reference.host "Ping again" "f1" w1) = "uuid-1".
Proof.
  intros w w1.
  assert (tabs_ok (store w)) as Hok by (vm_compute; split; [discriminate | reflexivity]).
  split; [exact Hok |].
  destruct (save_then_save_same_id Reference.backend Reference.host "Ping" "f1" w _
              Hok eq_refl eq_refl) as (_ & Hsel & _ & Hsame).
  split; [exact Hsel | exact (Hsame "Ping again" "f1")].
Defined.

Lemma loadCollections_keeps_entries_witness :
  let w := Reference.world Cases.stale_entry Scenario.seeded in
  let w' := fst (loadCollections Reference.backend w) in
  collections (store w') = [Scenario.auth_folder] /\
  requests (store w') !! "gone" = Some [Scenario.login].
Proof.
  intros w w'.
  destruct (loadCollections_keeps_entries Reference.backend w) as (_ & Hcs & Hkeep).
  split; [exact Hcs |].
  refine (Hkeep "gone" _). cbn. intros [H | []]. discriminate H.
Defined.

Lemma env_consistent_kept_witness :
  let w := Reference.world Scenario.login_open Scenario.seeded in
  env_consistent (store w) /\
  env_consistent (store (fst (deleteEnvironment Reference.backend "e1" w))) /\
  environments (store (fst (loadEnvironments Reference.backend w))) = [Scenario.dev].
Proof.
  intros w.
  assert (env_consistent (store w)) as Hc by reflexivity.
  destruct (env_consistent_kept Reference.backend Reference.host w)
    as (_ & Hkept & Hload).
  split; [exact Hc |]. split.
  - exact (proj2 (proj2 (proj2 (proj2 (Hkept Hc)))) "e1").
  - exact (proj1 (Hload _ _ eq_refl)).
Defined.

Lemma sendRequest_end_state_witness :
  let w := Reference.world (initialStore "tab-0") Scenario.seeded in
  let w' := fst (sendRequest Reference.backend Reference.host w) in
  snd (sendRequest Reference.backend Reference.host w)
  = Rejected "builder error: empty URL" /\
  activeEnvironment (store w) = None /\
  isLoading (store w') = false /\ currentResponse (store w') = None /\
  heap (store w') = heap (store w).
Proof.
  intros w w'. split; [reflexivity |]. split; [reflexivity |].
  destruct (sendRequest_end_state Reference.backend Reference.host w)
    as (Hload & _ & _ & _ & _ & _ & _ & _ & _ & Hnone & _ & Hheap & _).
  split; [exact Hload |]. split; [exact (Hnone _ eq_refl) | exact (Hheap eq_refl)].
Defined.

Lemma send_survives_history_failure_witness :
  let w := Reference.world Cases.plain_draft Scenario.seeded in
  let w' := fst (sendRequest Reference.backend Reference.host w) in
  activeEnvironment (store w) = None /\ tabs_ok (store w) /\
  snd (sendRequest Reference.backend Reference.host w) = Ok tt /\
  history (store w')
  = [mkHistory "uuid-0" "GET" "https://api.test/ping" 200 12 "t1"].
Proof.
  intros w w'.
  assert (tabs_ok (store w)) as Hok by (vm_compute; split; [discriminate | reflexivity]).
  split; [reflexivity |]. split; [exact Hok |].
  destruct (send_survives_history_failure Reference.backend Reference.host w _ _
              eq_refl Hok eq_refl) as (Hsent & _ & Hhist).
  split; [exact Hsent | exact Hhist].
Defined.

Lemma two_headers_ok : tabs_ok Cases.two_headers /\ headers_ok Cases.two_headers.
Proof.
  split; [vm_compute; split; [discriminate | reflexivity] |].
  split.
  - cbn. apply NoDup_cons. split; [|apply NoDup_singleton].
    intros H. apply list_elem_of_singleton in H. discriminate H.
  - intros l [<- | [<- | []]]; now eexists.
Qed.

Lemma addHeader_appends_witness :
  let row := mkKeyValue "X-New" "v" true in
  truthy (kv_key row) = true /\
  currentHeaders (addHeader row Cases.two_headers)
  = [Cases.accept; Cases.trace_off; row].
Proof.
  intros row. split; [reflexivity |].
  destruct two_headers_ok as [Hok Hh].
  exact (proj1 (proj2 (addHeader_appends row Cases.two_headers) eq_refl Hok Hh)).
Defined.

Lemma removeHeader_splices_witness :
  currentHeaders (removeHeader 0 Cases.two_headers) = [Cases.trace_off] /\
  currentHeaders (removeHeader (-1) Cases.two_headers) = [Cases.accept] /\
  currentHeaders (removeHeader 2 Cases.two_headers) = [Cases.accept; Cases.trace_off].
Proof.
  destruct two_headers_ok as [Hok Hh].
  split; [|split].
  - exact (proj1 (removeHeader_splices 0 Cases.two_headers Hok Hh)).
  - exact (proj1 (removeHeader_splices (-1) Cases.two_headers Hok Hh)).
  - exact (proj1 (removeHeader_splices 2 Cases.two_headers Hok Hh)).
Defined.

Lemma editHeaderValue_alters_row_witness :
  currentHeaders (editHeaderValue 1 "2" Cases.two_headers)
  = [Cases.accept; mkKeyValue "X-Trace" "2" false].
Proof.
  destruct two_headers_ok as [_ Hh].
  exact (proj1 (editHeaderValue_alters_row 1 "2" Cases.two_headers Hh)).
Defined.

Lemma curl_body_reads_back_witness :
  curl_body Cases.quoted_body [] = ["-d 'it'\''s'"] /\
  exists word rest,
    curl_body Cases.quoted_body [] = ("-d " +:+ word) :: rest /\
    sh_word Unquoted word = Some "it's".
Proof.
  split; [reflexivity |].
  exact (curl_body_reads_back Cases.quoted_body [] eq_refl eq_refl).
Defined.

Lemma getVariableValue_first_token_witness :
  getVariableValue Cases.parse_vars Scenario.login_open
    "https://{{ host }}/{{token}}" = "api.test".
Proof.
  refine (getVariableValue_first_token Cases.parse_vars Scenario.login_open
            Scenario.dev _ "https://" " host " "/{{token}}"
            eq_refl eq_refl eq_refl eq_refl _).
  discriminate.
Defined.

Lemma preview_is_listed_variable_witness :
  getVariableValue Cases.parse_vars Scenario.login_open "Bearer {{token}}" = "abc" /\
  exists name v,
    match_token "Bearer {{token}}" = Some name /\
    In v (environmentVariables Cases.parse_vars Scenario.login_open) /\
    var_key v = trim name /\
    var_value v = "abc".
Proof.
  split; [reflexivity |].
  refine (proj2 (preview_is_listed_variable Cases.parse_vars Scenario.login_open
                   "Bearer {{token}}" _)).
  discriminate.
Defined.

End MoreScenarios.
